(** * Currency Tracker: the exchange-rate pipeline

    A shallow embedding of the Python sources

    - [models/currency.py]      (class [Currency]),
    - [utils/currencies_api.py] (decorator [logger], function [get_currencies]),
    - [myapp.py]                (method [CurrencyTrackerHandler._handle_currencies]),

    followed by the properties of the fetch / validate / integrate-with-fallback
    pipeline; and of

    - [models/user.py], [models/user_currency.py], [models/author.py],
      [models/app.py]           (the classes [User], [UserCurrency], [Author], [App]),
    - [myapp.py]                (the other routes of [CurrencyTrackerHandler] and
                                 [do_GET]),

    followed by their properties.

    Conventions of the embedding.
    - A Python [int] is a [Z]; a Python [float] is an IEEE 754 binary64 value,
      taken from the Standard Library's executable specification [SpecFloat]
      (so NaN, the infinities, signed zeros and rounding are those of CPython).
    - A Python [str] is a [string] holding its UTF-8 text.  [strip], [upper]
      and [len] work on the characters (code points) of that text: the white
      space of [strip] and the case mapping of [upper] are those of the
      Unicode database, [len] counts characters.  A request target, which
      [http.server] decodes as ISO-8859-1, has one byte per character.
    - A [dict] with string keys is a [gmap string _].
    - [raise] / [try] / [except] become the [result] type; an object mutated
      in place becomes explicit state passing; calls on a log handle are
      collected in a trace.
    - Only instances of [Exception] are modelled: [except Exception] does not
      intercept [KeyboardInterrupt] or [SystemExit], and neither does the
      model speak about them. *)

From Stdlib Require Import ZArith String Ascii List Bool Lia.
From Stdlib Require Import Floats.SpecFloat.
From stdpp Require Import base gmap strings list.

Local Set Warnings "-register-all".
Local Open Scope string_scope.
Local Open Scope Z_scope.

(* ===================================================================== *)
(** * Python values and exceptions                                        *)
(* ===================================================================== *)

(** The exception classes the three modules raise or let through.  The
    [requests] classes [ConnectionError], [HTTPError] and [Timeout] derive
    from [RequestException]; [JSONDecodeError] derives from [ValueError]. *)
Inductive exc_class :=
| TypeError | ValueError | KeyError | OverflowError | ZeroDivisionError
| AttributeError | JSONDecodeError | ConnectionError | HTTPError | Timeout | RequestException
| OtherException.

(** [type(e).__name__] *)
Definition class_name (c : exc_class) : string :=
  match c with
  | TypeError => "TypeError" | ValueError => "ValueError"
  | KeyError => "KeyError" | OverflowError => "OverflowError"
  | ZeroDivisionError => "ZeroDivisionError"
  | AttributeError => "AttributeError"
  | JSONDecodeError => "JSONDecodeError"
  | ConnectionError => "ConnectionError" | HTTPError => "HTTPError"
  | Timeout => "Timeout" | RequestException => "RequestException"
  | OtherException => "Exception"
  end.

(** [isinstance(e, ValueError)] and the two [requests] tests used by the
    [except] clauses of [get_currencies]. *)
Definition is_ValueError (c : exc_class) : bool :=
  match c with ValueError | JSONDecodeError => true | _ => false end.

Definition is_ConnectionError (c : exc_class) : bool :=
  match c with ConnectionError => true | _ => false end.

Definition is_RequestException (c : exc_class) : bool :=
  match c with
  | ConnectionError | HTTPError | Timeout | RequestException => true
  | _ => false
  end.

(** An exception instance: its class and its single argument. *)
Record exn := Exn { exn_class : exc_class; exn_arg : string }.

(** The outcome of a Python call. *)
Inductive result (A : Type) :=
| Return (a : A)
| Raise (e : exn).
Arguments Return {A} a.
Arguments Raise {A} e.

Definition bind {A B} (r : result A) (k : A -> result B) : result B :=
  match r with
  | Return a => k a
  | Raise e => Raise e
  end.

Notation "'let*' x ':=' r 'in' k" := (bind r (fun x => k))
  (at level 10, x name, r at level 100, k at level 200).

Definition returns {A} (r : result A) : bool :=
  match r with Return _ => true | Raise _ => false end.

Definition raises {A} (r : result A) : bool := negb (returns r).

(** ** Floats *)

Definition float64 := spec_float.

Definition f_zero : float64 := S754_zero false.
Definition f_nan : float64 := S754_nan.

Definition f_sub : float64 -> float64 -> float64 := SFsub 53 1024.
Definition f_div : float64 -> float64 -> float64 := SFdiv 53 1024.
Definition f_leb : float64 -> float64 -> bool := SFleb.
Definition f_ltb : float64 -> float64 -> bool := SFltb.

(** The float nearest to an integer (ties to even); an infinity when the
    integer lies beyond the binary64 range. *)
Definition f_of_Z (z : Z) : float64 := binary_normalize 53 1024 z 0 false.

(** The float nearest to [m / 10^k]: how CPython reads a decimal literal
    such as [90.50] (here [m = 9050], [k = 2]; both must be exact floats). *)
Definition f_dec (m : Z) (k : nat) : float64 :=
  f_div (f_of_Z m) (f_of_Z (10 ^ Z.of_nat k)).

(** Conversion of an [int] operand to [float], as done by [float(n)] and by
    [x / n]: CPython raises [OverflowError] where the rounded value would
    not be finite. *)
Definition float_of_int (z : Z) : result float64 :=
  match f_of_Z z with
  | S754_infinity _ => Raise (Exn OverflowError "int too large to convert to float")
  | f => Return f
  end.

(** ** Values read from a JSON document *)

Inductive pyval :=
| PNone
| PBool (b : bool)
| PInt (z : Z)
| PFloat (f : float64)
| PStr (s : string)
| PList (l : list pyval)
| PDict (d : gmap string pyval).

(** [isinstance(v, (int, float))]: [bool] is a subclass of [int]. *)
Definition is_int_or_float (v : pyval) : bool :=
  match v with
  | PBool _ | PInt _ | PFloat _ => true
  | _ => false
  end.

(** [isinstance(v, int)], with the integer the object stands for, and
    [isinstance(v, str)], with its text. *)
Definition as_int (v : pyval) : option Z :=
  match v with
  | PInt z => Some z
  | PBool b => Some (if b then 1 else 0)
  | _ => None
  end.

Definition as_str (v : pyval) : option string :=
  match v with
  | PStr s => Some s
  | _ => None
  end.

(** [v <= 0] for a value that passed [is_int_or_float]. *)
Definition le_zero (v : pyval) : bool :=
  match v with
  | PBool b => negb b
  | PInt z => z <=? 0
  | PFloat f => f_leb f f_zero
  | _ => false
  end.

(** [v > 0], the comparison the specification speaks of. *)
Definition gt_zero (v : pyval) : bool :=
  match v with
  | PBool b => b
  | PInt z => 0 <? z
  | PFloat f => f_ltb f_zero f
  | _ => false
  end.

(** [float(v)] for a value that passed [is_int_or_float]. *)
Definition to_float (v : pyval) : result float64 :=
  match v with
  | PBool b => Return (f_of_Z (if b then 1 else 0))
  | PInt z => float_of_int z
  | PFloat f => Return f
  | _ => Raise (Exn TypeError "float() argument must be a string or a real number")
  end.

(** Truth value of a float: every float but the two zeros is truthy. *)
Definition truthy (f : float64) : bool :=
  match f with
  | S754_zero _ => false
  | _ => true
  end.

(** ** Strings

    A [str] is carried as its UTF-8 text, one to four bytes for each
    character (code point); a lone surrogate is written like any other
    character of its range.  [strip], [upper] and [len] work on the
    characters of that text. *)

Definition byte_of (a : ascii) : Z := Z.of_N (N_of_ascii a).

Definition chr_of (z : Z) : ascii := ascii_of_N (Z.to_N z).

(** A byte that continues a character: [10xxxxxx]. *)
Definition is_continuation (a : ascii) : bool :=
  (128 <=? byte_of a) && (byte_of a <? 192).

(** [str.isspace] on ASCII: TAB, LF, VT, FF, CR, FS, GS, RS, US, SPACE. *)
Definition is_space (a : ascii) : bool :=
  let n := nat_of_ascii a in
  ((9 <=? n) && (n <=? 13) || (28 <=? n) && (n <=? 32))%nat.

(** White space outside ASCII, by its UTF-8 bytes: U+0085 and U+00A0
    (two bytes); U+1680, U+2000 to U+200A, U+2028, U+2029, U+202F,
    U+205F and U+3000 (three bytes).  With the ten characters of
    [is_space] these are the characters [str.strip()] removes. *)
Definition is_space2 (a b : ascii) : bool :=
  (byte_of a =? 194) && ((byte_of b =? 133) || (byte_of b =? 160)).

Definition is_space3 (a b c : ascii) : bool :=
  (byte_of a =? 225) && (byte_of b =? 154) && (byte_of c =? 128)
  || (byte_of a =? 226) && (byte_of b =? 128)
     && ((128 <=? byte_of c) && (byte_of c <=? 138)
         || (byte_of c =? 168) || (byte_of c =? 169) || (byte_of c =? 175))
  || (byte_of a =? 226) && (byte_of b =? 129) && (byte_of c =? 159)
  || (byte_of a =? 227) && (byte_of b =? 128) && (byte_of c =? 128).

(** The text after one leading white-space character, when there is
    one. *)
Definition leading_space (s : string) : option string :=
  match s with
  | String a r =>
      if is_space a then Some r
      else
        match r with
        | String b r1 =>
            if is_space2 a b then Some r1
            else
              match r1 with
              | String c r2 => if is_space3 a b c then Some r2 else None
              | EmptyString => None
              end
        | EmptyString => None
        end
  | EmptyString => None
  end.

Fixpoint lstrip (s : string) : string :=
  match s with
  | String a r =>
      if is_space a then lstrip r
      else
        match r with
        | String b r1 =>
            if is_space2 a b then lstrip r1
            else
              match r1 with
              | String c r2 => if is_space3 a b c then lstrip r2 else s
              | EmptyString => s
              end
        | EmptyString => s
        end
  | EmptyString => EmptyString
  end.

(** The text consists of white-space characters only. *)
Fixpoint all_space (s : string) : bool :=
  match s with
  | String a r =>
      if is_space a then all_space r
      else
        match r with
        | String b r1 =>
            if is_space2 a b then all_space r1
            else
              match r1 with
              | String c r2 => is_space3 a b c && all_space r2
              | EmptyString => false
              end
        | EmptyString => false
        end
  | EmptyString => true
  end.

(** [rstrip] drops everything from the point on where only white space
    follows. *)
Fixpoint rstrip (s : string) : string :=
  match s with
  | String a r => if all_space s then EmptyString else String a (rstrip r)
  | EmptyString => EmptyString
  end.

Definition strip (s : string) : string := rstrip (lstrip s).

(** ** Upper case

    [str.upper()] maps character by character, with the full case mapping
    of the Unicode database: a character can become up to three.  Inside
    ASCII that is [a-z] to [A-Z]; outside, the table below is that of
    Unicode 14.0 (CPython 3.11), as ranges [(first, last, step, shift)]
    of characters with a single upper-case character and as the list of
    characters with a longer mapping. *)
Definition upper_ascii (a : ascii) : ascii :=
  let n := nat_of_ascii a in
  if ((97 <=? n) && (n <=? 122))%nat then ascii_of_nat (n - 32) else a.

Definition case_rules : list (Z * Z * Z * Z) :=
  [(181, 181, 1, 743); (224, 246, 1, (-32)); (248, 254, 1, (-32));
   (255, 255, 1, 121); (257, 303, 2, (-1)); (305, 305, 1, (-232));
   (307, 311, 2, (-1)); (314, 328, 2, (-1)); (331, 375, 2, (-1));
   (378, 382, 2, (-1)); (383, 383, 1, (-300)); (384, 384, 1, 195);
   (387, 389, 2, (-1)); (392, 392, 1, (-1)); (396, 396, 1, (-1));
   (402, 402, 1, (-1)); (405, 405, 1, 97); (409, 409, 1, (-1));
   (410, 410, 1, 163); (414, 414, 1, 130); (417, 421, 2, (-1));
   (424, 424, 1, (-1)); (429, 429, 1, (-1)); (432, 432, 1, (-1));
   (436, 438, 2, (-1)); (441, 441, 1, (-1)); (445, 445, 1, (-1));
   (447, 447, 1, 56); (453, 453, 1, (-1)); (454, 454, 1, (-2));
   (456, 456, 1, (-1)); (457, 457, 1, (-2)); (459, 459, 1, (-1));
   (460, 460, 1, (-2)); (462, 476, 2, (-1)); (477, 477, 1, (-79));
   (479, 495, 2, (-1)); (498, 498, 1, (-1)); (499, 499, 1, (-2));
   (501, 501, 1, (-1)); (505, 543, 2, (-1)); (547, 563, 2, (-1));
   (572, 572, 1, (-1)); (575, 576, 1, 10815); (578, 578, 1, (-1));
   (583, 591, 2, (-1)); (592, 592, 1, 10783); (593, 593, 1, 10780);
   (594, 594, 1, 10782); (595, 595, 1, (-210)); (596, 596, 1, (-206));
   (598, 599, 1, (-205)); (601, 601, 1, (-202)); (603, 603, 1, (-203));
   (604, 604, 1, 42319); (608, 608, 1, (-205)); (609, 609, 1, 42315);
   (611, 611, 1, (-207)); (613, 613, 1, 42280); (614, 614, 1, 42308);
   (616, 616, 1, (-209)); (617, 617, 1, (-211)); (618, 618, 1, 42308);
   (619, 619, 1, 10743); (620, 620, 1, 42305); (623, 623, 1, (-211));
   (625, 625, 1, 10749); (626, 626, 1, (-213)); (629, 629, 1, (-214));
   (637, 637, 1, 10727); (640, 640, 1, (-218)); (642, 642, 1, 42307);
   (643, 643, 1, (-218)); (647, 647, 1, 42282); (648, 648, 1, (-218));
   (649, 649, 1, (-69)); (650, 651, 1, (-217)); (652, 652, 1, (-71));
   (658, 658, 1, (-219)); (669, 669, 1, 42261); (670, 670, 1, 42258);
   (837, 837, 1, 84); (881, 883, 2, (-1)); (887, 887, 1, (-1));
   (891, 893, 1, 130); (940, 940, 1, (-38)); (941, 943, 1, (-37));
   (945, 961, 1, (-32)); (962, 962, 1, (-31)); (963, 971, 1, (-32));
   (972, 972, 1, (-64)); (973, 974, 1, (-63)); (976, 976, 1, (-62));
   (977, 977, 1, (-57)); (981, 981, 1, (-47)); (982, 982, 1, (-54));
   (983, 983, 1, (-8)); (985, 1007, 2, (-1)); (1008, 1008, 1, (-86));
   (1009, 1009, 1, (-80)); (1010, 1010, 1, 7); (1011, 1011, 1, (-116));
   (1013, 1013, 1, (-96)); (1016, 1016, 1, (-1)); (1019, 1019, 1, (-1));
   (1072, 1103, 1, (-32)); (1104, 1119, 1, (-80)); (1121, 1153, 2, (-1));
   (1163, 1215, 2, (-1)); (1218, 1230, 2, (-1)); (1231, 1231, 1, (-15));
   (1233, 1327, 2, (-1)); (1377, 1414, 1, (-48)); (4304, 4346, 1, 3008);
   (4349, 4351, 1, 3008); (5112, 5117, 1, (-8)); (7296, 7296, 1, (-6254));
   (7297, 7297, 1, (-6253)); (7298, 7298, 1, (-6244));
   (7299, 7300, 1, (-6242)); (7301, 7301, 1, (-6243));
   (7302, 7302, 1, (-6236)); (7303, 7303, 1, (-6181));
   (7304, 7304, 1, 35266); (7545, 7545, 1, 35332); (7549, 7549, 1, 3814);
   (7566, 7566, 1, 35384); (7681, 7829, 2, (-1)); (7835, 7835, 1, (-59));
   (7841, 7935, 2, (-1)); (7936, 7943, 1, 8); (7952, 7957, 1, 8);
   (7968, 7975, 1, 8); (7984, 7991, 1, 8); (8000, 8005, 1, 8);
   (8017, 8023, 2, 8); (8032, 8039, 1, 8); (8048, 8049, 1, 74);
   (8050, 8053, 1, 86); (8054, 8055, 1, 100); (8056, 8057, 1, 128);
   (8058, 8059, 1, 112); (8060, 8061, 1, 126); (8112, 8113, 1, 8);
   (8126, 8126, 1, (-7205)); (8144, 8145, 1, 8); (8160, 8161, 1, 8);
   (8165, 8165, 1, 7); (8526, 8526, 1, (-28)); (8560, 8575, 1, (-16));
   (8580, 8580, 1, (-1)); (9424, 9449, 1, (-26)); (11312, 11359, 1, (-48));
   (11361, 11361, 1, (-1)); (11365, 11365, 1, (-10795));
   (11366, 11366, 1, (-10792)); (11368, 11372, 2, (-1));
   (11379, 11379, 1, (-1)); (11382, 11382, 1, (-1)); (11393, 11491, 2, (-1));
   (11500, 11502, 2, (-1)); (11507, 11507, 1, (-1));
   (11520, 11557, 1, (-7264)); (11559, 11559, 1, (-7264));
   (11565, 11565, 1, (-7264)); (42561, 42605, 2, (-1));
   (42625, 42651, 2, (-1)); (42787, 42799, 2, (-1)); (42803, 42863, 2, (-1));
   (42874, 42876, 2, (-1)); (42879, 42887, 2, (-1)); (42892, 42892, 1, (-1));
   (42897, 42899, 2, (-1)); (42900, 42900, 1, 48); (42903, 42921, 2, (-1));
   (42933, 42947, 2, (-1)); (42952, 42954, 2, (-1)); (42961, 42961, 1, (-1));
   (42967, 42969, 2, (-1)); (42998, 42998, 1, (-1));
   (43859, 43859, 1, (-928)); (43888, 43967, 1, (-38864));
   (65345, 65370, 1, (-32)); (66600, 66639, 1, (-40));
   (66776, 66811, 1, (-40)); (66967, 67003, 2, (-39));
   (66968, 66976, 2, (-39)); (66980, 66992, 2, (-39));
   (66996, 67000, 2, (-39)); (67004, 67004, 1, (-39));
   (68800, 68850, 1, (-64)); (71872, 71903, 1, (-32));
   (93792, 93823, 1, (-32)); (125218, 125251, 1, (-34))].

Definition case_specials : list (Z * list Z) :=
  [(223, [83; 83]); (329, [700; 78]); (496, [74; 780]);
   (912, [921; 776; 769]); (944, [933; 776; 769]); (1415, [1333; 1362]);
   (7830, [72; 817]); (7831, [84; 776]); (7832, [87; 778]);
   (7833, [89; 778]); (7834, [65; 702]); (8016, [933; 787]);
   (8018, [933; 787; 768]); (8020, [933; 787; 769]); (8022, [933; 787; 834]);
   (8064, [7944; 921]); (8065, [7945; 921]); (8066, [7946; 921]);
   (8067, [7947; 921]); (8068, [7948; 921]); (8069, [7949; 921]);
   (8070, [7950; 921]); (8071, [7951; 921]); (8072, [7944; 921]);
   (8073, [7945; 921]); (8074, [7946; 921]); (8075, [7947; 921]);
   (8076, [7948; 921]); (8077, [7949; 921]); (8078, [7950; 921]);
   (8079, [7951; 921]); (8080, [7976; 921]); (8081, [7977; 921]);
   (8082, [7978; 921]); (8083, [7979; 921]); (8084, [7980; 921]);
   (8085, [7981; 921]); (8086, [7982; 921]); (8087, [7983; 921]);
   (8088, [7976; 921]); (8089, [7977; 921]); (8090, [7978; 921]);
   (8091, [7979; 921]); (8092, [7980; 921]); (8093, [7981; 921]);
   (8094, [7982; 921]); (8095, [7983; 921]); (8096, [8040; 921]);
   (8097, [8041; 921]); (8098, [8042; 921]); (8099, [8043; 921]);
   (8100, [8044; 921]); (8101, [8045; 921]); (8102, [8046; 921]);
   (8103, [8047; 921]); (8104, [8040; 921]); (8105, [8041; 921]);
   (8106, [8042; 921]); (8107, [8043; 921]); (8108, [8044; 921]);
   (8109, [8045; 921]); (8110, [8046; 921]); (8111, [8047; 921]);
   (8114, [8122; 921]); (8115, [913; 921]); (8116, [902; 921]);
   (8118, [913; 834]); (8119, [913; 834; 921]); (8124, [913; 921]);
   (8130, [8138; 921]); (8131, [919; 921]); (8132, [905; 921]);
   (8134, [919; 834]); (8135, [919; 834; 921]); (8140, [919; 921]);
   (8146, [921; 776; 768]); (8147, [921; 776; 769]); (8150, [921; 834]);
   (8151, [921; 776; 834]); (8162, [933; 776; 768]); (8163, [933; 776; 769]);
   (8164, [929; 787]); (8166, [933; 834]); (8167, [933; 776; 834]);
   (8178, [8186; 921]); (8179, [937; 921]); (8180, [911; 921]);
   (8182, [937; 834]); (8183, [937; 834; 921]); (8188, [937; 921]);
   (64256, [70; 70]); (64257, [70; 73]); (64258, [70; 76]);
   (64259, [70; 70; 73]); (64260, [70; 70; 76]); (64261, [83; 84]);
   (64262, [83; 84]); (64275, [1348; 1350]); (64276, [1348; 1333]);
   (64277, [1348; 1339]); (64278, [1358; 1350]); (64279, [1348; 1341])].

Definition in_rule (c : Z) (r : Z * Z * Z * Z) : bool :=
  let '(first, last, step, _) := r in
  (first <=? c) && (c <=? last) && ((c - first) mod step =? 0).

(** The upper-case mapping of a character outside ASCII. *)
Definition upper_point (c : Z) : list Z :=
  match List.find (fun p => fst p =? c) case_specials with
  | Some (_, us) => us
  | None =>
      match List.find (in_rule c) case_rules with
      | Some (_, _, _, shift) => [c + shift]
      | None => [c]
      end
  end.

(** The UTF-8 bytes of a character. *)
Definition encode (c : Z) : string :=
  if c <? 128 then String (chr_of c) EmptyString
  else if c <? 2048 then
    String (chr_of (192 + c / 64))
      (String (chr_of (128 + c mod 64)) EmptyString)
  else if c <? 65536 then
    String (chr_of (224 + c / 4096))
      (String (chr_of (128 + (c / 64) mod 64))
         (String (chr_of (128 + c mod 64)) EmptyString))
  else
    String (chr_of (240 + c / 262144))
      (String (chr_of (128 + (c / 4096) mod 64))
         (String (chr_of (128 + (c / 64) mod 64))
            (String (chr_of (128 + c mod 64)) EmptyString))).

Fixpoint encode_all (l : list Z) : string :=
  match l with
  | [] => EmptyString
  | c :: rest => encode c ++ encode_all rest
  end.

(** The character a lead byte and its continuation bytes stand for. *)
Definition point2 (a b : ascii) : Z :=
  (byte_of a - 192) * 64 + (byte_of b - 128).

Definition point3 (a b c : ascii) : Z :=
  (byte_of a - 224) * 4096 + (byte_of b - 128) * 64 + (byte_of c - 128).

Definition point4 (a b c d : ascii) : Z :=
  (byte_of a - 240) * 262144 + (byte_of b - 128) * 4096
  + (byte_of c - 128) * 64 + (byte_of d - 128).

Definition is_lead2 (a : ascii) : bool :=
  (192 <=? byte_of a) && (byte_of a <? 224).
Definition is_lead3 (a : ascii) : bool :=
  (224 <=? byte_of a) && (byte_of a <? 240).
Definition is_lead4 (a : ascii) : bool :=
  (240 <=? byte_of a) && (byte_of a <? 248).

(** A byte that belongs to no well-formed character is kept as it is. *)
Fixpoint upper (s : string) : string :=
  match s with
  | String a r =>
      if byte_of a <? 128 then String (upper_ascii a) (upper r)
      else
        match r with
        | String b r1 =>
            if is_lead2 a && is_continuation b
            then encode_all (upper_point (point2 a b)) ++ upper r1
            else
              match r1 with
              | String c r2 =>
                  if is_lead3 a && is_continuation b && is_continuation c
                  then encode_all (upper_point (point3 a b c)) ++ upper r2
                  else
                    match r2 with
                    | String d r3 =>
                        if is_lead4 a && is_continuation b
                           && is_continuation c && is_continuation d
                        then encode_all (upper_point (point4 a b c d))
                             ++ upper r3
                        else String a (upper r)
                    | EmptyString => String a (upper r)
                    end
              | EmptyString => String a (upper r)
              end
        | EmptyString => String a (upper r)
        end
  | EmptyString => EmptyString
  end.

(** [len(s)]: the number of characters, that is of bytes that do not
    continue one. *)
Fixpoint characters (s : string) : nat :=
  match s with
  | String a r => ((if is_continuation a then 0 else 1) + characters r)%nat
  | EmptyString => 0%nat
  end.

Definition len (s : string) : Z := Z.of_nat (characters s).

(** [not s] for a string. *)
Definition is_empty (s : string) : bool :=
  match s with EmptyString => true | _ => false end.

(** [a.isalpha()] on ASCII. *)
Definition is_letter (a : ascii) : bool :=
  let n := nat_of_ascii a in
  ((65 <=? n) && (n <=? 90) || (97 <=? n) && (n <=? 122))%nat.

Fixpoint all_letters (s : string) : bool :=
  match s with
  | String a s' => is_letter a && all_letters s'
  | EmptyString => true
  end.

(* ===================================================================== *)
(** * models/currency.py                                                  *)
(* ===================================================================== *)

(** An initialised [Currency] object: the six private attributes, each
    read through the property of the same name. *)
Record Currency := mkCurrency {
  id : Z;
  num_code : Z;
  char_code : string;
  name : string;
  value : float64;
  nominal : Z
}.

Module Setter.
(** Each function is the body of one property setter: it returns what is
    stored in the private attribute, or raises before storing.  An
    attribute that holds an [int] is recorded by its integer, one that
    holds a [str] by its text, the rate by the float made of it. *)

Definition id (value : pyval) : result Z :=
  match as_int value with
  | None => Raise (Exn TypeError "ID должен быть целым числом")
  | Some z =>
      if z <=? 0
      then Raise (Exn ValueError "ID должен быть положительным числом")
      else Return z
  end.

Definition num_code (value : pyval) : result Z :=
  match as_int value with
  | None => Raise (Exn TypeError "Цифровой код должен быть целым числом")
  | Some z =>
      if z <=? 0
      then Raise (Exn ValueError "Цифровой код должен быть положительным числом")
      else Return z
  end.

Definition char_code (value : pyval) : result string :=
  match as_str value with
  | None => Raise (Exn TypeError "Символьный код должен быть строкой")
  | Some s =>
      if is_empty (strip s)
      then Raise (Exn ValueError "Символьный код не может быть пустым")
      else if negb (len (strip s) =? 3)
      then Raise (Exn ValueError "Символьный код должен состоять из 3 символов")
      else Return (upper (strip s))
  end.

Definition name (value : pyval) : result string :=
  match as_str value with
  | None => Raise (Exn TypeError "Название должно быть строкой")
  | Some s =>
      if is_empty (strip s)
      then Raise (Exn ValueError "Название не может быть пустым")
      else Return (strip s)
  end.

Definition value (value : pyval) : result float64 :=
  if negb (is_int_or_float value)
  then Raise (Exn TypeError "Курс должен быть числом")
  else if le_zero value
  then Raise (Exn ValueError "Курс должен быть положительным числом")
  else to_float value.

Definition nominal (value : pyval) : result Z :=
  match as_int value with
  | None => Raise (Exn TypeError "Номинал должен быть целым числом")
  | Some z =>
      if z <=? 0
      then Raise (Exn ValueError "Номинал должен быть положительным числом")
      else Return z
  end.
End Setter.

(** Assignment through a property: the attribute changes only when the
    setter returns. *)
Definition set_id (c : Currency) (v : pyval) : result Currency :=
  let* x := Setter.id v in
  Return (mkCurrency x (num_code c) (char_code c) (name c) (value c) (nominal c)).

Definition set_num_code (c : Currency) (v : pyval) : result Currency :=
  let* x := Setter.num_code v in
  Return (mkCurrency (id c) x (char_code c) (name c) (value c) (nominal c)).

Definition set_char_code (c : Currency) (v : pyval) : result Currency :=
  let* x := Setter.char_code v in
  Return (mkCurrency (id c) (num_code c) x (name c) (value c) (nominal c)).

Definition set_name (c : Currency) (v : pyval) : result Currency :=
  let* x := Setter.name v in
  Return (mkCurrency (id c) (num_code c) (char_code c) x (value c) (nominal c)).

Definition set_value (c : Currency) (v : pyval) : result Currency :=
  let* x := Setter.value v in
  Return (mkCurrency (id c) (num_code c) (char_code c) (name c) x (nominal c)).

Definition set_nominal (c : Currency) (v : pyval) : result Currency :=
  let* x := Setter.nominal v in
  Return (mkCurrency (id c) (num_code c) (char_code c) (name c) (value c) x).

(** [Currency.__init__]: the six setters in source order; the first one
    that raises ends the construction. *)
Definition init (currency_id num_code char_code name value nominal : pyval)
    : result Currency :=
  let* i := Setter.id currency_id in
  let* n := Setter.num_code num_code in
  let* c := Setter.char_code char_code in
  let* s := Setter.name name in
  let* v := Setter.value value in
  let* m := Setter.nominal nominal in
  Return (mkCurrency i n c s v m).

(** [get_value_per_unit]: [self.value / self.nominal], a float divided by
    an int.  CPython converts the divisor to a float, which can raise
    [OverflowError], and raises [ZeroDivisionError] when it is zero. *)
Definition get_value_per_unit (c : Currency) : result float64 :=
  let* d := float_of_int (nominal c) in
  match d with
  | S754_zero _ => Raise (Exn ZeroDivisionError "float division by zero")
  | _ => Return (f_div (value c) d)
  end.

(* ===================================================================== *)
(** * utils/currencies_api.py                                             *)
(* ===================================================================== *)

(** ** Log handles

    A handle is told apart by the attributes [hasattr] finds on it.  What
    the program does to a handle is the sequence of calls it makes on it;
    that sequence is the log.  [Write] carries the whole text passed to
    [handle.write], level prefix and line end included. *)
Record handle := mkHandle { has_info : bool; has_error : bool; has_write : bool }.

Inductive call :=
| Info (msg : string)
| Error (msg : string)
| Write (text : string).

Inductive level := INFO | ERROR.

Definition nl : string := String (ascii_of_nat 10) EmptyString.

(** [text.startswith(p)] *)
Fixpoint startswith (p text : string) : bool :=
  match p with
  | EmptyString => true
  | String a p' =>
      match text with
      | String b text' => Ascii.eqb a b && startswith p' text'
      | EmptyString => false
      end
  end.

(** The level of a record.  A [Write] is read back from the prefix the
    wrapper puts in front of the message. *)
Definition level_of (c : call) : option level :=
  match c with
  | Info _ => Some INFO
  | Error _ => Some ERROR
  | Write text =>
      if startswith "INFO: " text then Some INFO
      else if startswith "ERROR: " text then Some ERROR
      else None
  end.

(** A computation that logs: the calls it made, then its outcome. *)
Definition logged (A : Type) : Type := list call * result A.

Definition lret {A} (a : A) : logged A := ([], Return a).
Definition lraise {A} (e : exn) : logged A := ([], Raise e).
Definition emit (c : call) : logged unit := ([c], Return tt).
Definition lift {A} (r : result A) : logged A := ([], r).

Definition lbind {A B} (m : logged A) (k : A -> logged B) : logged B :=
  match m with
  | (t, Return a) => let (t', r) := k a in ((t ++ t')%list, r)
  | (t, Raise e) => (t, Raise e)
  end.

(** [try: m  except Exception as e: h e] *)
Definition lcatch {A} (m : logged A) (h : exn -> logged A) : logged A :=
  match m with
  | (t, Raise e) => let (t', r) := h e in ((t ++ t')%list, r)
  | (t, Return a) => (t, Return a)
  end.

Notation "'do' x '<-' m ';' k" := (lbind m (fun x => k))
  (at level 10, x name, m at level 100, k at level 200).
Notation "m ';;' k" := (lbind m (fun _ => k))
  (at level 100, k at level 200, right associativity).

(** [file_log = create_logger()]: a [logging.Logger], which has [info] and
    [error] and no [write]. *)
Definition file_log : handle := mkHandle true true false.

(** [handle.write(text)] *)
Definition call_write (h : handle) (text : string) : logged unit :=
  if has_write h then emit (Write text)
  else lraise (Exn AttributeError "write").

(** The two-way choice the wrapper makes for every record. *)
Definition log_info (h : handle) (msg : string) : logged unit :=
  if has_info h then emit (Info msg)
  else call_write h ("INFO: " ++ msg ++ nl).

Definition log_error (h : handle) (msg : string) : logged unit :=
  if has_error h then emit (Error msg)
  else call_write h ("ERROR: " ++ msg ++ nl).

(** ** Python dictionaries and containers read by [get_currencies] *)

(** [key in container] for a string [key]. *)
Definition contains (container : pyval) (key : string) : result bool :=
  match container with
  | PDict d => Return (bool_decide (is_Some (d !! key)))
  | PList l =>
      Return (existsb (fun x => match x with
                                | PStr s => String.eqb s key
                                | _ => false
                                end) l)
  | PStr s => Return (match String.index 0 key s with
                      | Some _ => true
                      | None => false
                      end)
  | _ => Raise (Exn TypeError "argument is not iterable")
  end.

(** [container[key]] for a string [key]. *)
Definition getitem (container : pyval) (key : string) : result pyval :=
  match container with
  | PDict d =>
      match d !! key with
      | Some v => Return v
      | None => Raise (Exn KeyError key)
      end
  | PList _ => Raise (Exn TypeError "list indices must be integers or slices, not str")
  | PStr _ => Raise (Exn TypeError "string indices must be integers")
  | _ => Raise (Exn TypeError "object is not subscriptable")
  end.

(** Text produced by string formatting is left to the interpreter: the
    [repr] of a list of codes, the [repr] of the argument tuple of a call of
    [get_currencies], the [repr] of a rate dictionary, and [str(e)] of an
    exception. *)
Class Formatting := {
  repr_codes : list string -> string;
  repr_call_args : list string -> string;
  repr_rates : gmap string pyval -> string;
  str_exn : exn -> string
}.

Section Pipeline.
Context `{Formatting}.

(** ** The decorator [logger] *)
Section Logger.
Context {A R : Type}.
Variable func_name : string.          (* [func.__name__] *)
Variable repr_args : A -> string.     (* the text of [{args}] *)
Variable str_result : R -> string.    (* the text of [{result}] *)

Definition start_msg (args : A) : string :=
  "Старт " ++ func_name ++ ", args=" ++ repr_args args.
Definition done_msg (result : R) : string :=
  "Завершение " ++ func_name ++ ", результат=" ++ str_result result.
Definition error_msg (e : exn) : string :=
  class_name (exn_class e) ++ ": " ++ str_exn e.

(** The closure [inner] built by [logger(func, handle=handle)]. *)
Definition inner (func : A -> logged R) (handle : option handle)
    (args : A) : logged R :=
  match handle with
  | Some h =>
      lcatch
        (log_info h (start_msg args) ;;
         do result <- func args ;
         log_info h (done_msg result) ;;
         lret result)
        (fun e => log_error h (error_msg e) ;; lraise e)
  | None => func args
  end.

(** [logger(func, handle=...)], and [logger(handle=...)] used as a
    decorator factory ([func is None]). *)
Definition logger (func : option (A -> logged R)) (handle : option handle)
    : (A -> logged R) + ((A -> logged R) -> A -> logged R) :=
  match func with
  | None => inr (fun f => inner f handle)
  | Some f => inl (inner f handle)
  end.

(** [@logger(handle=h)] applied to a function. *)
Definition decorate (handle : option handle) (func : A -> logged R)
    : A -> logged R :=
  match logger None handle with
  | inr deco => deco func
  | inl f => f
  end.
End Logger.

(** ** [get_currencies] *)

(** The network step [requests.get(url)], [raise_for_status()],
    [response.json()] is the environment: [response] is what it produced,
    a parsed document or the exception it raised.  [reading_log], which
    prints the log file to the console, leaves no record on the handle. *)

Section Fetch.
Variable response : result pyval.

(** The body of the [for] loop, from the code at hand to the end of the
    list; [currencies] is the dictionary built so far. *)
Fixpoint collect (data : pyval) (currency_codes : list string)
    (currencies : gmap string pyval) : logged (gmap string pyval) :=
  match currency_codes with
  | [] => lret currencies
  | code :: rest =>
      do valute <- lift (getitem data "Valute") ;
      do present <- lift (contains valute code) ;
      if present then
        do entry <- lift (getitem valute code) ;
        do v <- lift (getitem entry "Value") ;
        if negb (is_int_or_float v) then
          emit (Error ("Курс " ++ code ++ " не числовой")) ;;
          lraise (Exn TypeError ("Курс валюты '" ++ code ++ "' имеет неверный тип"))
        else
          collect data rest (<[code := v]> currencies)
      else
        emit (Error ("Валюты '" ++ code ++ "' нет в данных API")) ;;
        lraise (Exn KeyError ("Валюта '" ++ code ++ "' не найдена"))
  end.

(** The [try] block. *)
Definition try_block (currency_codes : list string)
    : logged (gmap string pyval) :=
  do data <- lift response ;
  do has_valute <- lift (contains data "Valute") ;
  do currencies <-
    (if has_valute then collect data currency_codes ∅
     else
       emit (Error "Ключ 'Valute' отсутствует в данных API") ;;
       lraise (Exn KeyError "Нет ключа 'Valute' в данных API")) ;
  emit (Info ("Успешное завершение работы функции get_currencies. Результат: currencies = "
              ++ repr_rates currencies)) ;;
  lret currencies.

(** The four [except] clauses: the first whose class matches logs its
    own record; every one of them re-raises. *)
Definition except_clauses (e : exn) : logged (gmap string pyval) :=
  emit (Error
          ((if is_ValueError (exn_class e) then "Некорректный JSON: "
            else if is_ConnectionError (exn_class e)
            then "Ошибка сети, API недоступен: "
            else if is_RequestException (exn_class e)
            then "Ошибка при запросе API: "
            else "Упали с исключением: ") ++ str_exn e)) ;;
  lraise e.

(** The function as written, before decoration: in Python,
    [get_currencies.__wrapped__]. *)
Definition get_currencies__wrapped__ (currency_codes : list string)
    : logged (gmap string pyval) :=
  emit (Info ("Начало работы функции get_currencies. Аргументы: currency_codes = "
              ++ repr_codes currency_codes)) ;;
  lcatch (try_block currency_codes) except_clauses.

(** [@logger(handle=file_log) def get_currencies(...)] *)
Definition get_currencies : list string -> logged (gmap string pyval) :=
  decorate "get_currencies" repr_call_args repr_rates (Some file_log)
    get_currencies__wrapped__.
End Fetch.

(* =================================================================== *)
(** * myapp.py                                                          *)
(* =================================================================== *)

(** One entry of the list handed to the template: the dictionary with
    the keys [id], [num_code], [char_code], [name], [value], [nominal],
    [value_per_unit] and [change]. *)
Record row := mkRow {
  row_id : Z;
  row_num_code : Z;
  row_char_code : string;
  row_name : string;
  row_value : float64;
  row_nominal : Z;
  row_value_per_unit : float64;
  row_change : pyval
}.

(** The template context. *)
Record context := mkContext {
  currencies : list row;
  update_time : string;
  request_path : string
}.

Definition static_marker : string := " (статические данные)".

Section Handler.
(** The name [get_currencies] as the handler sees it, and the text of
    [datetime.now().strftime(...)]. *)
Variable fetch : list string -> logged (gmap string pyval).
Variable now : string.

(** The dictionary literal appended for a currency: its items are
    evaluated in order, [get_value_per_unit()] being the only one that
    can raise. *)
Definition make_row (currency : Currency) (change : pyval) : result row :=
  let* per_unit := get_value_per_unit currency in
  Return (mkRow (id currency) (num_code currency) (char_code currency)
            (name currency) (value currency) (nominal currency)
            per_unit change).

(** One pass of the loop of the [try] block: the object after the pass
    and the entry appended, or the exception raised. *)
Definition refresh_one (api_currencies : gmap string pyval)
    (currency : Currency) : Currency * result row :=
  match api_currencies !! char_code currency with
  | Some fetched =>
      let old_value := value currency in
      match set_value currency fetched with
      | Raise e => (currency, Raise e)
      | Return currency' =>
          let change :=
            if truthy old_value
            then PFloat (f_sub (value currency') old_value)
            else PInt 0 in
          (currency', make_row currency' change)
      end
  | None => (currency, make_row currency (PInt 0))
  end.

(** The loop of the [try] block over [self._currencies]: objects
    visited before an exception keep what was assigned to them. *)
Fixpoint refresh_all (api_currencies : gmap string pyval)
    (store : list Currency) : list Currency * result (list row) :=
  match store with
  | [] => ([], Return [])
  | currency :: rest =>
      match refresh_one api_currencies currency with
      | (currency', Raise e) => (currency' :: rest, Raise e)
      | (currency', Return r) =>
          let (rest', rows) := refresh_all api_currencies rest in
          (currency' :: rest', let* rs := rows in Return (r :: rs))
      end
  end.

(** The loop of the [except] block. *)
Fixpoint static_rows (store : list Currency) : result (list row) :=
  match store with
  | [] => Return []
  | currency :: rest =>
      let* r := make_row currency (PInt 0) in
      let* rs := static_rows rest in
      Return (r :: rs)
  end.

(** [CurrencyTrackerHandler._handle_currencies], on the class attribute
    [_currencies] held in [store].  The result is the log written, the
    objects afterwards, and the context rendered and sent, or the
    exception that leaves the method.  The template engine and the
    socket are outside the embedding; the console [print] of the
    [except] block leaves no trace here. *)
Definition _handle_currencies (store : list Currency)
    : list call * list Currency * result context :=
  let currency_codes := map char_code store in
  let (log, fetched) := fetch currency_codes in
  let (store', try_body) :=
    match fetched with
    | Return api_currencies =>
        let (s, rows) := refresh_all api_currencies store in
        (s, let* currencies_with_api_data := rows in
            Return (mkContext currencies_with_api_data now "/currencies"))
    | Raise e => (store, Raise e)
    end in
  match try_body with
  | Return ctx => (log, store', Return ctx)
  | Raise e =>
      (log, store',
       let* currencies_with_data := static_rows store' in
       Return (mkContext currencies_with_data (now ++ static_marker)
                 "/currencies"))
  end.

(** ** The outcome of a refresh, read off the context

    The handler marks staleness once for the whole table, by the
    suffix of [update_time]. *)
Definition stale (ctx : context) : bool :=
  String.eqb (update_time ctx) (now ++ static_marker).

Record entry := mkEntry {
  e_code : string;
  e_rate : float64;
  e_delta : pyval;
  e_stale : bool
}.

Definition outcome (ctx : context) : list entry :=
  map (fun r => mkEntry (row_char_code r) (row_value r) (row_change r)
                  (stale ctx))
      (currencies ctx).
End Handler.

End Pipeline.

(** The class attribute [_currencies]: six constructor calls, evaluated
    when the class body runs. *)
Definition construct_currencies : result (list Currency) :=
  let* c1 := init (PInt 1) (PInt 840) (PStr "USD") (PStr "Доллар США")
               (PFloat (f_dec 9050 2)) (PInt 1) in
  let* c2 := init (PInt 2) (PInt 978) (PStr "EUR") (PStr "Евро")
               (PFloat (f_dec 9875 2)) (PInt 1) in
  let* c3 := init (PInt 3) (PInt 826) (PStr "GBP") (PStr "Фунт стерлингов")
               (PFloat (f_dec 11520 2)) (PInt 1) in
  let* c4 := init (PInt 4) (PInt 392) (PStr "JPY") (PStr "Японская йена")
               (PFloat (f_dec 60 2)) (PInt 100) in
  let* c5 := init (PInt 5) (PInt 756) (PStr "CHF") (PStr "Швейцарский франк")
               (PFloat (f_dec 10230 2)) (PInt 1) in
  let* c6 := init (PInt 6) (PInt 156) (PStr "CNY") (PStr "Китайский юань")
               (PFloat (f_dec 1250 2)) (PInt 1) in
  Return [c1; c2; c3; c4; c5; c6].

Definition _currencies : list Currency :=
  match construct_currencies with
  | Return l => l
  | Raise _ => []
  end.

(** A plain instance of the formatting interface, for evaluating the
    pipeline on concrete inputs. *)
Definition plain_formatting : Formatting := {|
  repr_codes := fun codes => String.concat ", " codes;
  repr_call_args := fun codes => String.concat ", " codes;
  repr_rates := fun _ => "{...}";
  str_exn := exn_arg
|}.

(** The feed client the handler imports, with a given outcome of the
    network step. *)
Definition imported_get_currencies (response : result pyval)
    : list string -> logged (gmap string pyval) :=
  @get_currencies plain_formatting response.

(** A feed document quoting the given values: each code is mapped to an
    object with the single field ["Value"]. *)
Definition feed_document (quotes : list (string * pyval)) : pyval :=
  PDict {[ "Valute" :=
             PDict (list_to_map
                      (map (fun q => (fst q, PDict {[ "Value" := snd q ]}))
                         quotes)) ]}.

(* ===================================================================== *)
(** * Vocabulary of the specification                                     *)
(* ===================================================================== *)

Definition result_of {A} (m : logged A) : result A := snd m.
Definition log_of {A} (m : logged A) : list call := fst m.

(** ** Rate records *)

(** A float with the sign of a positive number: finite and above zero, or
    +inf.  And one that may also be +0. *)
Definition positive_float (f : float64) : bool :=
  match f with
  | S754_finite false _ _ | S754_infinity false => true
  | _ => false
  end.

Definition nonnegative_float (f : float64) : bool :=
  match f with
  | S754_zero false | S754_finite false _ _ | S754_infinity false => true
  | _ => false
  end.

Definition is_nan (v : pyval) : bool :=
  match v with
  | PFloat S754_nan => true
  | _ => false
  end.

(** The invariant of the data model: [rate > 0] and [nominal > 0]. *)
Definition valid (c : Currency) : Prop :=
  f_ltb f_zero (value c) = true /\ 0 < nominal c.

(** A code of exactly three letters. *)
Definition three_letters (s : string) : bool :=
  (len s =? 3) && all_letters s.

(** ** Instrumentation *)

(** A sink accepts messages of both levels: it has [info] or [write], and
    it has [error] or [write]. *)
Definition is_sink (h : handle) : bool :=
  (has_info h || has_write h) && (has_error h || has_write h).

(** The record a sink receives for a message of a given level. *)
Definition info_record (h : handle) (msg : string) : call :=
  if has_info h then Info msg else Write ("INFO: " ++ msg ++ nl).

Definition error_record (h : handle) (msg : string) : call :=
  if has_error h then Error msg else Write ("ERROR: " ++ msg ++ nl).

(** Number of records of a level in a log. *)
Definition has_level (l : level) (c : call) : bool :=
  match level_of c, l with
  | Some INFO, INFO | Some ERROR, ERROR => true
  | _, _ => false
  end.

Fixpoint count_level (l : level) (log : list call) : nat :=
  match log with
  | [] => 0
  | c :: rest => ((if has_level l c then 1 else 0) + count_level l rest)%nat
  end.

(** ** Feed documents *)

(** The ["Value"] field of the entry a ["Valute"] mapping holds for a
    code. *)
Definition feed_value (valute : gmap string pyval) (code : string)
    : option pyval :=
  match valute !! code with
  | Some (PDict entry) => entry !! "Value"
  | _ => None
  end.

(** The code is present with a numeric ["Value"]. *)
Definition quoted (valute : gmap string pyval) (code : string) : bool :=
  match feed_value valute code with
  | Some v => is_int_or_float v
  | None => false
  end.


(** ** Refresh *)

(** The per-unit rate of a record can be computed. *)
Definition quotable (c : Currency) : bool := returns (get_value_per_unit c).

Definition unit_rate (c : Currency) : float64 :=
  match get_value_per_unit c with
  | Return u => u
  | Raise _ => f_nan
  end.

(** A value of a FetchResult: a positive number that is a float or
    converts to one. *)
Definition positive_rate (v : pyval) : bool :=
  gt_zero v && returns (to_float v).

(** The record with another rate and nothing else changed. *)
Definition with_rate (c : Currency) (rate : float64) : Currency :=
  mkCurrency (id c) (num_code c) (char_code c) (name c) rate (nominal c).



(** The table row of a record. *)
Definition row_of (c : Currency) (change : pyval) : row :=
  mkRow (id c) (num_code c) (char_code c) (name c) (value c) (nominal c)
    (unit_rate c) change.

(** Two records agree on everything but the rate. *)
Definition same_identity (c c' : Currency) : Prop :=
  id c' = id c /\ num_code c' = num_code c /\ char_code c' = char_code c
  /\ name c' = name c /\ nominal c' = nominal c.

(** The records after a call of [_handle_currencies]. *)
Definition store_after (x : list call * list Currency * result context)
    : list Currency := snd (fst x).

(** The entry of a record that kept its rate, in a fallback table. *)
Definition kept (c : Currency) : entry :=
  mkEntry (char_code c) (value c) (PInt 0) true.


(* ===================================================================== *)
(** * models/currency.py: the text of a currency                          *)
(* ===================================================================== *)

(** [Currency.__str__] *)
Definition __str__ (c : Currency) : string :=
  name c ++ " (" ++ char_code c ++ ")".

(* ===================================================================== *)
(** * models/user.py                                                      *)
(* ===================================================================== *)

Module User.
(** An initialised [User] object. *)
Record t := mk {
  id : Z;
  name : string
}.

Module Setter.
Definition id (value : pyval) : result Z :=
  match as_int value with
  | None => Raise (Exn TypeError "ID должен быть целым числом")
  | Some z =>
      if z <=? 0
      then Raise (Exn ValueError "ID должен быть положительным числом")
      else Return z
  end.

Definition name (value : pyval) : result string :=
  match as_str value with
  | None => Raise (Exn TypeError "Имя должно быть строкой")
  | Some s =>
      if is_empty (strip s)
      then Raise (Exn ValueError "Имя не может быть пустым")
      else Return (strip s)
  end.
End Setter.

Definition set_id (u : t) (v : pyval) : result t :=
  let* x := Setter.id v in
  Return (mk x (name u)).

Definition set_name (u : t) (v : pyval) : result t :=
  let* x := Setter.name v in
  Return (mk (id u) x).

(** [User.__init__]: the two setters in source order. *)
Definition init (user_id name : pyval) : result t :=
  let* i := Setter.id user_id in
  let* n := Setter.name name in
  Return (mk i n).
End User.

(* ===================================================================== *)
(** * models/user_currency.py                                             *)
(* ===================================================================== *)

Module UserCurrency.
(** An initialised [UserCurrency] object: a subscription of a user to a
    currency. *)
Record t := mk {
  id : Z;
  user_id : Z;
  currency_id : Z
}.

Module Setter.
Definition id (value : pyval) : result Z :=
  match as_int value with
  | None => Raise (Exn TypeError "ID должен быть целым числом")
  | Some z =>
      if z <=? 0
      then Raise (Exn ValueError "ID должен быть положительным числом")
      else Return z
  end.

Definition user_id (value : pyval) : result Z :=
  match as_int value with
  | None => Raise (Exn TypeError "ID пользователя должен быть целым числом")
  | Some z =>
      if z <=? 0
      then Raise (Exn ValueError "ID пользователя должен быть положительным числом")
      else Return z
  end.

Definition currency_id (value : pyval) : result Z :=
  match as_int value with
  | None => Raise (Exn TypeError "ID валюты должен быть целым числом")
  | Some z =>
      if z <=? 0
      then Raise (Exn ValueError "ID валюты должен быть положительным числом")
      else Return z
  end.
End Setter.

Definition set_id (l : t) (v : pyval) : result t :=
  let* x := Setter.id v in
  Return (mk x (user_id l) (currency_id l)).

Definition set_user_id (l : t) (v : pyval) : result t :=
  let* x := Setter.user_id v in
  Return (mk (id l) x (currency_id l)).

Definition set_currency_id (l : t) (v : pyval) : result t :=
  let* x := Setter.currency_id v in
  Return (mk (id l) (user_id l) x).

(** [UserCurrency.__init__]: the three setters in source order. *)
Definition init (link_id user_id currency_id : pyval) : result t :=
  let* i := Setter.id link_id in
  let* u := Setter.user_id user_id in
  let* c := Setter.currency_id currency_id in
  Return (mk i u c).
End UserCurrency.

(* ===================================================================== *)
(** * models/author.py                                                    *)
(* ===================================================================== *)

Module Author.
(** An initialised [Author] object. *)
Record t := mk {
  name : string;
  group : string
}.

Module Setter.
Definition name (value : pyval) : result string :=
  match as_str value with
  | None => Raise (Exn TypeError "Имя должно быть строкой")
  | Some s =>
      if is_empty (strip s)
      then Raise (Exn ValueError "Имя не может быть пустым")
      else Return (strip s)
  end.

Definition group (value : pyval) : result string :=
  match as_str value with
  | None => Raise (Exn TypeError "Группа должна быть строкой")
  | Some s =>
      if is_empty (strip s)
      then Raise (Exn ValueError "Группа не может быть пустой")
      else Return (strip s)
  end.
End Setter.

Definition set_name (a : t) (v : pyval) : result t :=
  let* x := Setter.name v in
  Return (mk x (group a)).

Definition set_group (a : t) (v : pyval) : result t :=
  let* x := Setter.group v in
  Return (mk (name a) x).

(** [Author.__init__]: the two setters in source order. *)
Definition init (name group : pyval) : result t :=
  let* n := Setter.name name in
  let* g := Setter.group group in
  Return (mk n g).
End Author.

(* ===================================================================== *)
(** * models/app.py                                                       *)
(* ===================================================================== *)

Module App.
(** What is passed for [author]: an [Author] object, or a value that is
    none. *)
Inductive arg :=
| Object (a : Author.t)
| Value (v : pyval).

(** An initialised [App] object.  The attribute [_author] is a reference
    to the [Author] object passed in; it is recorded by the state of that
    object, which nothing in these sources changes after the [App] is
    built. *)
Record t := mk {
  name : string;
  version : string;
  author : Author.t
}.

Module Setter.
Definition name (value : pyval) : result string :=
  match as_str value with
  | None => Raise (Exn TypeError "Название приложения должно быть строкой")
  | Some s =>
      if is_empty (strip s)
      then Raise (Exn ValueError "Название приложения не может быть пустым")
      else Return (strip s)
  end.

Definition version (value : pyval) : result string :=
  match as_str value with
  | None => Raise (Exn TypeError "Версия должна быть строкой")
  | Some s =>
      if is_empty (strip s)
      then Raise (Exn ValueError "Версия не может быть пустой")
      else Return (strip s)
  end.

(** [isinstance(value, Author)] *)
Definition author (value : arg) : result Author.t :=
  match value with
  | Object a => Return a
  | Value _ => Raise (Exn TypeError "Автор должен быть объектом класса Author")
  end.
End Setter.

Definition set_name (a : t) (v : pyval) : result t :=
  let* x := Setter.name v in
  Return (mk x (version a) (author a)).

Definition set_version (a : t) (v : pyval) : result t :=
  let* x := Setter.version v in
  Return (mk (name a) x (author a)).

Definition set_author (a : t) (v : arg) : result t :=
  let* x := Setter.author v in
  Return (mk (name a) (version a) x).

(** [App.__init__]: the three setters in source order. *)
Definition init (name version : pyval) (author : arg) : result t :=
  let* n := Setter.name name in
  let* v := Setter.version version in
  let* a := Setter.author author in
  Return (mk n v a).
End App.

(* ===================================================================== *)
(** * myapp.py: the other routes                                          *)
(* ===================================================================== *)

(** The class attributes [_users] and [_user_currencies]: constructor
    calls evaluated when the class body runs. *)
Definition construct_users : result (list User.t) :=
  let* u1 := User.init (PInt 1) (PStr "Иван Иванов") in
  let* u2 := User.init (PInt 2) (PStr "Мария Петрова") in
  let* u3 := User.init (PInt 3) (PStr "Алексей Сидоров") in
  let* u4 := User.init (PInt 4) (PStr "Елена Кузнецова") in
  Return [u1; u2; u3; u4].

Definition _users : list User.t :=
  match construct_users with
  | Return l => l
  | Raise _ => []
  end.

Definition construct_user_currencies : result (list UserCurrency.t) :=
  let* l1 := UserCurrency.init (PInt 1) (PInt 1) (PInt 1) in
  let* l2 := UserCurrency.init (PInt 2) (PInt 1) (PInt 2) in
  let* l3 := UserCurrency.init (PInt 3) (PInt 2) (PInt 2) in
  let* l4 := UserCurrency.init (PInt 4) (PInt 2) (PInt 3) in
  let* l5 := UserCurrency.init (PInt 5) (PInt 3) (PInt 4) in
  let* l6 := UserCurrency.init (PInt 6) (PInt 4) (PInt 1) in
  let* l7 := UserCurrency.init (PInt 7) (PInt 4) (PInt 2) in
  let* l8 := UserCurrency.init (PInt 8) (PInt 4) (PInt 5) in
  Return [l1; l2; l3; l4; l5; l6; l7; l8].

Definition _user_currencies : list UserCurrency.t :=
  match construct_user_currencies with
  | Return l => l
  | Raise _ => []
  end.

(** ** Strings of the request line *)

(** [s[n:]] *)
Fixpoint slice_from (n : nat) (s : string) : string :=
  match n, s with
  | O, _ => s
  | S n', String _ s' => slice_from n' s'
  | S _, EmptyString => EmptyString
  end.

(** [sub in s] *)
Fixpoint str_contains (sub s : string) : bool :=
  startswith sub s
  || match s with
     | String _ s' => str_contains sub s'
     | EmptyString => false
     end.

(** [s.endswith(suffix)] *)
Fixpoint endswith (suffix s : string) : bool :=
  String.eqb s suffix
  || match s with
     | String _ s' => endswith suffix s'
     | EmptyString => false
     end.

(** ** What a route sends

    A page handed to [_render_template] with its context and sent by
    [_send_response], the bytes of a static file, or the page of
    [_send_error].  The template engine and the socket are outside the
    embedding. *)
Record index_context := mkIndexContext {
  app_name : string;
  app_version : string;
  author_name : string;
  author_group : string;
  index_request_path : string
}.

Record user_entry := mkUserEntry {
  entry_id : Z;
  entry_name : string;
  subscriptions_count : Z
}.

Record users_context := mkUsersContext {
  users : list user_entry;
  users_request_path : string
}.

(** In the context of the detail page a subscription is a [Currency]
    object carrying the attribute [value_per_unit] the handler has just
    put on it.  The attribute is written on the shared object; no other
    method reads it, and the handler writes it anew before each use. *)
Record detail_context := mkDetailContext {
  user : User.t;
  subscriptions : list (Currency * float64);
  currencies_count : Z;
  detail_request_path : string
}.

Inductive page :=
| IndexPage (ctx : index_context)
| UsersPage (ctx : users_context)
| UserDetailPage (ctx : detail_context)
| CurrenciesPage (ctx : context)
| AuthorPage (author_request_path : string).

Inductive reply :=
| Html (template : string) (p : page)
| File (mime_type : string) (content : string)
| ErrorPage (code : Z) (message : string).

(** The status line of a reply. *)
Definition status (r : reply) : Z :=
  match r with
  | Html _ _ | File _ _ => 200
  | ErrorPage code _ => code
  end.

(** [_send_error(message, code)]; a call without [code] passes 404. *)
Definition _send_error (message : string) (code : Z) : reply :=
  ErrorPage code message.

(** A call of [os.path.exists] or of [open(..., 'rb')]. *)
Inductive access :=
| Exists (path : string)
| Open (path : string).

Definition accessed (a : access) : string :=
  match a with
  | Exists p | Open p => p
  end.

(** ** [_handle_index] *)
Definition _handle_index : result index_context :=
  let* author := Author.init (PStr "Синельников Никита") (PStr "P3122") in
  let* app := App.init (PStr "Currency Tracker") (PStr "1.0.0")
                (App.Object author) in
  Return (mkIndexContext (App.name app) (App.version app)
            (Author.name (App.author app)) (Author.group (App.author app))
            "/").

(** ** [_handle_users] *)

(** [sum(1 for uc in self._user_currencies if uc.user_id == user.id)] *)
Definition subscription_count (links : list UserCurrency.t) (user : User.t)
    : Z :=
  fold_left (fun acc uc =>
               if UserCurrency.user_id uc =? User.id user
               then acc + 1 else acc)
    links 0.

Definition _handle_users (users : list User.t)
    (links : list UserCurrency.t) : users_context :=
  mkUsersContext
    (map (fun user => mkUserEntry (User.id user) (User.name user)
                        (subscription_count links user))
       users)
    "/users".

(** ** [_handle_author] *)
Definition _handle_author : page := AuthorPage "/author".

(** ** [_handle_user_detail] *)

(** The loop that puts [value_per_unit] on each subscription. *)
Fixpoint with_value_per_unit (subscriptions : list Currency)
    : result (list (Currency * float64)) :=
  match subscriptions with
  | [] => Return []
  | currency :: rest =>
      let* per_unit := get_value_per_unit currency in
      let* others := with_value_per_unit rest in
      Return ((currency, per_unit) :: others)
  end.

(** [[uc.currency_id for uc in self._user_currencies
      if uc.user_id == user_id]] *)
Definition currency_ids_of (links : list UserCurrency.t) (user_id : Z)
    : list Z :=
  map UserCurrency.currency_id
    (List.filter (fun uc => UserCurrency.user_id uc =? user_id) links).

(** [[c for c in self._currencies if c.id in currency_ids]] *)
Definition subscriptions_of (currencies : list Currency)
    (currency_ids : list Z) : list Currency :=
  List.filter (fun c => existsb (Z.eqb (id c)) currency_ids) currencies.

Section Routes.
Context `{Formatting}.

(** The builtin [int] on a string ([None] where it raises [ValueError])
    and the builtin [str] on an integer are left to the interpreter. *)
Variable int : string -> option Z.
Variable str : Z -> string.

(** [user_id] is [params.get("id", [None])[0]]: the first value of the
    query parameter [id], as [urllib.parse.parse_qs] gives it, or
    [None]. *)
Definition _handle_user_detail (user_id : option string)
    (users : list User.t) (links : list UserCurrency.t)
    (currencies : list Currency) : reply :=
  match user_id with
  | None => _send_error "Не указан ID пользователя" 404
  | Some text =>
      if is_empty text
      then _send_error "Не указан ID пользователя" 404
      else
        let try_block : result reply :=
          let* user_id :=
            match int text with
            | Some z => Return z
            | None => Raise (Exn ValueError "invalid literal for int() with base 10")
            end in
          match List.find (fun u => User.id u =? user_id) users with
          | None =>
              Return (_send_error ("Пользователь с ID " ++ str user_id
                                     ++ " не найден") 404)
          | Some user =>
              let currency_ids := currency_ids_of links user_id in
              let subscriptions := subscriptions_of currencies currency_ids in
              let* subscriptions := with_value_per_unit subscriptions in
              Return (Html "user_detail.html"
                        (UserDetailPage
                           (mkDetailContext user subscriptions
                              (Z.of_nat (length currencies)) "/users")))
          end in
        match try_block with
        | Return r => r
        | Raise e =>
            if is_ValueError (exn_class e)
            then _send_error "Некорректный ID пользователя" 404
            else _send_error ("Ошибка при обработке запроса: " ++ str_exn e) 404
        end
  end.

(** ** [_handle_static_file]

    The file system is reached through [os.path.exists] and [open]; the
    calls made are collected in a trace. *)
Variable path_exists : string -> bool.
Variable read_bytes : string -> result string.

(** The chain of [endswith] tests. *)
Definition mime_type_of (full_path : string) : string :=
  if endswith ".css" full_path then "text/css"
  else if endswith ".js" full_path then "application/javascript"
  else if endswith ".png" full_path then "image/png"
  else if endswith ".jpg" full_path || endswith ".jpeg" full_path
  then "image/jpeg"
  else if endswith ".gif" full_path then "image/gif"
  else if endswith ".ico" full_path then "image/x-icon"
  else if endswith ".svg" full_path then "image/svg+xml"
  else "application/octet-stream".

(** [path] is [self.path], the request target as received, query string
    included; [http.server] decodes the request line as ISO-8859-1, one
    character per byte. *)
Definition _handle_static_file (path : string) : list access * reply :=
  let file_path := slice_from 8 path in
  if str_contains ".." file_path || startswith "/" file_path
  then ([], _send_error "Доступ запрещен" 403)
  else
    let full_path := "static/" ++ file_path in
    if negb (path_exists full_path)
    then ([Exists full_path], _send_error "Файл не найден" 404)
    else
      let mime_type := mime_type_of full_path in
      match read_bytes full_path with
      | Return content =>
          ([Exists full_path; Open full_path], File mime_type content)
      | Raise e =>
          ([Exists full_path; Open full_path],
           _send_error ("Ошибка при чтении файла: " ++ str_exn e) 500)
      end.

(** ** [do_GET]

    [urlparse_path p] is [urllib.parse.urlparse(p).path], evaluated
    before the [try] statement is entered, so that an exception of
    [urlparse] leaves the method.  [query_id p] is what
    [_get_query_params().get("id", [None])[0]] evaluates to for the
    request target [p].  The result is the log written, the [Currency]
    objects afterwards, the file-system calls made, and the reply sent or
    the exception raised. *)
Variable urlparse_path : string -> result string.
Variable query_id : string -> option string.
Variable fetch : list string -> logged (gmap string pyval).
Variable now : string.
Variable users : list User.t.
Variable links : list UserCurrency.t.

Definition do_GET (self_path : string) (store : list Currency)
    : list call * list Currency * list access * result reply :=
  match urlparse_path self_path with
  | Raise e => ([], store, [], Raise e)
  | Return path =>
      let try_block
          : list call * list Currency * list access * result reply :=
        if startswith "/static/" path then
          let (trace, r) := _handle_static_file self_path in
          ([], store, trace, Return r)
        else if String.eqb path "/" then
          ([], store, [],
           let* ctx := _handle_index in
           Return (Html "index.html" (IndexPage ctx)))
        else if String.eqb path "/users" then
          ([], store, [],
           Return (Html "users.html" (UsersPage (_handle_users users links))))
        else if String.eqb path "/user" then
          ([], store, [],
           Return (_handle_user_detail (query_id self_path) users links store))
        else if String.eqb path "/currencies" then
          let '(log, store', r) := _handle_currencies fetch now store in
          (log, store', [],
           let* ctx := r in
           Return (Html "currencies.html" (CurrenciesPage ctx)))
        else if String.eqb path "/author" then
          ([], store, [], Return (Html "author.html" _handle_author))
        else
          ([], store, [], Return (_send_error "Страница не найдена" 404)) in
      match try_block with
      | (log, store', trace, Return r) => (log, store', trace, Return r)
      | (log, store', trace, Raise e) =>
          (log, store', trace,
           Return (_send_error ("Внутренняя ошибка сервера: " ++ str_exn e)
                     500))
      end
  end.
End Routes.

(** A plain reading of [int] on a string and of [str] on an integer, for
    evaluating the routes on concrete inputs: unsigned decimal digits. *)
Fixpoint digits (s : string) (acc : Z) : option Z :=
  match s with
  | EmptyString => Some acc
  | String a s' =>
      let n := Z.of_nat (nat_of_ascii a) in
      if (48 <=? n) && (n <=? 57)
      then digits s' (10 * acc + (n - 48))
      else None
  end.

Definition plain_int (s : string) : option Z :=
  match s with
  | EmptyString => None
  | _ => digits s 0
  end.

Fixpoint numeral (fuel : nat) (z : Z) (acc : string) : string :=
  match fuel with
  | O => acc
  | S fuel' =>
      let d := String (ascii_of_nat (Z.to_nat (48 + z mod 10))) acc in
      if z / 10 =? 0 then d else numeral fuel' (z / 10) d
  end.

Definition plain_str (z : Z) : string :=
  if z <? 0 then "-" ++ numeral (Z.to_nat (- z)) (- z) ""
  else numeral (S (Z.to_nat z)) z "".

(* ===================================================================== *)
(** * Further vocabulary                                                  *)
(* ===================================================================== *)

(** What the validated setters leave in a [Currency] besides the rate,
    whatever the texts are: positive integers, a stripped name that is not
    empty, and a code that is the upper case of a stripped text of three
    characters.  The upper case of three characters can be longer. *)
Definition constructed (c : Currency) : Prop :=
  0 < id c /\ 0 < num_code c /\ 0 < nominal c
  /\ strip (name c) = name c
  /\ is_empty (name c) = false
  /\ exists t, strip t = t /\ len t = 3 /\ char_code c = upper t.

(** A [Currency] whose code is in normal form: three characters, no white
    space around them, upper case.  The setters leave this for every code
    of ASCII characters. *)
Definition well_formed (c : Currency) : Prop :=
  0 < id c /\ 0 < num_code c /\ 0 < nominal c
  /\ len (char_code c) = 3
  /\ strip (char_code c) = char_code c
  /\ upper (char_code c) = char_code c
  /\ strip (name c) = name c
  /\ is_empty (name c) = false.

(** What one pass of the loop of [get_currencies] does for a code: the
    value it would add, or the exception it would raise. *)
Definition quote_of (data : pyval) (code : string) : result pyval :=
  let* valute := getitem data "Valute" in
  let* present := contains valute code in
  if present then
    let* entry := getitem valute code in
    let* v := getitem entry "Value" in
    if negb (is_int_or_float v)
    then Raise (Exn TypeError ("Курс валюты '" ++ code ++ "' имеет неверный тип"))
    else Return v
  else Raise (Exn KeyError ("Валюта '" ++ code ++ "' не найдена")).

Definition quoted_value (data : pyval) (code : string) : option pyval :=
  match quote_of data code with
  | Return v => Some v
  | Raise _ => None
  end.

(** The text put in front of [str(e)] by the [except] clause that
    handles [e] in [get_currencies]. *)
Definition clause_prefix (e : exn) : string :=
  if is_ValueError (exn_class e) then "Некорректный JSON: "
  else if is_ConnectionError (exn_class e) then "Ошибка сети, API недоступен: "
  else if is_RequestException (exn_class e) then "Ошибка при запросе API: "
  else "Упали с исключением: ".

(** A float that is neither NaN nor an infinity. *)
Definition is_finite (f : float64) : bool :=
  match f with
  | S754_zero _ | S754_finite _ _ _ => true
  | _ => false
  end.

(** The text holds ASCII characters only. *)
Fixpoint ascii_text (s : string) : bool :=
  match s with
  | String a r => (byte_of a <? 128) && ascii_text r
  | EmptyString => true
  end.

(** A row shows a record: its fields, and the per-unit rate computed from
    them. *)
Definition shows (c : Currency) (r : row) : Prop :=
  row_id r = id c /\ row_num_code r = num_code c
  /\ row_char_code r = char_code c /\ row_name r = name c
  /\ row_value r = value c /\ row_nominal r = nominal c
  /\ get_value_per_unit c = Return (row_value_per_unit r).

(** Two rows that differ at most in the change shown. *)
Definition same_but_change (r r' : row) : Prop :=
  row_id r' = row_id r /\ row_num_code r' = row_num_code r
  /\ row_char_code r' = row_char_code r /\ row_name r' = row_name r
  /\ row_value r' = row_value r /\ row_nominal r' = row_nominal r
  /\ row_value_per_unit r' = row_value_per_unit r.

(** A row that reports no movement of the rate: the integer 0 of an
    untouched record, or the float difference of the rate with itself. *)
Definition shows_no_change (r : row) : Prop :=
  row_change r = PInt 0
  \/ row_change r = PFloat (f_sub (row_value r) (row_value r)).

(** A text as the validated setters store it: stripped, and not empty. *)
Definition tidy (s : string) : Prop := strip s = s /\ is_empty s = false.

Definition user_well_formed (u : User.t) : Prop :=
  0 < User.id u /\ tidy (User.name u).

Definition link_well_formed (l : UserCurrency.t) : Prop :=
  0 < UserCurrency.id l /\ 0 < UserCurrency.user_id l
  /\ 0 < UserCurrency.currency_id l.

Definition author_well_formed (a : Author.t) : Prop :=
  tidy (Author.name a) /\ tidy (Author.group a).

Definition app_well_formed (a : App.t) : Prop :=
  tidy (App.name a) /\ tidy (App.version a)
  /\ author_well_formed (App.author a).

(** The sum of a list of integers. *)
Definition total (l : list Z) : Z := fold_right Z.add 0 l.

(** A subscription of a user whose id is among [ids]. *)
Definition of_listed_user (ids : list Z) (l : UserCurrency.t) : bool :=
  existsb (Z.eqb (UserCurrency.user_id l)) ids.

(** The user with id [uid] is subscribed to the currency [c]. *)
Definition subscribed (links : list UserCurrency.t) (uid : Z)
    (c : Currency) : Prop :=
  exists l, l ∈ links /\ UserCurrency.user_id l = uid
            /\ UserCurrency.currency_id l = id c.

(** A text read backwards. *)
Fixpoint reversed (s : string) : string :=
  match s with
  | String a s' => reversed s' ++ String a EmptyString
  | EmptyString => EmptyString
  end.

(* ===================================================================== *)
(** * Properties                                                          *)
(* ===================================================================== *)

(** ** The result monads *)

Lemma result_of_lbind {A B} (m : logged A) (k : A -> logged B) :
  result_of (lbind m k)
  = match result_of m with
    | Return a => result_of (k a)
    | Raise e => Raise e
    end.
Proof.
  destruct m as [t [a|e]]; simpl; [|reflexivity].
  destruct (k a); reflexivity.
Qed.

Lemma result_of_lcatch_reraise {A} (m : logged A) (h : exn -> logged A) :
  (forall e, result_of (h e) = Raise e) ->
  result_of (lcatch m h) = result_of m.
Proof.
  intros Hh. destruct m as [t [a|e]]; simpl; [reflexivity|].
  specialize (Hh e). destruct (h e); assumption.
Qed.

Lemma result_of_lift {A} (r : result A) : result_of (lift r) = r.
Proof. reflexivity. Qed.

(** ** Strings *)


Lemma length_append (a b : string) :
  String.length (a ++ b) = (String.length a + String.length b)%nat.
Proof. induction a as [|c a IH]; simpl; [reflexivity|]. rewrite IH. reflexivity. Qed.

Lemma append_inj_r (s a b : string) : (a ++ s = b ++ s)%string -> a = b.
Proof.
  revert b. induction a as [|c a IH]; intros [|c' b] E; simpl in E.
  - reflexivity.
  - apply (f_equal String.length) in E.
    rewrite !length_append in E. simpl in E. lia.
  - apply (f_equal String.length) in E.
    rewrite !length_append in E. simpl in E. lia.
  - inversion E; subst. f_equal. apply IH. assumption.
Qed.

(** ** Binary64 rounding *)

Section Binary64.
Local Abbreviation prec := 53.
Local Abbreviation emax := 1024.

Lemma shr_1_div2 mrs :
  0 <= shr_m mrs -> shr_m (shr_1 mrs) = Z.div2 (shr_m mrs).
Proof.
  destruct mrs as [m r s]. simpl.
  destruct m as [|[p|p|]|p]; simpl; intros Hm; try reflexivity; lia.
Qed.

Lemma iter_shr_1 k : forall mrs,
  0 <= shr_m mrs ->
  shr_m (SpecFloat.iter_pos shr_1 k mrs) = Z.shiftr (shr_m mrs) (Zpos k).
Proof.
  induction k as [k IH|k IH|]; intros mrs Hm; cbn [SpecFloat.iter_pos].
  - assert (H1 : 0 <= shr_m (shr_1 mrs)).
    { rewrite shr_1_div2, Z.div2_spec by exact Hm. apply Z.shiftr_nonneg. exact Hm. }
    assert (H2 : 0 <= shr_m (SpecFloat.iter_pos shr_1 k (shr_1 mrs))).
    { rewrite IH by exact H1. apply Z.shiftr_nonneg. exact H1. }
    rewrite IH by exact H2. rewrite IH by exact H1.
    rewrite shr_1_div2, Z.div2_spec by exact Hm.
    rewrite !Z.shiftr_shiftr by lia. f_equal. lia.
  - assert (H2 : 0 <= shr_m (SpecFloat.iter_pos shr_1 k mrs)).
    { rewrite IH by exact Hm. apply Z.shiftr_nonneg. exact Hm. }
    rewrite IH by exact H2. rewrite IH by exact Hm.
    rewrite Z.shiftr_shiftr by lia. f_equal. lia.
  - rewrite shr_1_div2, Z.div2_spec by exact Hm. reflexivity.
Qed.

Lemma digits2_pos_le p : 2 ^ (Zpos (digits2_pos p) - 1) <= Zpos p.
Proof.
  induction p as [p IH|p IH|]; cbn [digits2_pos].
  - rewrite Pos2Z.inj_succ. replace (Z.succ (Zpos (digits2_pos p)) - 1)
      with (Z.succ (Zpos (digits2_pos p) - 1)) by lia.
    rewrite Z.pow_succ_r by lia. lia.
  - rewrite Pos2Z.inj_succ. replace (Z.succ (Zpos (digits2_pos p)) - 1)
      with (Z.succ (Zpos (digits2_pos p) - 1)) by lia.
    rewrite Z.pow_succ_r by lia. lia.
  - simpl. lia.
Qed.

Lemma shiftr_pos p k :
  Zpos k < Zpos (digits2_pos p) -> 0 < Z.shiftr (Zpos p) (Zpos k).
Proof.
  intros Hk. rewrite Z.shiftr_div_pow2 by lia.
  apply Z.div_str_pos. split; [apply Z.pow_pos_nonneg; lia|].
  etransitivity; [|apply digits2_pos_le].
  apply Z.pow_le_mono_r; lia.
Qed.

Lemma shr_record_of_loc_m m l : shr_m (shr_record_of_loc m l) = m.
Proof. destruct l as [|[]]; reflexivity. Qed.

(** Shifting a positive mantissa to its format exponent leaves it
    positive, as long as the exponent is not below [emin]. *)
Lemma shr_fexp_pos p e l :
  -1074 <= e ->
  0 < shr_m (fst (shr_fexp prec emax (Zpos p) e l))
  /\ -1074 <= snd (shr_fexp prec emax (Zpos p) e l).
Proof.
  intros He. unfold shr_fexp, shr, fexp, emin. cbn [Zdigits2].
  destruct (Z.max (Zpos (digits2_pos p) + e - prec) (3 - emax - prec) - e)
    as [|k|k] eqn:En; cbn [fst snd];
    rewrite ?shr_record_of_loc_m; try (split; lia).
  rewrite iter_shr_1 by (rewrite shr_record_of_loc_m; lia).
  rewrite shr_record_of_loc_m. split; [|lia].
  apply shiftr_pos. pose proof (Pos2Z.is_pos (digits2_pos p)). lia.
Qed.

Lemma shr_fexp_nonneg m e l :
  0 <= m -> 0 <= shr_m (fst (shr_fexp prec emax m e l)).
Proof.
  intros Hm. unfold shr_fexp, shr.
  destruct (fexp prec emax (Zdigits2 m + e) - e) as [|k|k]; cbn [fst];
    rewrite ?shr_record_of_loc_m; try exact Hm.
  rewrite iter_shr_1 by (rewrite shr_record_of_loc_m; exact Hm).
  rewrite shr_record_of_loc_m. apply Z.shiftr_nonneg. exact Hm.
Qed.

Lemma round_nearest_even_ge m l : 0 <= m -> m <= round_nearest_even m l.
Proof.
  intros Hm. unfold round_nearest_even.
  destruct l as [|[]]; try lia. destruct (Z.even m); lia.
Qed.

Lemma binary_round_aux_pos p e l :
  -1074 <= e ->
  positive_float (binary_round_aux prec emax false (Zpos p) e l) = true.
Proof.
  intros He. unfold binary_round_aux.
  pose proof (shr_fexp_pos p e l He) as [H1 H2].
  destruct (shr_fexp prec emax (Zpos p) e l) as [mrs' e']. cbn [fst snd] in *.
  pose proof (round_nearest_even_ge (shr_m mrs') (loc_of_shr_record mrs')) as Hr.
  destruct (round_nearest_even (shr_m mrs') (loc_of_shr_record mrs')) as [|q|q];
    try lia.
  pose proof (shr_fexp_pos q e' loc_Exact H2) as [H3 _].
  destruct (shr_fexp prec emax (Zpos q) e' loc_Exact) as [mrs'' e''].
  cbn [fst] in H3.
  destruct (shr_m mrs'') as [|m|m]; try lia.
  destruct (e'' <=? emax - prec); reflexivity.
Qed.

Lemma binary_round_aux_nonneg m e l :
  0 <= m ->
  nonnegative_float (binary_round_aux prec emax false m e l) = true.
Proof.
  intros Hm. unfold binary_round_aux.
  pose proof (shr_fexp_nonneg m e l Hm) as H1.
  destruct (shr_fexp prec emax m e l) as [mrs' e']. cbn [fst] in H1.
  pose proof (round_nearest_even_ge (shr_m mrs') (loc_of_shr_record mrs') H1) as Hr.
  assert (H2 : 0 <= round_nearest_even (shr_m mrs') (loc_of_shr_record mrs')) by lia.
  pose proof (shr_fexp_nonneg _ e' loc_Exact H2) as H3.
  destruct (shr_fexp prec emax _ e' loc_Exact) as [mrs'' e''].
  cbn [fst] in H3.
  destruct (shr_m mrs'') as [|q|q]; try lia; [reflexivity|].
  destruct (e'' <=? emax - prec); reflexivity.
Qed.

(** A positive integer converts to a positive float or overflows. *)
Lemma binary_normalize_pos p :
  positive_float (binary_normalize prec emax (Zpos p) 0 false) = true.
Proof.
  cbn [binary_normalize]. unfold binary_round.
  destruct (shl_align p 0 (fexp prec emax (Zpos (digits2_pos p) + 0)))
    as [mz ez] eqn:Es.
  apply binary_round_aux_pos.
  unfold shl_align, fexp, emin in Es.
  destruct (Z.max (Zpos (digits2_pos p) + 0 - prec) (3 - emax - prec) - 0);
    injection Es as <- <-; lia.
Qed.

(** The quotient of two positive finite floats is not negative and not
    NaN. *)
Lemma SFdiv_nonneg x y :
  positive_float x = true ->
  match y with S754_finite false _ _ => True | _ => False end ->
  nonnegative_float (SFdiv prec emax x y) = true.
Proof.
  destruct x as [[]|[]| |[] mx ex]; try discriminate;
    destruct y as [[]|[]| |[] my ey]; try contradiction; intros _ _;
    try reflexivity.
  cbn [SFdiv xorb].
  destruct (SFdiv_core_binary prec emax (Zpos mx) ex (Zpos my) ey)
    as [[mz ez] lz] eqn:Ed.
  apply binary_round_aux_nonneg.
  unfold SFdiv_core_binary in Ed.
  set (m' := match _ - _ - _ with Z0 => _ | Zpos _ => _ | Zneg _ => _ end) in Ed.
  assert (Hm' : 0 <= m').
  { subst m'. destruct (_ - _ - _); try lia.
    apply Z.shiftl_nonneg. lia. }
  pose proof (Z.div_pos m' (Zpos my) Hm' eq_refl) as Hq.
  unfold Z.div in Hq. destruct (Z.div_eucl m' (Zpos my)) as [q r].
  injection Ed as <- _ _. exact Hq.
Qed.
End Binary64.

(** ** The decorator *)

Section LoggerFacts.
Context `{Formatting} {A R : Type}.
Variables (func_name : string) (repr_args : A -> string)
          (str_result : R -> string).

Local Abbreviation wrap := (inner func_name repr_args str_result).
Local Abbreviation started := (start_msg func_name repr_args).
Local Abbreviation finished := (done_msg func_name str_result).

Lemma log_info_sink h msg :
  is_sink h = true -> log_info h msg = emit (info_record h msg).
Proof.
  unfold is_sink, log_info, info_record, call_write.
  destruct (has_info h), (has_write h), (has_error h); simpl;
    intros; congruence.
Qed.

Lemma log_error_sink h msg :
  is_sink h = true -> log_error h msg = emit (error_record h msg).
Proof.
  unfold is_sink, log_error, error_record, call_write.
  destruct (has_info h), (has_write h), (has_error h); simpl;
    intros; congruence.
Qed.



(** What [inner] does around a call that returns, and around one that
    raises. *)
Lemma inner_returns func h args t r :
  is_sink h = true ->
  func args = (t, Return r) ->
  wrap func (Some h) args
  = (info_record h (started args) :: t ++ [info_record h (finished r)],
     Return r).
Proof.
  intros Hs Hf.
  unfold inner, lcatch, lbind, log_info, log_error, call_write,
    info_record, emit, lret.
  destruct h as [[] [] []]; simpl in *; try discriminate;
    rewrite Hf; simpl; rewrite ?app_nil_r; reflexivity.
Qed.

Lemma inner_raises func h args t e :
  is_sink h = true ->
  func args = (t, Raise e) ->
  wrap func (Some h) args
  = (info_record h (started args) :: t ++ [error_record h (error_msg e)],
     Raise e).
Proof.
  intros Hs Hf.
  unfold inner, lcatch, lbind, log_info, log_error, call_write,
    info_record, error_record, emit, lraise.
  destruct h as [[] [] []]; simpl in *; try discriminate;
    rewrite Hf; simpl; rewrite ?app_nil_r; reflexivity.
Qed.

(** Without a handle the function is called as it is. *)
Lemma inner_no_handle func args : wrap func None args = func args.
Proof. reflexivity. Qed.

Lemma decorate_inner func handle :
  decorate func_name repr_args str_result handle func = wrap func handle.
Proof. reflexivity. Qed.


End LoggerFacts.

(** ** The feed client *)

Section FetchFacts.
Context `{Formatting}.
Variable response : result pyval.

Lemma result_of_collect_cons data code rest acc :
  result_of (collect data (code :: rest) acc)
  = (let* valute := getitem data "Valute" in
     let* present := contains valute code in
     if present then
       let* entry := getitem valute code in
       let* v := getitem entry "Value" in
       if negb (is_int_or_float v)
       then Raise (Exn TypeError ("Курс валюты '" ++ code ++ "' имеет неверный тип"))
       else result_of (collect data rest (<[code := v]> acc))
     else Raise (Exn KeyError ("Валюта '" ++ code ++ "' не найдена"))).
Proof.
  cbn [collect]. rewrite result_of_lbind, result_of_lift.
  destruct (getitem data "Valute") as [valute|e]; cbn [bind]; [|reflexivity].
  rewrite result_of_lbind, result_of_lift.
  destruct (contains valute code) as [[|]|e]; cbn [bind]; try reflexivity.
  rewrite result_of_lbind, result_of_lift.
  destruct (getitem valute code) as [entry|e]; cbn [bind]; [|reflexivity].
  rewrite result_of_lbind, result_of_lift.
  destruct (getitem entry "Value") as [v|e]; cbn [bind]; [|reflexivity].
  destruct (is_int_or_float v); reflexivity.
Qed.

(** Neither the [except] clauses nor the decorator change the outcome:
    the call returns what the [try] block returns and raises what it
    raises. *)
Lemma result_of_get_currencies codes :
  result_of (get_currencies response codes)
  = (let* data := response in
     let* has_valute := contains data "Valute" in
     if has_valute then result_of (collect data codes ∅)
     else Raise (Exn KeyError "Нет ключа 'Valute' в данных API")).
Proof.
  unfold get_currencies, decorate, logger, inner.
  rewrite result_of_lcatch_reraise
    by (intros e; rewrite result_of_lbind; reflexivity).
  rewrite result_of_lbind. cbn [log_info file_log has_info emit result_of snd].
  rewrite result_of_lbind.
  unfold get_currencies__wrapped__.
  rewrite result_of_lbind. cbn [emit result_of snd].
  rewrite result_of_lcatch_reraise
    by (intros e; unfold except_clauses; rewrite result_of_lbind; reflexivity).
  unfold try_block.
  rewrite result_of_lbind, result_of_lift.
  destruct response as [data|e]; cbn [bind]; [|reflexivity].
  rewrite result_of_lbind, result_of_lift.
  destruct (contains data "Valute") as [[|]|e]; cbn [bind]; try reflexivity.
  rewrite result_of_lbind.
  destruct (result_of (collect data codes ∅)); [|reflexivity].
  rewrite result_of_lbind. reflexivity.
Qed.

Lemma quoted_inv valute code :
  quoted valute code = true ->
  exists entry v,
    valute !! code = Some (PDict entry) /\ entry !! "Value" = Some v
    /\ is_int_or_float v = true /\ feed_value valute code = Some v.
Proof.
  unfold quoted, feed_value.
  destruct (valute !! code) as [[| | | | | |entry]|]; try discriminate.
  destruct (entry !! "Value") as [v|] eqn:Ev; [|discriminate].
  intros Hv. exists entry, v. auto.
Qed.

(** The loop over codes that are all quoted: it returns, and it has
    added exactly the requested codes to the dictionary. *)
Lemma collect_quoted d valute codes :
  d !! "Valute" = Some (PDict valute) ->
  Forall (fun code => quoted valute code = true) codes ->
  forall acc, exists m,
    result_of (collect (PDict d) codes acc) = Return m
    /\ forall k, m !! k = if bool_decide (k ∈ codes)
                          then feed_value valute k else acc !! k.
Proof.
  intros Hd. induction 1 as [|code rest Hq _ IH]; intros acc.
  - exists acc. split; [reflexivity|]. intros k.
    rewrite bool_decide_eq_false_2; [reflexivity|]. apply not_elem_of_nil.
  - destruct (quoted_inv _ _ Hq) as (entry & v & Hc & Hv & Hn & Hf).
    destruct (IH (<[code := v]> acc)) as (m & Hm & Hk).
    exists m. split.
    + rewrite result_of_collect_cons. cbn [getitem]. rewrite Hd. cbn [bind contains].
      rewrite bool_decide_eq_true_2 by (rewrite Hc; eauto).
      cbn [getitem]. rewrite Hc. cbn [bind getitem]. rewrite Hv. cbn [bind].
      rewrite Hn. exact Hm.
    + intros k. rewrite Hk.
      destruct (decide (k = code)) as [->|Hne].
      * rewrite (bool_decide_eq_true_2 (code ∈ code :: rest)) by apply list_elem_of_here.
        case_bool_decide; [reflexivity|]. rewrite lookup_insert_eq. congruence.
      * rewrite lookup_insert_ne by congruence.
        rewrite (bool_decide_ext (k ∈ code :: rest) (k ∈ rest)); [reflexivity|].
        rewrite elem_of_cons. tauto.
Qed.

(** C3. When the network step delivers a document whose ["Valute"]
    mapping holds, for every requested code, an entry with a numeric
    ["Value"], [get_currencies] returns, and the dictionary it returns
    maps each requested code to that value and holds nothing else. *)
Theorem fetch_returns_requested_rates d valute codes :
  response = Return (PDict d) ->
  d !! "Valute" = Some (PDict valute) ->
  Forall (fun code => quoted valute code = true) codes ->
  exists m,
    result_of (get_currencies response codes) = Return m
    /\ (forall code, code ∈ codes -> m !! code = feed_value valute code)
    /\ (forall k, k ∉ codes -> m !! k = None)
    /\ (forall code v, m !! code = Some v -> is_int_or_float v = true).
Proof.
  intros Hr Hd Hq.
  destruct (collect_quoted d valute codes Hd Hq ∅) as (m & Hm & Hk).
  exists m. split; [|split; [|split]].
  - rewrite result_of_get_currencies, Hr. cbn [bind contains].
    rewrite bool_decide_eq_true_2 by (rewrite Hd; eauto). exact Hm.
  - intros code Hin. rewrite Hk, bool_decide_eq_true_2 by assumption.
    reflexivity.
  - intros k Hout. rewrite Hk, bool_decide_eq_false_2 by assumption.
    apply lookup_empty.
  - intros code v. rewrite Hk. case_bool_decide as Hin.
    + intros Hf. rewrite Forall_forall in Hq. specialize (Hq code Hin).
      unfold quoted in Hq. rewrite Hf in Hq. exact Hq.
    + rewrite lookup_empty. discriminate.
Qed.





End FetchFacts.

(** ** The handler *)

Section HandlerFacts.
Variable fetch : list string -> logged (gmap string pyval).
Variable now : string.

Lemma make_row_quotable c change :
  quotable c = true -> make_row c change = Return (row_of c change).
Proof.
  unfold quotable, make_row, row_of, unit_rate.
  destruct (get_value_per_unit c); [reflexivity|discriminate].
Qed.


Lemma static_rows_quotable store :
  Forall (fun c => quotable c = true) store ->
  static_rows store = Return (map (fun c => row_of c (PInt 0)) store).
Proof.
  induction 1 as [|c rest Hc _ IH]; [reflexivity|].
  cbn [static_rows map]. rewrite (make_row_quotable _ _ Hc), IH. reflexivity.
Qed.

Lemma now_not_static : String.eqb now (now ++ static_marker) = false.
Proof.
  apply String.eqb_neq. intros E.
  apply (f_equal String.length) in E.
  rewrite length_append in E. simpl in E. lia.
Qed.

Lemma static_is_stale rows :
  stale now (mkContext rows (now ++ static_marker) "/currencies") = true.
Proof. unfold stale. simpl. apply String.eqb_refl. Qed.

Lemma fresh_is_not_stale rows :
  stale now (mkContext rows now "/currencies") = false.
Proof. unfold stale. simpl. apply now_not_static. Qed.

Lemma gt_zero_not_le_zero v : gt_zero v = true -> le_zero v = false.
Proof.
  destruct v as [|b|z|f| | |]; simpl; try discriminate.
  - intros ->. reflexivity.
  - intros Hz. apply Z.leb_gt. apply Z.ltb_lt in Hz. exact Hz.
  - unfold f_ltb, f_leb, SFltb, SFleb, f_zero.
    destruct f as [s|s| |s m e]; simpl; try discriminate;
      destruct s; simpl; try discriminate; reflexivity.
Qed.

(** The rate setter stores every positive rate, as a float. *)
Lemma setter_accepts_positive v :
  positive_rate v = true ->
  exists rate, to_float v = Return rate /\ Setter.value v = Return rate.
Proof.
  unfold positive_rate. intros Hp. apply andb_true_iff in Hp as [Hg Hr].
  unfold Setter.value. rewrite (gt_zero_not_le_zero _ Hg).
  destruct (to_float v) as [rate|] eqn:Ef; [|discriminate].
  exists rate. split; [reflexivity|].
  destruct v; try discriminate Hg; reflexivity.
Qed.




Lemma outcome_static rows_of_store :
  outcome now (mkContext (map (fun c => row_of c (PInt 0)) rows_of_store)
                 (now ++ static_marker) "/currencies")
  = map kept rows_of_store.
Proof.
  unfold outcome. cbn [currencies]. rewrite map_map.
  apply map_ext. intros c. unfold kept. rewrite static_is_stale. reflexivity.
Qed.

(** C1 (amended). Let the records be such that their per-unit rates can be
    computed.  When the call of the feed client raises, whatever the
    exception, the handler does not raise: it renders a table in which
    every record has the rate it had, change 0, and the stale mark; no
    record is modified. *)
Theorem refresh_falls_back_when_feed_raises store log e :
  Forall (fun c => quotable c = true) store ->
  fetch (map char_code store) = (log, Raise e) ->
  exists ctx,
    _handle_currencies fetch now store = (log, store, Return ctx)
    /\ stale now ctx = true
    /\ outcome now ctx = map kept store.
Proof.
  intros Hq Hf. unfold _handle_currencies. rewrite Hf.
  rewrite (static_rows_quotable _ Hq). cbn [bind].
  eexists. split; [reflexivity|]. split.
  - apply static_is_stale.
  - apply outcome_static.
Qed.




Lemma refresh_one_identity api c :
  same_identity c (fst (refresh_one api c)).
Proof.
  unfold refresh_one, set_value.
  destruct (api !! char_code c) as [v|]; [|repeat split].
  destruct (Setter.value v); repeat split.
Qed.

Lemma refresh_all_identity api store :
  Forall2 same_identity store (fst (refresh_all api store)).
Proof.
  induction store as [|c rest IH]; cbn [refresh_all]; [constructor|].
  pose proof (refresh_one_identity api c) as Hc.
  destruct (refresh_one api c) as [c' [r|e]]; cbn [fst] in *.
  - destruct (refresh_all api rest) as [rest' rows]. cbn [fst] in *.
    constructor; assumption.
  - constructor; [assumption|].
    clear. induction rest; constructor; [repeat split|assumption].
Qed.

Lemma handler_keeps_identity store :
  Forall2 same_identity store
    (store_after (_handle_currencies fetch now store)).
Proof.
  unfold _handle_currencies, store_after.
  destruct (fetch (map char_code store)) as [log [api|e]].
  - pose proof (refresh_all_identity api store) as Hs.
    destruct (refresh_all api store) as [s [rows|e]]; cbn [bind fst snd] in *;
      exact Hs.
  - cbn [fst snd]. clear. induction store; constructor; [repeat split|assumption].
Qed.

(** C7. Whatever the feed client does and whichever path the handler
    takes, the records afterwards are the records before, one for one,
    with the same id, numeric code, symbolic code, name and nominal: a
    refresh writes rates only.  The feed client receives the list of
    codes and nothing else, and the records it leaves untouched are the
    ones the handler goes on with. *)
Theorem refresh_writes_rates_only store :
  Forall2 same_identity store
    (store_after (_handle_currencies fetch now store))
  /\ (forall log e, fetch (map char_code store) = (log, Raise e) ->
        store_after (_handle_currencies fetch now store) = store).
Proof.
  split.
  - apply handler_keeps_identity.
  - intros log e Hf. unfold _handle_currencies, store_after. rewrite Hf. reflexivity.
Qed.

Lemma quotable_nominal c c' :
  nominal c' = nominal c -> quotable c' = quotable c.
Proof.
  intros Hn. unfold quotable, get_value_per_unit. rewrite Hn.
  destruct (float_of_int (nominal c)) as [[]|]; reflexivity.
Qed.

(** Whether the per-unit rate can be computed depends on the nominal
    alone, so a refresh does not change it: a collection that starts with
    computable per-unit rates, as the class attribute does, keeps them. *)
Lemma refresh_keeps_quotable store :
  Forall (fun c => quotable c = true) store ->
  Forall (fun c => quotable c = true)
    (store_after (_handle_currencies fetch now store)).
Proof.
  intros Hq.
  pose proof (handler_keeps_identity store) as Hs.
  revert Hq. induction Hs as [|c c' l l' Hc _ IH]; intros Hq; [constructor|].
  apply Forall_cons in Hq as [Hqc Hql]. constructor; [|exact (IH Hql)].
  destruct Hc as (_ & _ & _ & _ & Hn). rewrite (quotable_nominal c c' Hn).
  exact Hqc.
Qed.
End HandlerFacts.

(** ** The feed client seen from the handler *)

Section Coverage.
Context `{Formatting}.
Variable response : result pyval.

(** A dictionary returned by the loop holds every code the loop went
    through, besides what it held before. *)
Lemma collect_covers data codes :
  forall acc m,
    result_of (collect data codes acc) = Return m ->
    forall k, k ∈ codes \/ is_Some (acc !! k) -> is_Some (m !! k).
Proof.
  induction codes as [|code rest IH]; intros acc m Hm k Hk.
  - cbn in Hm. injection Hm as <-.
    destruct Hk as [Hk|Hk]; [|exact Hk]. apply elem_of_nil in Hk. contradiction.
  - rewrite result_of_collect_cons in Hm.
    destruct (getitem data "Valute") as [valute|]; cbn [bind] in Hm; [|discriminate].
    destruct (contains valute code) as [[|]|]; cbn [bind] in Hm; try discriminate.
    destruct (getitem valute code) as [entry|]; cbn [bind] in Hm; [|discriminate].
    destruct (getitem entry "Value") as [v|]; cbn [bind] in Hm; [|discriminate].
    destruct (negb (is_int_or_float v)); [discriminate|].
    apply (IH _ _ Hm). destruct Hk as [Hk|Hk].
    + apply elem_of_cons in Hk as [->|Hk]; [|left; exact Hk].
      right. rewrite lookup_insert_eq. eauto.
    + right. destruct (decide (code = k)) as [->|Hne].
      * rewrite lookup_insert_eq. eauto.
      * rewrite lookup_insert_ne by exact Hne. exact Hk.
Qed.

(** The loop returns only when the mapping has an entry for every
    code. *)
Lemma collect_returns_present d valute codes :
  d !! "Valute" = Some (PDict valute) ->
  forall acc m,
    result_of (collect (PDict d) codes acc) = Return m ->
    forall code, code ∈ codes -> is_Some (valute !! code).
Proof.
  intros Hd. induction codes as [|c rest IH]; intros acc m Hm code Hin.
  - apply elem_of_nil in Hin. contradiction.
  - rewrite result_of_collect_cons in Hm. cbn [getitem] in Hm.
    rewrite Hd in Hm. cbn [bind contains] in Hm.
    destruct (bool_decide (is_Some (valute !! c))) eqn:Hc;
      cbn [bind] in Hm; [|discriminate].
    apply bool_decide_eq_true_1 in Hc.
    destruct (getitem (PDict valute) c) as [entry|]; cbn [bind] in Hm; [|discriminate].
    destruct (getitem entry "Value") as [v|]; cbn [bind] in Hm; [|discriminate].
    destruct (negb (is_int_or_float v)); [discriminate|].
    apply elem_of_cons in Hin as [->|Hin]; [exact Hc|].
    exact (IH _ _ Hm code Hin).
Qed.

(** C9. Whenever [get_currencies] returns, the dictionary it returns
    has an entry for every requested code; a requested code for which the
    ["Valute"] mapping has no entry makes the call raise.  Hence, when
    the handler has called it with the codes of its records and goes
    through them, the lookup [currency.char_code in api_currencies]
    succeeds for every record: the [else] branch of the loop is not
    taken. *)
Theorem fetch_result_covers_request codes :
  (forall m,
     result_of (get_currencies response codes) = Return m ->
     forall code, code ∈ codes -> is_Some (m !! code))
  /\
  (forall d valute code,
     response = Return (PDict d) ->
     d !! "Valute" = Some (PDict valute) ->
     code ∈ codes -> valute !! code = None ->
     raises (result_of (get_currencies response codes)) = true)
  /\
  (forall store api,
     codes = map char_code store ->
     result_of (get_currencies response codes) = Return api ->
     forall c, c ∈ store ->
       api !! char_code c <> None
       /\ exists fetched,
            api !! char_code c = Some fetched
            /\ refresh_one api c
               = match set_value c fetched with
                 | Raise e => (c, Raise e)
                 | Return c' =>
                     (c', make_row c'
                            (if truthy (value c)
                             then PFloat (f_sub (value c') (value c))
                             else PInt 0))
                 end).
Proof.
  assert (Hcov : forall m,
             result_of (get_currencies response codes) = Return m ->
             forall code, code ∈ codes -> is_Some (m !! code)).
  { intros m Hm code Hin. rewrite result_of_get_currencies in Hm.
    destruct response as [data|]; cbn [bind] in Hm; [|discriminate].
    destruct (contains data "Valute") as [[|]|]; cbn [bind] in Hm; try discriminate.
    apply (collect_covers _ _ _ _ Hm). left. exact Hin. }
  split; [exact Hcov|]. split.
  - intros d valute code Hr Hd Hin Hnone.
    destruct (result_of (get_currencies response codes)) as [m|e] eqn:Hm;
      [|reflexivity].
    exfalso. rewrite result_of_get_currencies, Hr in Hm. cbn [bind contains] in Hm.
    rewrite bool_decide_eq_true_2 in Hm by (rewrite Hd; eauto).
    destruct (collect_returns_present d valute codes Hd _ _ Hm code Hin) as [x Hx].
    congruence.
  - intros store api -> Hm c Hin.
    assert (Hs : is_Some (api !! char_code c)).
    { apply (Hcov api Hm). apply list_elem_of_fmap. exists c. split; [reflexivity|exact Hin]. }
    destruct Hs as [fetched Hfetched]. split; [congruence|].
    exists fetched. split; [exact Hfetched|].
    unfold refresh_one. rewrite Hfetched. reflexivity.
Qed.
End Coverage.

(** ** The rate record *)

Section CurrencyFacts.

Lemma positive_float_gt f : positive_float f = true <-> f_ltb f_zero f = true.
Proof.
  unfold f_ltb, SFltb, f_zero.
  destruct f as [s|s| |s m e]; simpl; try destruct s; simpl;
    split; (reflexivity || discriminate).
Qed.

Lemma nonnegative_float_ge f : nonnegative_float f = true -> f_leb f_zero f = true.
Proof.
  unfold f_leb, SFleb, f_zero.
  destruct f as [s|s| |s m e]; simpl; try destruct s; simpl;
    (reflexivity || discriminate).
Qed.

Lemma float_not_le_zero f :
  f_leb f f_zero = false -> f <> S754_nan -> positive_float f = true.
Proof.
  unfold f_leb, SFleb, f_zero.
  destruct f as [s|s| |s m e]; simpl; try destruct s; simpl;
    intros; (reflexivity || discriminate || contradiction).
Qed.

(** A positive [int] in the float range converts to a positive finite
    float. *)
Lemma float_of_int_positive z d :
  0 < z -> float_of_int z = Return d ->
  exists m e, d = S754_finite false m e.
Proof.
  intros Hz. destruct z as [|p|p]; try lia. clear Hz.
  unfold float_of_int, f_of_Z.
  pose proof (binary_normalize_pos p) as Hp.
  destruct (binary_normalize 53 1024 (Z.pos p) 0 false) as [s|s| |s m e];
    try discriminate; destruct s; try discriminate.
  intros E. injection E as <-. eauto.
Qed.

(** What the rate setter stores is above zero, unless it was handed a
    NaN. *)
Lemma setter_value_positive v rate :
  is_nan v = false -> Setter.value v = Return rate ->
  f_ltb f_zero rate = true.
Proof.
  intros Hn. unfold Setter.value.
  destruct (negb (is_int_or_float v)) eqn:Hi; [discriminate|].
  destruct (le_zero v) eqn:Hl; [discriminate|].
  destruct v as [|b|z|f| | |]; try discriminate Hi; cbn [to_float].
  - destruct b; [|discriminate Hl]. intros E. injection E as <-. reflexivity.
  - intros E. apply Z.leb_gt in Hl.
    destruct (float_of_int_positive z rate Hl E) as (m & e & ->). reflexivity.
  - intros E. injection E as <-. apply positive_float_gt.
    apply float_not_le_zero; [exact Hl|].
    intros ->. discriminate Hn.
Qed.

Lemma get_value_per_unit_defined c d :
  0 < nominal c -> float_of_int (nominal c) = Return d ->
  get_value_per_unit c = Return (f_div (value c) d)
  /\ exists m e, d = S754_finite false m e.
Proof.
  intros Hm Hd. destruct (float_of_int_positive _ _ Hm Hd) as (m & e & ->).
  unfold get_value_per_unit. rewrite Hd. split; [reflexivity|eauto].
Qed.

(** C6 (amended). Construction succeeds for every positive id, numeric
    code and nominal, every rate that is a positive number and is a float
    or converts to one, every code whose text without surrounding white
    space has exactly three characters, and every name that is not
    blank; the object holds the code in upper case and the name without
    surrounding white space, and whenever its nominal converts to a
    float, its per-unit rate is the float quotient [rate / nominal].
    Construction fails for every non-positive id, numeric code, rate or
    nominal, and for every code whose text without surrounding white space
    does not have exactly three characters. *)
Theorem construction_validates (i n m : Z) (code nm : string) (v : pyval) :
  (0 < i -> 0 < n -> 0 < m -> positive_rate v = true ->
   len (strip code) = 3 -> is_empty (strip nm) = false ->
   exists rate,
     to_float v = Return rate
     /\ init (PInt i) (PInt n) (PStr code) (PStr nm) v (PInt m)
        = Return (mkCurrency i n (upper (strip code)) (strip nm) rate m)
     /\ forall d, float_of_int m = Return d ->
          get_value_per_unit
            (mkCurrency i n (upper (strip code)) (strip nm) rate m)
          = Return (f_div rate d))
  /\
  (i <= 0 \/ n <= 0 \/ le_zero v = true \/ m <= 0 \/ len (strip code) <> 3 ->
   raises (init (PInt i) (PInt n) (PStr code) (PStr nm) v (PInt m)) = true).
Proof.
  split.
  - intros Hi Hn Hm Hv Hc Hnm.
    destruct (setter_accepts_positive v Hv) as (rate & Hf & Hs).
    exists rate. split; [exact Hf|]. split.
    + unfold init, Setter.id, Setter.num_code, Setter.char_code, Setter.name,
        Setter.nominal.
      cbn [as_int as_str].
      rewrite (proj2 (Z.leb_gt i 0) Hi), (proj2 (Z.leb_gt n 0) Hn),
        (proj2 (Z.leb_gt m 0) Hm).
      cbn [bind].
      assert (He : is_empty (strip code) = false).
      { destruct (strip code); [discriminate Hc|reflexivity]. }
      rewrite He, Hc. cbn [Z.eqb Pos.eqb negb bind].
      rewrite Hnm. cbn [bind]. rewrite Hs. reflexivity.
    + intros d Hd.
      apply (get_value_per_unit_defined
               (mkCurrency i n (upper (strip code)) (strip nm) rate m) d Hm Hd).
  - intros Hbad. unfold init.
    unfold Setter.id. cbn [as_int].
    destruct (i <=? 0) eqn:Ei; [reflexivity|]. cbn [bind].
    unfold Setter.num_code. cbn [as_int].
    destruct (n <=? 0) eqn:En; [reflexivity|]. cbn [bind].
    unfold Setter.char_code. cbn [as_str].
    destruct (is_empty (strip code)); [reflexivity|].
    destruct (len (strip code) =? 3) eqn:Ec; [|reflexivity]. cbn [negb bind].
    unfold Setter.name. cbn [as_str].
    destruct (is_empty (strip nm)); [reflexivity|]. cbn [bind].
    unfold Setter.value.
    destruct (negb (is_int_or_float v)); [reflexivity|].
    destruct (le_zero v) eqn:Ev; [reflexivity|].
    destruct (to_float v); [|reflexivity]. cbn [bind].
    unfold Setter.nominal. cbn [as_int].
    destruct (m <=? 0) eqn:Em; [reflexivity|].
    exfalso. apply Z.leb_gt in Ei, En, Em. apply Z.eqb_eq in Ec.
    destruct Hbad as [?|[?|[?|[?|?]]]]; try lia; congruence.
Qed.

Lemma set_value_valid c v c' :
  valid c -> is_nan v = false -> set_value c v = Return c' -> valid c'.
Proof.
  intros [_ Hm] Hn. unfold set_value.
  destruct (Setter.value v) as [rate|] eqn:Hs; [|discriminate].
  cbn [bind]. intros E. injection E as <-.
  split; [exact (setter_value_positive v rate Hn Hs)|exact Hm].
Qed.

Lemma refresh_one_valid api c :
  valid c ->
  (forall v, api !! char_code c = Some v -> is_nan v = false) ->
  valid (fst (refresh_one api c)).
Proof.
  intros Hc Hn. unfold refresh_one.
  destruct (api !! char_code c) as [v|]; [|exact Hc].
  destruct (set_value c v) as [c'|] eqn:Hs; [|exact Hc].
  exact (set_value_valid c v c' Hc (Hn v eq_refl) Hs).
Qed.

Lemma refresh_all_valid api store :
  Forall valid store ->
  (forall k v, api !! k = Some v -> is_nan v = false) ->
  Forall valid (fst (refresh_all api store)).
Proof.
  intros Hs Hn. induction Hs as [|c rest Hc Hrest IH]; cbn [refresh_all].
  - constructor.
  - pose proof (refresh_one_valid api c Hc (fun v => Hn _ v)) as Hc'.
    destruct (refresh_one api c) as [c' [r|e]]; cbn [fst] in *.
    + destruct (refresh_all api rest) as [rest' rows]. cbn [fst] in *.
      constructor; assumption.
    + constructor; assumption.
Qed.

(** C8 (amended). Construction, every setter, and a refresh, whether it
    succeeds or falls back, keep [nominal > 0], and keep [rate > 0]
    provided the number written as the rate is not NaN.  For a record
    with [rate > 0] and [nominal > 0] whose nominal converts to a float,
    the per-unit rate is defined, it is the float quotient
    [rate / nominal], and it is not below zero. *)
Theorem rate_and_nominal_stay_positive :
  (forall i n code nm v m c,
     is_nan v = false -> init i n code nm v m = Return c -> valid c)
  /\
  (forall c c', valid c ->
     (forall x, set_id c x = Return c' -> valid c')
     /\ (forall x, set_num_code c x = Return c' -> valid c')
     /\ (forall x, set_char_code c x = Return c' -> valid c')
     /\ (forall x, set_name c x = Return c' -> valid c')
     /\ (forall x, is_nan x = false -> set_value c x = Return c' -> valid c')
     /\ (forall x, set_nominal c x = Return c' -> valid c'))
  /\
  (forall (fetch : list string -> logged (gmap string pyval)) now store,
     Forall valid store ->
     (forall log api, fetch (map char_code store) = (log, Return api) ->
        forall k v, api !! k = Some v -> is_nan v = false) ->
     Forall valid (store_after (_handle_currencies fetch now store)))
  /\
  (forall c d, valid c -> float_of_int (nominal c) = Return d ->
     get_value_per_unit c = Return (f_div (value c) d)
     /\ f_leb f_zero (f_div (value c) d) = true).
Proof.
  split; [|split; [|split]].
  - intros i n code nm v m c Hn. unfold init.
    destruct (Setter.id i); [|discriminate]. cbn [bind].
    destruct (Setter.num_code n); [|discriminate]. cbn [bind].
    destruct (Setter.char_code code); [|discriminate]. cbn [bind].
    destruct (Setter.name nm); [|discriminate]. cbn [bind].
    destruct (Setter.value v) as [rate|] eqn:Hv; [|discriminate]. cbn [bind].
    unfold Setter.nominal. destruct (as_int m) as [z|]; [|discriminate].
    destruct (z <=? 0) eqn:Hm; [discriminate|]. cbn [bind].
    intros E. injection E as <-. split.
    + exact (setter_value_positive v rate Hn Hv).
    + apply Z.leb_gt. exact Hm.
  - intros c c' Hc.
    assert (Hframe : forall (A : Type) (r : result A) (mk : A -> Currency),
               (forall a, value (mk a) = value c /\ nominal (mk a) = nominal c) ->
               (let* a := r in Return (mk a)) = Return c' -> valid c').
    { intros A r mk Hmk. destruct r as [a|]; [|discriminate]. cbn [bind].
      intros E. injection E as <-. destruct (Hmk a) as [Hv Hn].
      unfold valid. rewrite Hv, Hn. exact Hc. }
    split; [|split; [|split; [|split; [|split]]]]; intros x.
    + apply Hframe. intros a. split; reflexivity.
    + apply Hframe. intros a. split; reflexivity.
    + apply Hframe. intros a. split; reflexivity.
    + apply Hframe. intros a. split; reflexivity.
    + intros Hx Hs. exact (set_value_valid c x c' Hc Hx Hs).
    + unfold set_nominal, Setter.nominal.
      destruct (as_int x) as [z|]; [|discriminate].
      destruct (z <=? 0) eqn:Hx; [discriminate|]. cbn [bind].
      intros E. injection E as <-. destruct Hc as [Hr _].
      split; [exact Hr|]. apply Z.leb_gt. exact Hx.
  - intros fetch now store Hs Hn. unfold _handle_currencies, store_after.
    destruct (fetch (map char_code store)) as [log [api|e]] eqn:Hf.
    + pose proof (refresh_all_valid api store Hs (Hn log api eq_refl)) as Hv.
      destruct (refresh_all api store) as [s' [rows|e]]; cbn [bind fst snd] in *;
        exact Hv.
    + cbn [fst snd]. exact Hs.
  - intros c d [Hr Hm] Hd.
    destruct (get_value_per_unit_defined c d Hm Hd) as (Hu & m & e & ->).
    split; [exact Hu|].
    apply nonnegative_float_ge. apply SFdiv_nonneg; [|exact I].
    apply positive_float_gt. exact Hr.
Qed.
End CurrencyFacts.


(* ===================================================================== *)
(** * The pipeline on concrete inputs                                     *)
(* ===================================================================== *)

Example init_usd :
  init (PInt 1) (PInt 840) (PStr "USD") (PStr "Доллар США")
    (PFloat (f_dec 9050 2)) (PInt 1)
  = Return (mkCurrency 1 840 "USD" "Доллар США"
              (S754_finite false 6368371348078592 (-46)) 1).
Proof. vm_compute. reflexivity. Qed.

Example init_strips_and_uppercases :
  init (PInt 1) (PInt 840) (PStr " usd ") (PStr " Dollar ") (PInt 90) (PInt 1)
  = Return (mkCurrency 1 840 "USD" "Dollar" (f_of_Z 90) 1).
Proof. vm_compute. reflexivity. Qed.

Example class_attribute_constructed :
  construct_currencies = Return _currencies /\ length _currencies = 6%nat.
Proof. vm_compute. split; reflexivity. Qed.

Example class_attribute_quotable :
  forallb quotable _currencies = true.
Proof. vm_compute. reflexivity. Qed.

(** Outside the shape the feed is expected to have, the exceptions of the
    interpreter come through: a ["Valute"] that is [null] cannot be
    searched, an entry without ["Value"] cannot be read. *)
Example fetch_outside_expected_shape :
  result_of (imported_get_currencies
               (Return (PDict {[ "Valute" := PNone ]})) ["USD"])
  = Raise (Exn TypeError "argument is not iterable")
  /\ result_of (imported_get_currencies
                  (Return (PDict {[ "Valute" := PDict {[ "USD" := PDict ∅ ]} ]}))
                  ["USD"])
     = Raise (Exn KeyError "Value").
Proof. vm_compute. split; reflexivity. Qed.

(** The scenario of the specification: one record, USD at 90.50; the feed
    quotes 92.10.  The change shown is the float difference, which is a
    little below 1.60. *)
Example scenario_feed_quotes_usd :
  let usd := mkCurrency 1 840 "USD" "Доллар США" (f_dec 9050 2) 1 in
  let response := Return (feed_document [("USD", PFloat (f_dec 9210 2))]) in
  exists log ctx,
    _handle_currencies (imported_get_currencies response) "now" [usd]
    = (log, [with_rate usd (f_dec 9210 2)], Return ctx)
    /\ outcome "now" ctx
       = [mkEntry "USD" (f_dec 9210 2)
            (PFloat (f_sub (f_dec 9210 2) (f_dec 9050 2))) false]
    /\ f_sub (f_dec 9210 2) (f_dec 9050 2)
       = S754_finite false 7205759403792768 (-52)
    /\ f_dec 160 2 = S754_finite false 7205759403792794 (-52).
Proof. vm_compute. eexists. eexists. repeat split. Qed.

Example scenario_feed_times_out :
  let usd := mkCurrency 1 840 "USD" "Доллар США" (f_dec 9050 2) 1 in
  exists log ctx,
    _handle_currencies (imported_get_currencies (Raise (Exn Timeout "timed out")))
      "now" [usd]
    = (log, [usd], Return ctx)
    /\ outcome "now" ctx = [mkEntry "USD" (f_dec 9050 2) (PInt 0) true].
Proof. vm_compute. eexists. eexists. repeat split. Qed.

(** ** Where the specification and the sources part *)

(** C6 as stated does not hold.  A name of one space is not empty, yet it
    is blank and construction raises; a positive [int] rate beyond the
    float range makes construction raise; the code [" 1$2"] is not three
    letters (it has five characters, none of them a letter), yet
    construction succeeds and stores ["1$2"]; and an object with a nominal
    beyond the float range is constructed but has no per-unit rate. *)
Lemma construction_counterexample :
  (is_empty " " = false
   /\ three_letters "USD" = true
   /\ gt_zero (PFloat (f_dec 9050 2)) = true
   /\ init (PInt 1) (PInt 840) (PStr "USD") (PStr " ")
        (PFloat (f_dec 9050 2)) (PInt 1)
      = Raise (Exn ValueError "Название не может быть пустым"))
  /\
  (gt_zero (PInt (2 ^ 1024)) = true
   /\ init (PInt 1) (PInt 840) (PStr "USD") (PStr "Dollar")
        (PInt (2 ^ 1024)) (PInt 1)
      = Raise (Exn OverflowError "int too large to convert to float"))
  /\
  (three_letters " 1$2" = false
   /\ init (PInt 1) (PInt 840) (PStr " 1$2") (PStr "Dollar")
        (PFloat (f_dec 9050 2)) (PInt 1)
      = Return (mkCurrency 1 840 "1$2" "Dollar" (f_dec 9050 2) 1))
  /\
  (init (PInt 1) (PInt 840) (PStr "USD") (PStr "Dollar")
     (PFloat (f_dec 9050 2)) (PInt (2 ^ 1024))
   = Return (mkCurrency 1 840 "USD" "Dollar" (f_dec 9050 2) (2 ^ 1024))
   /\ get_value_per_unit
        (mkCurrency 1 840 "USD" "Dollar" (f_dec 9050 2) (2 ^ 1024))
      = Raise (Exn OverflowError "int too large to convert to float")).
Proof. vm_compute. repeat split. Qed.

(** C1 as stated does not hold for every collection.  A record whose
    nominal lies beyond the float range is constructed; with it in the
    collection and a feed client that raises, the [except] block raises
    too, at [get_value_per_unit], and nothing is rendered. *)
Lemma fallback_counterexample :
  init (PInt 1) (PInt 840) (PStr "USD") (PStr "Dollar")
    (PFloat (f_dec 9050 2)) (PInt (2 ^ 1024))
  = Return (mkCurrency 1 840 "USD" "Dollar" (f_dec 9050 2) (2 ^ 1024))
  /\
  (let big := mkCurrency 1 840 "USD" "Dollar" (f_dec 9050 2) (2 ^ 1024) in
   let fetch := imported_get_currencies (Raise (Exn Timeout "timed out")) in
   result_of (fetch ["USD"]) = Raise (Exn Timeout "timed out")
   /\ _handle_currencies fetch "now" [big]
      = (log_of (fetch ["USD"]), [big],
         Raise (Exn OverflowError "int too large to convert to float"))).
Proof. vm_compute. repeat split. Qed.




(** C8 as stated does not hold.  The rate setter lets NaN through, at
    construction and when the feed delivers it, and NaN is not above zero;
    the smallest positive float divided by a nominal of 2 is zero; for a
    nominal beyond the float range the per-unit rate is not defined. *)
Lemma invariant_counterexample :
  (init (PInt 1) (PInt 840) (PStr "USD") (PStr "Dollar") (PFloat f_nan) (PInt 1)
   = Return (mkCurrency 1 840 "USD" "Dollar" f_nan 1)
   /\ f_ltb f_zero f_nan = false)
  /\
  (let usd := mkCurrency 1 840 "USD" "Dollar" (f_dec 9050 2) 1 in
   let response := Return (feed_document [("USD", PFloat f_nan)]) in
   valid usd
   /\ store_after
        (_handle_currencies (imported_get_currencies response) "now" [usd])
      = [mkCurrency 1 840 "USD" "Dollar" f_nan 1])
  /\
  (let tiny := S754_finite false 1 (-1074) in
   init (PInt 1) (PInt 840) (PStr "USD") (PStr "Dollar") (PFloat tiny) (PInt 2)
   = Return (mkCurrency 1 840 "USD" "Dollar" tiny 2)
   /\ valid_binary 53 1024 tiny = true
   /\ f_ltb f_zero tiny = true
   /\ get_value_per_unit (mkCurrency 1 840 "USD" "Dollar" tiny 2)
      = Return f_zero
   /\ f_ltb f_zero f_zero = false)
  /\
  (valid (mkCurrency 1 840 "USD" "Dollar" (f_dec 9050 2) (2 ^ 1024))
   /\ get_value_per_unit
        (mkCurrency 1 840 "USD" "Dollar" (f_dec 9050 2) (2 ^ 1024))
      = Raise (Exn OverflowError "int too large to convert to float")).
Proof. vm_compute. repeat split. Qed.

(** ** The theorems at concrete inputs *)


Lemma fetch_returns_requested_rates_witness :
  exists m,
    result_of (imported_get_currencies
                 (Return (feed_document [("USD", PFloat (f_dec 9210 2));
                                         ("EUR", PInt 99);
                                         ("GBP", PInt 120)]))
                 ["USD"; "EUR"])
    = Return m
    /\ m !! "USD" = Some (PFloat (f_dec 9210 2))
    /\ m !! "EUR" = Some (PInt 99)
    /\ m !! "GBP" = None.
Proof.
  destruct (@fetch_returns_requested_rates plain_formatting
              (Return (feed_document [("USD", PFloat (f_dec 9210 2));
                                      ("EUR", PInt 99); ("GBP", PInt 120)]))
              {[ "Valute" :=
                   PDict (list_to_map
                            [("USD", PDict {[ "Value" := PFloat (f_dec 9210 2) ]});
                             ("EUR", PDict {[ "Value" := PInt 99 ]});
                             ("GBP", PDict {[ "Value" := PInt 120 ]})]) ]}
              (list_to_map
                 [("USD", PDict {[ "Value" := PFloat (f_dec 9210 2) ]});
                  ("EUR", PDict {[ "Value" := PInt 99 ]});
                  ("GBP", PDict {[ "Value" := PInt 120 ]})])
              ["USD"; "EUR"])
    as (m & Hm & Hin & Hout & _).
  - reflexivity.
  - reflexivity.
  - repeat (constructor; [vm_compute; reflexivity|]). constructor.
  - exists m. split; [exact Hm|]. split; [|split].
    + rewrite Hin by (apply list_elem_of_here). vm_compute. reflexivity.
    + rewrite Hin by (apply list_elem_of_further, list_elem_of_here).
      vm_compute. reflexivity.
    + apply Hout. intros Hx. apply elem_of_cons in Hx as [Hx|Hx]; [discriminate|].
      apply elem_of_cons in Hx as [Hx|Hx]; [discriminate|].
      apply elem_of_nil in Hx. exact Hx.
Defined.


Lemma fetch_result_covers_request_witness :
  exists m,
    result_of (imported_get_currencies
                 (Return (feed_document [("USD", PInt 92); ("EUR", PInt 99)]))
                 ["USD"; "EUR"]) = Return m
    /\ is_Some (m !! "EUR").
Proof.
  destruct (result_of (imported_get_currencies
                         (Return (feed_document [("USD", PInt 92); ("EUR", PInt 99)]))
                         ["USD"; "EUR"])) as [m|e] eqn:Hm.
  - exists m. split; [reflexivity|].
    destruct (@fetch_result_covers_request plain_formatting
                (Return (feed_document [("USD", PInt 92); ("EUR", PInt 99)]))
                ["USD"; "EUR"]) as [Hcov _].
    apply (Hcov m Hm). apply list_elem_of_further, list_elem_of_here.
  - vm_compute in Hm. discriminate Hm.
Defined.

Lemma refresh_falls_back_when_feed_raises_witness :
  let fetch := imported_get_currencies (Raise (Exn Timeout "timed out")) in
  exists ctx,
    _handle_currencies fetch "now" _currencies
    = (log_of (fetch (map char_code _currencies)), _currencies, Return ctx)
    /\ stale "now" ctx = true
    /\ outcome "now" ctx = map kept _currencies.
Proof.
  intros fetch.
  apply (refresh_falls_back_when_feed_raises fetch "now" _currencies
           (log_of (fetch (map char_code _currencies)))
           (Exn Timeout "timed out")).
  - repeat (constructor; [vm_compute; reflexivity|]). constructor.
  - vm_compute. reflexivity.
Defined.



Lemma refresh_writes_rates_only_witness :
  let fetch :=
    imported_get_currencies
      (Return (feed_document [("USD", PFloat (f_dec 9210 2))])) in
  let usd := mkCurrency 1 840 "USD" "Dollar" (f_dec 9050 2) 1 in
  Forall2 same_identity [usd]
    (store_after (_handle_currencies fetch "now" [usd])).
Proof.
  intros fetch usd.
  exact (proj1 (refresh_writes_rates_only fetch "now" [usd])).
Defined.

Lemma construction_validates_witness :
  init (PInt 1) (PInt 840) (PStr " usd ") (PStr " Dollar ") (PInt 90) (PInt 100)
  = Return (mkCurrency 1 840 "USD" "Dollar" (f_of_Z 90) 100)
  /\ raises (init (PInt 1) (PInt 840) (PStr "US") (PStr "Dollar") (PInt 90)
               (PInt 100)) = true.
Proof.
  split.
  - destruct (construction_validates 1 840 100 " usd " " Dollar " (PInt 90))
      as [Hok _].
    destruct Hok as (rate & Hrate & Hinit & _);
      [lia|lia|lia|vm_compute; reflexivity|vm_compute; reflexivity
      |vm_compute; reflexivity|].
    vm_compute in Hrate. injection Hrate as <-. exact Hinit.
  - destruct (construction_validates 1 840 100 "US" "Dollar" (PInt 90))
      as [_ Hbad].
    apply Hbad. right. right. right. right. vm_compute. discriminate.
Defined.

Lemma rate_and_nominal_stay_positive_witness :
  let usd := mkCurrency 1 840 "USD" "Dollar" (f_dec 9050 2) 1 in
  valid usd
  /\ get_value_per_unit usd = Return (f_div (f_dec 9050 2) (f_of_Z 1))
  /\ f_leb f_zero (f_div (f_dec 9050 2) (f_of_Z 1)) = true.
Proof.
  intros usd.
  destruct rate_and_nominal_stay_positive as (Hinit & _ & _ & Hunit).
  assert (Hvalid : valid usd).
  { apply (Hinit (PInt 1) (PInt 840) (PStr "USD") (PStr "Dollar")
             (PFloat (f_dec 9050 2)) (PInt 1) usd);
      vm_compute; reflexivity. }
  split; [exact Hvalid|].
  apply (Hunit usd (f_of_Z 1) Hvalid). vm_compute. reflexivity.
Defined.

(* ===================================================================== *)
(** * Further properties of the sources                                   *)
(* ===================================================================== *)

(** ** Stripping and upper-casing *)

Lemma append_nil (t : string) : "" ++ t = t.
Proof. reflexivity. Qed.

Lemma append_cons a (s t : string) : String a s ++ t = String a (s ++ t).
Proof. reflexivity. Qed.

Lemma append_assoc (a b c : string) : (a ++ b) ++ c = a ++ (b ++ c).
Proof.
  induction a as [|x a IH]; [reflexivity|].
  rewrite !append_cons, IH. reflexivity.
Qed.

Lemma append_empty_r (a : string) : a ++ "" = a.
Proof.
  induction a as [|x a IH]; [reflexivity|].
  rewrite append_cons, IH. reflexivity.
Qed.

(** [lstrip] and [all_space] take one white-space character at a time. *)
Lemma lstrip_step s :
  lstrip s = match leading_space s with
             | Some r => lstrip r
             | None => s
             end.
Proof.
  destruct s as [|a [|b [|c r]]]; cbn [lstrip leading_space];
    try reflexivity;
    destruct (is_space a); try reflexivity;
    destruct (is_space2 a b); try reflexivity;
    destruct (is_space3 a b c); reflexivity.
Qed.

Lemma all_space_step s :
  all_space s = match s with
                | EmptyString => true
                | _ => match leading_space s with
                       | Some r => all_space r
                       | None => false
                       end
                end.
Proof.
  destruct s as [|a [|b [|c r]]]; cbn [all_space leading_space];
    try reflexivity;
    destruct (is_space a); try reflexivity;
    destruct (is_space2 a b); try reflexivity;
    destruct (is_space3 a b c); reflexivity.
Qed.

Lemma leading_space_shorter s r :
  leading_space s = Some r -> (String.length r < String.length s)%nat.
Proof.
  destruct s as [|a [|b [|c t]]]; cbn [leading_space]; try discriminate;
    destruct (is_space a); try discriminate;
    try (intros E; injection E as <-; cbn [String.length]; lia);
    destruct (is_space2 a b); try discriminate;
    try (intros E; injection E as <-; cbn [String.length]; lia);
    destruct (is_space3 a b c); try discriminate;
    intros E; injection E as <-; cbn [String.length]; lia.
Qed.

Lemma leading_space_app s r w :
  leading_space s = Some r -> leading_space (s ++ w) = Some (r ++ w).
Proof.
  destruct s as [|a s1]; [discriminate|].
  rewrite append_cons. cbn [leading_space].
  destruct (is_space a); [intros E; injection E as <-; reflexivity|].
  destruct s1 as [|b s2]; [discriminate|].
  rewrite append_cons. cbn match.
  destruct (is_space2 a b); [intros E; injection E as <-; reflexivity|].
  destruct s2 as [|c s3]; [discriminate|].
  rewrite append_cons. cbn match.
  destruct (is_space3 a b c);
    [intros E; injection E as <-; reflexivity|discriminate].
Qed.

Lemma by_length (P : string -> Prop) :
  (forall s, (forall r, (String.length r < String.length s)%nat -> P r) -> P s) ->
  forall s, P s.
Proof.
  intros Hstep s.
  assert (H : forall n r, (String.length r < n)%nat -> P r).
  { induction n as [|n IH]; intros r Hr; [lia|].
    apply Hstep. intros r' Hr'. apply IH. lia. }
  apply (H (S (String.length s))). lia.
Qed.

Lemma lstrip_no_leading_space s : leading_space (lstrip s) = None.
Proof.
  induction s as [s IH] using by_length.
  rewrite lstrip_step. destruct (leading_space s) as [r|] eqn:Hs.
  - apply IH. apply leading_space_shorter. exact Hs.
  - exact Hs.
Qed.

Lemma lstrip_fixed s : leading_space s = None -> lstrip s = s.
Proof. intros Hs. rewrite lstrip_step, Hs. reflexivity. Qed.

Lemma all_space_app p w :
  all_space p = true -> all_space w = true -> all_space (p ++ w) = true.
Proof.
  induction p as [p IH] using by_length. intros Hp Hw.
  destruct p as [|a p']; [exact Hw|].
  rewrite all_space_step in Hp.
  destruct (leading_space (String a p')) as [r|] eqn:Hl; [|discriminate].
  rewrite all_space_step, append_cons, <- append_cons.
  rewrite (leading_space_app _ _ w Hl).
  apply IH; [apply leading_space_shorter; exact Hl|exact Hp|exact Hw].
Qed.

(** What [rstrip] drops is white space. *)
Lemma rstrip_split s :
  exists w, s = rstrip s ++ w /\ all_space w = true.
Proof.
  induction s as [|a r IH]; [exists ""; split; reflexivity|].
  cbn [rstrip]. destruct (all_space (String a r)) eqn:Ha.
  - exists (String a r). split; [reflexivity|exact Ha].
  - destruct IH as (w & Hr & Hw). exists w.
    split; [rewrite append_cons, <- Hr; reflexivity|exact Hw].
Qed.

Lemma rstrip_idem s : rstrip (rstrip s) = rstrip s.
Proof.
  induction s as [|a r IH]; [reflexivity|].
  cbn [rstrip]. destruct (all_space (String a r)) eqn:Ha; [reflexivity|].
  cbn [rstrip]. destruct (all_space (String a (rstrip r))) eqn:Hb.
  - exfalso. destruct (rstrip_split r) as (w & Hr & Hw).
    pose proof (all_space_app _ _ Hb Hw) as Hall.
    rewrite append_cons, <- Hr, Ha in Hall. discriminate Hall.
  - rewrite IH. reflexivity.
Qed.

Lemma rstrip_no_leading_space s :
  leading_space s = None -> leading_space (rstrip s) = None.
Proof.
  intros Hs. destruct (leading_space (rstrip s)) as [r|] eqn:Hr;
    [|reflexivity].
  destruct (rstrip_split s) as (w & Hsplit & _).
  pose proof (leading_space_app _ _ w Hr) as Happ.
  rewrite <- Hsplit, Hs in Happ. discriminate Happ.
Qed.

Lemma strip_idem s : strip (strip s) = strip s.
Proof.
  unfold strip.
  rewrite (lstrip_fixed (rstrip (lstrip s)))
    by (apply rstrip_no_leading_space, lstrip_no_leading_space).
  apply rstrip_idem.
Qed.

(** *** On ASCII text *)

Lemma is_space_upper a : is_space (upper_ascii a) = is_space a.
Proof. destruct a as [[] [] [] [] [] [] [] []]; reflexivity. Qed.

Lemma upper_ascii_idem a : upper_ascii (upper_ascii a) = upper_ascii a.
Proof. destruct a as [[] [] [] [] [] [] [] []]; reflexivity. Qed.

Lemma upper_ascii_ascii a :
  (byte_of (upper_ascii a) <? 128) = (byte_of a <? 128).
Proof. destruct a as [[] [] [] [] [] [] [] []]; reflexivity. Qed.

Lemma ascii_not_continuation a :
  (byte_of a <? 128) = true -> is_continuation a = false.
Proof.
  unfold is_continuation. intros Ha. apply Z.ltb_lt in Ha.
  destruct (128 <=? byte_of a) eqn:Hb; [|reflexivity].
  apply Z.leb_le in Hb. lia.
Qed.

Lemma ascii_not_space2 a b : (byte_of a <? 128) = true -> is_space2 a b = false.
Proof.
  unfold is_space2. intros Ha. apply Z.ltb_lt in Ha.
  destruct (byte_of a =? 194) eqn:Hb; [|reflexivity].
  apply Z.eqb_eq in Hb. lia.
Qed.

Lemma ascii_not_space3 a b c :
  (byte_of a <? 128) = true -> is_space3 a b c = false.
Proof.
  unfold is_space3. intros Ha. apply Z.ltb_lt in Ha.
  destruct (byte_of a =? 225) eqn:H1; [apply Z.eqb_eq in H1; lia|].
  destruct (byte_of a =? 226) eqn:H2; [apply Z.eqb_eq in H2; lia|].
  destruct (byte_of a =? 227) eqn:H3; [apply Z.eqb_eq in H3; lia|].
  reflexivity.
Qed.

Lemma leading_space_ascii a r :
  (byte_of a <? 128) = true ->
  leading_space (String a r) = if is_space a then Some r else None.
Proof.
  intros Ha. cbn [leading_space]. destruct (is_space a); [reflexivity|].
  destruct r as [|b [|c t]]; try reflexivity;
    rewrite (ascii_not_space2 a b Ha); try reflexivity.
  rewrite (ascii_not_space3 a b c Ha). reflexivity.
Qed.

Lemma lstrip_ascii a r :
  (byte_of a <? 128) = true ->
  lstrip (String a r) = if is_space a then lstrip r else String a r.
Proof.
  intros Ha. rewrite lstrip_step, (leading_space_ascii a r Ha).
  destruct (is_space a); reflexivity.
Qed.

Lemma all_space_ascii a r :
  (byte_of a <? 128) = true ->
  all_space (String a r) = is_space a && all_space r.
Proof.
  intros Ha. rewrite all_space_step, (leading_space_ascii a r Ha).
  destruct (is_space a); reflexivity.
Qed.

Lemma upper_ascii_text s :
  ascii_text s = true -> ascii_text (upper s) = true.
Proof.
  induction s as [|a r IH]; [reflexivity|].
  cbn [ascii_text upper]. intros Hs. apply andb_true_iff in Hs as [Ha Hr].
  rewrite Ha. cbn [ascii_text]. rewrite upper_ascii_ascii, Ha. exact (IH Hr).
Qed.

Lemma upper_idem s : ascii_text s = true -> upper (upper s) = upper s.
Proof.
  induction s as [|a r IH]; [reflexivity|].
  cbn [ascii_text upper]. intros Hs. apply andb_true_iff in Hs as [Ha Hr].
  rewrite Ha. cbn [upper]. rewrite upper_ascii_ascii, Ha, upper_ascii_idem.
  rewrite (IH Hr). reflexivity.
Qed.

Lemma len_upper s : ascii_text s = true -> len (upper s) = len s.
Proof.
  unfold len. intros Hs. f_equal. induction s as [|a r IH]; [reflexivity|].
  cbn [ascii_text] in Hs. apply andb_true_iff in Hs as [Ha Hr].
  cbn [upper]. rewrite Ha. cbn [characters].
  rewrite (ascii_not_continuation a Ha).
  rewrite (ascii_not_continuation (upper_ascii a))
    by (rewrite upper_ascii_ascii; exact Ha).
  rewrite (IH Hr). reflexivity.
Qed.

Lemma lstrip_ascii_text s :
  ascii_text s = true -> ascii_text (lstrip s) = true.
Proof.
  induction s as [|a r IH]; [reflexivity|].
  intros Hs. pose proof Hs as Hs'.
  cbn [ascii_text] in Hs. apply andb_true_iff in Hs as [Ha Hr].
  rewrite (lstrip_ascii a r Ha). destruct (is_space a); [exact (IH Hr)|exact Hs'].
Qed.

Lemma rstrip_ascii_text s :
  ascii_text s = true -> ascii_text (rstrip s) = true.
Proof.
  induction s as [|a r IH]; [reflexivity|].
  intros Hs. cbn [ascii_text] in Hs. apply andb_true_iff in Hs as [Ha Hr].
  cbn [rstrip]. destruct (all_space (String a r)); [reflexivity|].
  cbn [ascii_text]. rewrite Ha. exact (IH Hr).
Qed.

Lemma strip_ascii_text s :
  ascii_text s = true -> ascii_text (strip s) = true.
Proof. intros Hs. apply rstrip_ascii_text, lstrip_ascii_text, Hs. Qed.

Lemma lstrip_upper s :
  ascii_text s = true -> lstrip (upper s) = upper (lstrip s).
Proof.
  induction s as [|a r IH]; [reflexivity|].
  intros Hs. cbn [ascii_text] in Hs. apply andb_true_iff in Hs as [Ha Hr].
  rewrite (lstrip_ascii a r Ha). cbn [upper]. rewrite Ha.
  rewrite lstrip_ascii by (rewrite upper_ascii_ascii; exact Ha).
  rewrite is_space_upper. destruct (is_space a); [exact (IH Hr)|].
  cbn [upper]. rewrite Ha. reflexivity.
Qed.

Lemma all_space_upper s :
  ascii_text s = true -> all_space (upper s) = all_space s.
Proof.
  induction s as [|a r IH]; [reflexivity|].
  intros Hs. cbn [ascii_text] in Hs. apply andb_true_iff in Hs as [Ha Hr].
  cbn [upper]. rewrite Ha.
  rewrite all_space_ascii by (rewrite upper_ascii_ascii; exact Ha).
  rewrite (all_space_ascii a r Ha), is_space_upper, (IH Hr). reflexivity.
Qed.

Lemma rstrip_upper s :
  ascii_text s = true -> rstrip (upper s) = upper (rstrip s).
Proof.
  induction s as [|a r IH]; [reflexivity|].
  intros Hs. pose proof (all_space_upper _ Hs) as Hall.
  cbn [ascii_text] in Hs. apply andb_true_iff in Hs as [Ha Hr].
  cbn [upper] in *. rewrite Ha in *. cbn [rstrip]. rewrite Hall.
  destruct (all_space (String a r)); [reflexivity|].
  cbn [upper]. rewrite Ha, (IH Hr). reflexivity.
Qed.

Lemma strip_upper s :
  ascii_text s = true -> strip (upper s) = upper (strip s).
Proof.
  intros Hs. unfold strip.
  rewrite (lstrip_upper s Hs), (rstrip_upper _ (lstrip_ascii_text s Hs)).
  reflexivity.
Qed.

(** ** The rate record: validated fields *)

Lemma setter_int_positive (check : pyval -> result Z) v z :
  (check = Setter.id \/ check = Setter.num_code \/ check = Setter.nominal) ->
  check v = Return z -> 0 < z /\ check (PInt z) = Return z.
Proof.
  intros [-> | [-> | ->]];
    unfold Setter.id, Setter.num_code, Setter.nominal;
    (destruct (as_int v) as [x|]; [|discriminate]);
    (destruct (x <=? 0) eqn:Hx; [discriminate|]);
    intros E; injection E as <-; cbn [as_int]; rewrite Hx;
    (split; [apply Z.leb_gt; exact Hx|reflexivity]).
Qed.

Lemma setter_char_code_stored v t :
  Setter.char_code v = Return t ->
  exists s, v = PStr s /\ len (strip s) = 3 /\ t = upper (strip s).
Proof.
  unfold Setter.char_code. destruct v as [| | | |s| |]; try discriminate.
  cbn [as_str]. destruct (is_empty (strip s)); [discriminate|].
  destruct (len (strip s) =? 3) eqn:Hl; [|discriminate]. cbn [negb].
  intros E. injection E as <-. apply Z.eqb_eq in Hl. eauto.
Qed.

Lemma setter_char_code_normal s t :
  ascii_text s = true ->
  Setter.char_code (PStr s) = Return t ->
  len t = 3 /\ strip t = t /\ upper t = t.
Proof.
  intros Ha Ht. destruct (setter_char_code_stored _ _ Ht) as (s' & E & Hl & ->).
  injection E as <-. pose proof (strip_ascii_text s Ha) as Hs.
  split; [rewrite (len_upper _ Hs); exact Hl|]. split.
  - rewrite (strip_upper _ Hs), strip_idem. reflexivity.
  - apply upper_idem. exact Hs.
Qed.

Lemma setter_char_code_accepts t :
  len t = 3 -> strip t = t -> upper t = t ->
  Setter.char_code (PStr t) = Return t.
Proof.
  intros L S U. unfold Setter.char_code. cbn [as_str]. rewrite S, L, U.
  assert (He : is_empty t = false) by (destruct t; [discriminate L|reflexivity]).
  rewrite He. reflexivity.
Qed.

Lemma setter_name_normal v t :
  Setter.name v = Return t -> strip t = t /\ is_empty t = false.
Proof.
  unfold Setter.name. destruct (as_str v) as [s|]; [|discriminate].
  destruct (is_empty (strip s)) eqn:He; [discriminate|].
  intros E. injection E as <-. split; [apply strip_idem|exact He].
Qed.

Lemma setter_value_stored v rate :
  Setter.value v = Return rate -> Setter.value (PFloat rate) = Return rate.
Proof.
  unfold Setter.value at 1.
  destruct (negb (is_int_or_float v)) eqn:Hi; [discriminate|].
  destruct (le_zero v) eqn:Hl; [discriminate|].
  assert (Hgoal : f_leb rate f_zero = false ->
                  Setter.value (PFloat rate) = Return rate).
  { intros Hr. unfold Setter.value. cbn [is_int_or_float negb le_zero to_float].
    rewrite Hr. reflexivity. }
  destruct v as [|b|z|f| | |]; try discriminate Hi; cbn [to_float].
  - destruct b; [|discriminate Hl]. intros E. injection E as <-.
    apply Hgoal. vm_compute. reflexivity.
  - intros E. apply Z.leb_gt in Hl.
    destruct (float_of_int_positive z rate Hl E) as (m & e & ->).
    apply Hgoal. reflexivity.
  - intros E. injection E as <-. apply Hgoal. exact Hl.
Qed.

(** X1. Every constructed [Currency] has a positive id, numeric code and
    nominal, a name that is stripped and not empty, and a code that is the
    upper case of a stripped text of three characters; every setter that
    returns keeps all of this.  When the code is given in ASCII
    characters, the stored code itself has exactly three characters, no
    white space around them and no lower-case letter, and the setters keep
    that too as long as codes are assigned in ASCII characters. *)
Theorem currency_stays_well_formed :
  (forall i n code nm v m c,
     init i n code nm v m = Return c -> constructed c)
  /\
  (forall c c' x, constructed c ->
     (set_id c x = Return c' \/ set_num_code c x = Return c'
      \/ set_char_code c x = Return c' \/ set_name c x = Return c'
      \/ set_value c x = Return c' \/ set_nominal c x = Return c') ->
     constructed c')
  /\
  (forall i n code nm v m c,
     ascii_text code = true ->
     init i n (PStr code) nm v m = Return c -> well_formed c)
  /\
  (forall c c' x code, well_formed c -> ascii_text code = true ->
     (set_id c x = Return c' \/ set_num_code c x = Return c'
      \/ set_char_code c (PStr code) = Return c' \/ set_name c x = Return c'
      \/ set_value c x = Return c' \/ set_nominal c x = Return c') ->
     well_formed c').
Proof.
  assert (Hint : forall check v z,
            check = Setter.id \/ check = Setter.num_code
            \/ check = Setter.nominal ->
            check v = Return z -> 0 < z).
  { intros check v z Hc Hz.
    exact (proj1 (setter_int_positive check v z Hc Hz)). }
  assert (Hcode : forall v t, Setter.char_code v = Return t ->
            exists u, strip u = u /\ len u = 3 /\ t = upper u).
  { intros v t Ht. destruct (setter_char_code_stored v t Ht) as (s & _ & L & E).
    exists (strip s). split; [apply strip_idem|]. split; assumption. }
  split; [|split; [|split]].
  - intros i n code nm v m c. unfold init.
    destruct (Setter.id i) as [i'|] eqn:Hi; [|discriminate]. cbn [bind].
    destruct (Setter.num_code n) as [n'|] eqn:Hn; [|discriminate]. cbn [bind].
    destruct (Setter.char_code code) as [t|] eqn:Hc; [|discriminate]. cbn [bind].
    destruct (Setter.name nm) as [s|] eqn:Hs; [|discriminate]. cbn [bind].
    destruct (Setter.value v) as [r|]; [|discriminate]. cbn [bind].
    destruct (Setter.nominal m) as [m'|] eqn:Hm; [|discriminate]. cbn [bind].
    intros E. injection E as <-.
    destruct (setter_name_normal nm s Hs) as (S' & N).
    unfold constructed. cbn [id num_code nominal name char_code].
    split; [exact (Hint _ _ _ (or_introl eq_refl) Hi)|].
    split; [exact (Hint _ _ _ (or_intror (or_introl eq_refl)) Hn)|].
    split; [exact (Hint _ _ _ (or_intror (or_intror eq_refl)) Hm)|].
    split; [exact S'|]. split; [exact N|]. exact (Hcode code t Hc).
  - intros c c' x (Pi & Pn & Pm & S' & N & C) Hset.
    destruct Hset as [Hs|[Hs|[Hs|[Hs|[Hs|Hs]]]]];
      revert Hs; unfold set_id, set_num_code, set_char_code, set_name,
        set_value, set_nominal.
    + destruct (Setter.id x) as [z|] eqn:Hz; [|discriminate]. cbn [bind].
      intros E. injection E as <-.
      pose proof (Hint _ _ _ (or_introl eq_refl) Hz).
      unfold constructed; cbn; auto 10.
    + destruct (Setter.num_code x) as [z|] eqn:Hz; [|discriminate]. cbn [bind].
      intros E. injection E as <-.
      pose proof (Hint _ _ _ (or_intror (or_introl eq_refl)) Hz).
      unfold constructed; cbn; auto 10.
    + destruct (Setter.char_code x) as [t|] eqn:Ht; [|discriminate]. cbn [bind].
      intros E. injection E as <-.
      pose proof (Hcode x t Ht).
      unfold constructed; cbn; auto 10.
    + destruct (Setter.name x) as [t|] eqn:Ht; [|discriminate]. cbn [bind].
      intros E. injection E as <-.
      destruct (setter_name_normal x t Ht) as (S2 & N2).
      unfold constructed; cbn; auto 10.
    + destruct (Setter.value x) as [r|]; [|discriminate]. cbn [bind].
      intros E. injection E as <-.
      unfold constructed; cbn; auto 10.
    + destruct (Setter.nominal x) as [z|] eqn:Hz; [|discriminate]. cbn [bind].
      intros E. injection E as <-.
      pose proof (Hint _ _ _ (or_intror (or_intror eq_refl)) Hz).
      unfold constructed; cbn; auto 10.
  - intros i n code nm v m c Ha. unfold init.
    destruct (Setter.id i) as [i'|] eqn:Hi; [|discriminate]. cbn [bind].
    destruct (Setter.num_code n) as [n'|] eqn:Hn; [|discriminate]. cbn [bind].
    destruct (Setter.char_code (PStr code)) as [t|] eqn:Hc; [|discriminate].
    cbn [bind].
    destruct (Setter.name nm) as [s|] eqn:Hs; [|discriminate]. cbn [bind].
    destruct (Setter.value v) as [r|]; [|discriminate]. cbn [bind].
    destruct (Setter.nominal m) as [m'|] eqn:Hm; [|discriminate]. cbn [bind].
    intros E. injection E as <-.
    destruct (setter_char_code_normal code t Ha Hc) as (L & S & U).
    destruct (setter_name_normal nm s Hs) as (S' & N).
    unfold well_formed. cbn [id num_code nominal name char_code].
    split; [exact (Hint _ _ _ (or_introl eq_refl) Hi)|].
    split; [exact (Hint _ _ _ (or_intror (or_introl eq_refl)) Hn)|].
    split; [exact (Hint _ _ _ (or_intror (or_intror eq_refl)) Hm)|].
    auto 10.
  - intros c c' x code (Pi & Pn & Pm & L & S & U & S' & N) Ha Hset.
    destruct Hset as [Hs|[Hs|[Hs|[Hs|[Hs|Hs]]]]];
      revert Hs; unfold set_id, set_num_code, set_char_code, set_name,
        set_value, set_nominal.
    + destruct (Setter.id x) as [z|] eqn:Hz; [|discriminate]. cbn [bind].
      intros E. injection E as <-.
      pose proof (Hint _ _ _ (or_introl eq_refl) Hz).
      unfold well_formed; cbn; auto 10.
    + destruct (Setter.num_code x) as [z|] eqn:Hz; [|discriminate]. cbn [bind].
      intros E. injection E as <-.
      pose proof (Hint _ _ _ (or_intror (or_introl eq_refl)) Hz).
      unfold well_formed; cbn; auto 10.
    + destruct (Setter.char_code (PStr code)) as [t|] eqn:Ht; [|discriminate].
      cbn [bind]. intros E. injection E as <-.
      destruct (setter_char_code_normal code t Ha Ht) as (L2 & S2 & U2).
      unfold well_formed; cbn; auto 10.
    + destruct (Setter.name x) as [t|] eqn:Ht; [|discriminate]. cbn [bind].
      intros E. injection E as <-.
      destruct (setter_name_normal x t Ht) as (S2 & N2).
      unfold well_formed; cbn; auto 10.
    + destruct (Setter.value x) as [r|]; [|discriminate]. cbn [bind].
      intros E. injection E as <-.
      unfold well_formed; cbn; auto 10.
    + destruct (Setter.nominal x) as [z|] eqn:Hz; [|discriminate]. cbn [bind].
      intros E. injection E as <-.
      pose proof (Hint _ _ _ (or_intror (or_intror eq_refl)) Hz).
      unfold well_formed; cbn; auto 10.
Qed.

(** X2. Handing a constructed object its own attributes back through the
    setters changes nothing: the assignments [c.id = c.id],
    [c.num_code = c.num_code], [c.name = c.name], [c.value = c.value] and
    [c.nominal = c.nominal] return and leave the object as it was, and so
    does [c.char_code = c.char_code] when the code was given in ASCII
    characters.  (A code whose upper case is longer than three
    characters is stored by the constructor and refused when assigned
    again.) *)
Theorem currency_setters_accept_stored_values i n code nm v m c :
  init i n code nm v m = Return c ->
  set_id c (PInt (id c)) = Return c
  /\ set_num_code c (PInt (num_code c)) = Return c
  /\ set_name c (PStr (name c)) = Return c
  /\ set_value c (PFloat (value c)) = Return c
  /\ set_nominal c (PInt (nominal c)) = Return c
  /\ (forall s, code = PStr s -> ascii_text s = true ->
      set_char_code c (PStr (char_code c)) = Return c).
Proof.
  unfold init.
  destruct (Setter.id i) as [i'|] eqn:Hi; [|discriminate]. cbn [bind].
  destruct (Setter.num_code n) as [n'|] eqn:Hn; [|discriminate]. cbn [bind].
  destruct (Setter.char_code code) as [t|] eqn:Hc; [|discriminate]. cbn [bind].
  destruct (Setter.name nm) as [s|] eqn:Hs; [|discriminate]. cbn [bind].
  destruct (Setter.value v) as [r|] eqn:Hv; [|discriminate]. cbn [bind].
  destruct (Setter.nominal m) as [m'|] eqn:Hm; [|discriminate]. cbn [bind].
  intros E. injection E as <-.
  destruct (setter_int_positive Setter.id i i' (or_introl eq_refl) Hi) as [_ Ri].
  destruct (setter_int_positive Setter.num_code n n'
              (or_intror (or_introl eq_refl)) Hn) as [_ Rn].
  destruct (setter_int_positive Setter.nominal m m'
              (or_intror (or_intror eq_refl)) Hm) as [_ Rm].
  destruct (setter_name_normal nm s Hs) as (S' & N).
  pose proof (setter_value_stored v r Hv) as Rv.
  unfold set_id, set_num_code, set_char_code, set_name, set_value, set_nominal.
  cbn [id num_code char_code name value nominal].
  rewrite Ri, Rn, Rv, Rm. cbn [bind].
  unfold Setter.name. cbn [as_str]. rewrite S', N. cbn [bind].
  repeat (split; [reflexivity|]).
  intros s0 -> Ha.
  destruct (setter_char_code_normal s0 t Ha Hc) as (L & S & U).
  rewrite (setter_char_code_accepts t L S U). reflexivity.
Qed.

(** ** The feed client: what it returns and what it logs *)

Section FetchMore.
Context `{Formatting}.
Variable response : result pyval.

Lemma log_of_lbind {A B} (m : logged A) (k : A -> logged B) :
  log_of (lbind m k)
  = (log_of m ++ match result_of m with
                 | Return a => log_of (k a)
                 | Raise _ => []
                 end)%list.
Proof.
  destruct m as [t [a|e]]; cbn [lbind log_of result_of fst snd].
  - destruct (k a); reflexivity.
  - rewrite app_nil_r. reflexivity.
Qed.

Lemma log_of_lcatch {A} (m : logged A) (h : exn -> logged A) :
  log_of (lcatch m h)
  = (log_of m ++ match result_of m with
                 | Return _ => []
                 | Raise e => log_of (h e)
                 end)%list.
Proof.
  destruct m as [t [a|e]]; cbn [lcatch log_of result_of fst snd].
  - rewrite app_nil_r. reflexivity.
  - destruct (h e); reflexivity.
Qed.

(** One pass of the loop, by [quote_of]. *)
Lemma result_of_collect_quote data code rest acc :
  result_of (collect data (code :: rest) acc)
  = (let* v := quote_of data code in
     result_of (collect data rest (<[code := v]> acc))).
Proof.
  rewrite result_of_collect_cons. unfold quote_of.
  destruct (getitem data "Valute") as [valute|]; cbn [bind]; [|reflexivity].
  destruct (contains valute code) as [[|]|]; cbn [bind]; try reflexivity.
  destruct (getitem valute code) as [entry|]; cbn [bind]; [|reflexivity].
  destruct (getitem entry "Value") as [v|]; cbn [bind]; [|reflexivity].
  destruct (negb (is_int_or_float v)); reflexivity.
Qed.


Lemma collect_returns data codes :
  forall acc m,
    result_of (collect data codes acc) = Return m ->
    (forall code, code ∈ codes -> returns (quote_of data code) = true)
    /\ forall k, m !! k = if bool_decide (k ∈ codes)
                          then quoted_value data k else acc !! k.
Proof.
  induction codes as [|code rest IH]; intros acc m Hm.
  - cbn in Hm. injection Hm as <-. split.
    + intros code Hin. apply elem_of_nil in Hin. contradiction.
    + intros k. rewrite bool_decide_eq_false_2 by apply not_elem_of_nil.
      reflexivity.
  - rewrite result_of_collect_quote in Hm.
    destruct (quote_of data code) as [v|] eqn:Hq; cbn [bind] in Hm; [|discriminate].
    destruct (IH _ _ Hm) as [Hall Hk]. split.
    + intros c Hin. apply elem_of_cons in Hin as [->|Hin].
      * rewrite Hq. reflexivity.
      * exact (Hall c Hin).
    + intros k. rewrite Hk. destruct (decide (k = code)) as [->|Hne].
      * rewrite (bool_decide_eq_true_2 (code ∈ code :: rest))
          by apply list_elem_of_here.
        case_bool_decide; [reflexivity|].
        rewrite lookup_insert_eq. unfold quoted_value. rewrite Hq. reflexivity.
      * rewrite lookup_insert_ne by congruence.
        rewrite (bool_decide_ext (k ∈ code :: rest) (k ∈ rest)); [reflexivity|].
        rewrite elem_of_cons. tauto.
Qed.

Lemma collect_total data codes :
  (forall code, code ∈ codes -> returns (quote_of data code) = true) ->
  forall acc, exists m, result_of (collect data codes acc) = Return m.
Proof.
  induction codes as [|code rest IH]; intros Hall acc.
  - exists acc. reflexivity.
  - rewrite result_of_collect_quote.
    pose proof (Hall code (list_elem_of_here _ _)) as Hq.
    destruct (quote_of data code) as [v|]; [|discriminate]. cbn [bind].
    apply IH. intros c Hin. apply Hall. apply list_elem_of_further. exact Hin.
Qed.

(** When the call returns, the network step returned a document in which
    ["Valute"] can be found, and the loop returned. *)
Lemma get_currencies_returns_inv codes m :
  result_of (get_currencies response codes) = Return m ->
  exists data,
    response = Return data
    /\ contains data "Valute" = Return true
    /\ result_of (collect data codes ∅) = Return m.
Proof.
  rewrite result_of_get_currencies.
  destruct response as [data|]; cbn [bind]; [|discriminate].
  destruct (contains data "Valute") as [[|]|] eqn:Hc; cbn [bind];
    try discriminate.
  intros Hm. exists data. auto.
Qed.


(** X4. Whether the call returns, and what it returns for a code, does
    not depend on the order of the request or on repetitions in it: when
    the call returns for a list of codes, it returns for every list made
    of codes of that list, and the two dictionaries agree on the codes of
    the second list. *)
Theorem fetch_is_monotone_in_the_request codes codes' m :
  result_of (get_currencies response codes) = Return m ->
  (forall k, k ∈ codes' -> k ∈ codes) ->
  exists m',
    result_of (get_currencies response codes') = Return m'
    /\ forall k, m' !! k = if bool_decide (k ∈ codes') then m !! k else None.
Proof.
  intros Hm Hsub.
  destruct (get_currencies_returns_inv codes m Hm) as (data & Hr & Hv & Hc).
  destruct (collect_returns data codes ∅ m Hc) as [Hall Hk].
  destruct (collect_total data codes' (fun c Hin => Hall c (Hsub c Hin)) ∅)
    as (m' & Hm').
  exists m'. split.
  - rewrite result_of_get_currencies, Hr. cbn [bind]. rewrite Hv. exact Hm'.
  - destruct (collect_returns data codes' ∅ m' Hm') as [_ Hk'].
    intros k. rewrite Hk'. case_bool_decide as Hin; [|apply lookup_empty].
    rewrite Hk, bool_decide_eq_true_2 by (apply Hsub; exact Hin). reflexivity.
Qed.

(** The loop writes no INFO record and at most one ERROR record, and none
    when it returns. *)
Lemma collect_log data codes :
  forall acc,
    count_level INFO (log_of (collect data codes acc)) = 0%nat
    /\ (count_level ERROR (log_of (collect data codes acc)) <= 1)%nat
    /\ (returns (result_of (collect data codes acc)) = true ->
        log_of (collect data codes acc) = []).
Proof.
  induction codes as [|code rest IH]; intros acc.
  - cbn. repeat split; lia.
  - cbn [collect].
    destruct (getitem data "Valute") as [valute|];
      cbn [lift lbind app log_of result_of fst snd count_level returns];
      [|repeat split; (lia || discriminate)].
    destruct (contains valute code) as [[|]|];
      cbn [lbind app log_of result_of fst snd count_level returns emit lraise
             has_level level_of];
      try (repeat split; (lia || discriminate)).
    destruct (getitem valute code) as [entry|];
      cbn [lbind app log_of result_of fst snd count_level returns];
      [|repeat split; (lia || discriminate)].
    destruct (getitem entry "Value") as [v|];
      cbn [lbind app log_of result_of fst snd count_level returns];
      [|repeat split; (lia || discriminate)].
    destruct (negb (is_int_or_float v));
      cbn [lbind app log_of result_of fst snd count_level returns emit lraise
             has_level level_of];
      [repeat split; (lia || discriminate)|].
    specialize (IH (<[code := v]> acc)).
    destruct (collect data rest (<[code := v]> acc)) as [t r].
    cbn [log_of result_of fst snd app] in *. exact IH.
Qed.

Lemma try_block_log codes :
  match result_of (try_block response codes) with
  | Return m =>
      log_of (try_block response codes)
      = [Info ("Успешное завершение работы функции get_currencies. Результат: currencies = "
               ++ repr_rates m)]
  | Raise _ =>
      count_level INFO (log_of (try_block response codes)) = 0%nat
      /\ (count_level ERROR (log_of (try_block response codes)) <= 1)%nat
  end.
Proof.
  unfold try_block.
  destruct response as [data|];
    cbn [lift lbind app log_of result_of fst snd count_level]; [|split; lia].
  destruct (contains data "Valute") as [[|]|];
    cbn [lbind app log_of result_of fst snd count_level emit lraise
           has_level level_of];
    try (split; lia).
  destruct (collect_log data codes ∅) as (Hi & He & Hr).
  destruct (collect data codes ∅) as [tc [m|e]];
    cbn [lbind app log_of result_of fst snd emit lret returns] in *.
  - rewrite (Hr eq_refl). reflexivity.
  - split; assumption.
Qed.

(** X5. The log of a call tells how it ended.  A call that returns
    writes four records, all of level INFO: the two start records, then
    the two completion records, which print the dictionary returned.  A
    call that raises writes the two INFO start records, then at most one
    ERROR record of its own, then the ERROR record of the [except] clause
    that re-raised, then the ERROR record of the decorator: no completion
    record, and at least two and at most three ERROR records. *)
Theorem fetch_log_tells_the_outcome codes :
  match result_of (get_currencies response codes) with
  | Return m =>
      log_of (get_currencies response codes)
      = [Info (start_msg "get_currencies" repr_call_args codes);
         Info ("Начало работы функции get_currencies. Аргументы: currency_codes = "
               ++ repr_codes codes);
         Info ("Успешное завершение работы функции get_currencies. Результат: currencies = "
               ++ repr_rates m);
         Info (done_msg "get_currencies" repr_rates m)]
  | Raise e =>
      exists own,
        log_of (get_currencies response codes)
        = ([Info (start_msg "get_currencies" repr_call_args codes);
            Info ("Начало работы функции get_currencies. Аргументы: currency_codes = "
                  ++ repr_codes codes)]
           ++ own
           ++ [Error (clause_prefix e ++ str_exn e); Error (error_msg e)])%list
        /\ count_level INFO own = 0%nat
        /\ (count_level ERROR own <= 1)%nat
  end.
Proof.
  pose proof (try_block_log codes) as Ht.
  assert (Hw : get_currencies__wrapped__ response codes
               = match try_block response codes with
                 | (tl, Return m) =>
                     (Info ("Начало работы функции get_currencies. Аргументы: currency_codes = "
                            ++ repr_codes codes) :: tl, Return m)
                 | (tl, Raise e) =>
                     (Info ("Начало работы функции get_currencies. Аргументы: currency_codes = "
                            ++ repr_codes codes)
                        :: tl ++ [Error (clause_prefix e ++ str_exn e)], Raise e)
                 end).
  { unfold get_currencies__wrapped__, except_clauses, clause_prefix.
    destruct (try_block response codes) as [tl [m|e]]; reflexivity. }
  unfold get_currencies, decorate, logger.
  destruct (try_block response codes) as [tl [m|e]];
    cbn [result_of log_of fst snd] in Ht.
  - rewrite (inner_returns "get_currencies" repr_call_args repr_rates
               _ file_log codes _ m eq_refl Hw).
    cbn [result_of log_of fst snd]. rewrite Ht. reflexivity.
  - rewrite (inner_raises "get_currencies" repr_call_args repr_rates
               _ file_log codes _ e eq_refl Hw).
    cbn [result_of log_of fst snd]. exists tl. split; [|exact Ht].
    cbn [info_record error_record file_log has_info has_error].
    cbn [app]. rewrite <- app_assoc. reflexivity.
Qed.

(** X6. An exception of the network step, whatever its class, leaves
    [get_currencies] as the same exception, for every request; no code is
    looked at.  The log shows the two start records and two ERROR records,
    the first with the text of the [except] clause that the class selects. *)
Theorem fetch_passes_network_failures_through e codes :
  response = Raise e ->
  get_currencies response codes
  = ([Info (start_msg "get_currencies" repr_call_args codes);
      Info ("Начало работы функции get_currencies. Аргументы: currency_codes = "
            ++ repr_codes codes);
      Error (clause_prefix e ++ str_exn e);
      Error (error_msg e)],
     Raise e).
Proof.
  intros Hr.
  unfold get_currencies, decorate, logger, inner, get_currencies__wrapped__,
    try_block, except_clauses, clause_prefix.
  rewrite Hr. reflexivity.
Qed.
End FetchMore.

(** ** The decorator on a handle that is no sink *)

Section LoggerMore.
Context `{Formatting} {A R : Type}.
Variables (func_name : string) (repr_args : A -> string)
          (str_result : R -> string).

(** X7. On a handle that has neither [info] nor [write], the wrapped
    operation raises [AttributeError] before the original operation is
    called: the outcome and the log are the same whatever the original
    operation is, and the log holds at most the ERROR record for the
    [AttributeError] itself. *)
Theorem logger_without_info_or_write_never_calls h args :
  has_info h = false -> has_write h = false ->
  exists e,
    exn_class e = AttributeError
    /\ forall func : A -> logged R,
         inner func_name repr_args str_result func (Some h) args
         = ((if has_error h then [Error (error_msg e)] else []), Raise e).
Proof.
  intros Hi Hw. exists (Exn AttributeError "write"). split; [reflexivity|].
  intros func.
  unfold inner, lcatch, lbind, log_info, log_error, call_write, lraise, emit.
  rewrite Hi, Hw. destruct (has_error h); reflexivity.
Qed.
End LoggerMore.

(** ** The handler: what the table shows and what can escape *)

Section HandlerMore.
Variable fetch : list string -> logged (gmap string pyval).
Variable now : string.

Lemma make_row_shows c change r :
  make_row c change = Return r -> shows c r /\ row_change r = change.
Proof.
  unfold make_row, shows.
  destruct (get_value_per_unit c) as [u|]; [|discriminate]. cbn [bind].
  intros E. injection E as <-. repeat split.
Qed.

Lemma make_row_raises c change e :
  make_row c change = Raise e -> get_value_per_unit c = Raise e.
Proof.
  unfold make_row. destruct (get_value_per_unit c) as [u|]; [discriminate|].
  cbn [bind]. intros E. injection E as <-. reflexivity.
Qed.

Lemma static_rows_shows store rows :
  static_rows store = Return rows ->
  Forall2 (fun c r => shows c r /\ row_change r = PInt 0) store rows.
Proof.
  revert rows. induction store as [|c rest IH]; intros rows; cbn [static_rows].
  - intros E. injection E as <-. constructor.
  - destruct (make_row c (PInt 0)) as [r|] eqn:Hr; [|discriminate]. cbn [bind].
    destruct (static_rows rest) as [rs|]; [|discriminate]. cbn [bind].
    intros E. injection E as <-. constructor.
    + exact (make_row_shows c (PInt 0) r Hr).
    + apply IH. reflexivity.
Qed.

Lemma static_rows_raises store e :
  static_rows store = Raise e ->
  exists c, c ∈ store /\ get_value_per_unit c = Raise e.
Proof.
  induction store as [|c rest IH]; cbn [static_rows]; [discriminate|].
  destruct (make_row c (PInt 0)) as [r|] eqn:Hr; cbn [bind].
  - destruct (static_rows rest) as [rs|]; cbn [bind]; [discriminate|].
    intros E. injection E as <-.
    destruct (IH eq_refl) as (c' & Hin & Hc').
    exists c'. split; [apply list_elem_of_further; exact Hin|exact Hc'].
  - intros E. injection E as <-.
    exists c. split; [apply list_elem_of_here|].
    exact (make_row_raises c (PInt 0) _ Hr).
Qed.

Lemma refresh_one_shows api c c' r :
  refresh_one api c = (c', Return r) -> shows c' r.
Proof.
  unfold refresh_one. destruct (api !! char_code c) as [v|].
  - destruct (set_value c v) as [c1|]; [|discriminate].
    intros E. injection E as <- Hr.
    exact (proj1 (make_row_shows _ _ _ Hr)).
  - intros E. injection E as <- Hr.
    exact (proj1 (make_row_shows _ _ _ Hr)).
Qed.

Lemma refresh_all_shows api store store' rows :
  refresh_all api store = (store', Return rows) ->
  Forall2 shows store' rows.
Proof.
  revert store' rows.
  induction store as [|c rest IH]; intros store' rows; cbn [refresh_all].
  - intros E. injection E as <- <-. constructor.
  - destruct (refresh_one api c) as [c' [r|e]] eqn:Hc; [|discriminate].
    destruct (refresh_all api rest) as [rest' [rs|e]]; cbn [bind];
      [|discriminate].
    intros E. injection E as <- <-. constructor.
    + exact (refresh_one_shows api c c' r Hc).
    + apply IH. reflexivity.
Qed.

Lemma get_value_per_unit_raises c e :
  get_value_per_unit c = Raise e ->
  exn_class e = OverflowError \/ exn_class e = ZeroDivisionError.
Proof.
  unfold get_value_per_unit, float_of_int.
  destruct (f_of_Z (nominal c)); cbn [bind]; intros E;
    try discriminate; injection E as <-; auto.
Qed.

(** X8. Whenever the handler answers, on either path, the table has one
    row for each record, in order, and each row shows the record as it is
    after the call: its id, codes, name, rate and nominal, and the
    per-unit rate computed from that rate and nominal.  A table marked
    stale shows change 0 in every row. *)
Theorem table_shows_the_records_as_they_are store log store' ctx :
  _handle_currencies fetch now store = (log, store', Return ctx) ->
  Forall2 shows store' (currencies ctx)
  /\ log = log_of (fetch (map char_code store))
  /\ (stale now ctx = true ->
      Forall (fun r => row_change r = PInt 0) (currencies ctx)).
Proof.
  unfold _handle_currencies.
  destruct (fetch (map char_code store)) as [l [api|e]]; cbn [log_of fst].
  - destruct (refresh_all api store) as [s [rows|e]] eqn:Hall; cbn [bind].
    + intros E. injection E as <- <- <-. cbn [currencies].
      split; [exact (refresh_all_shows api store s rows Hall)|].
      split; [reflexivity|].
      rewrite fresh_is_not_stale. discriminate.
    + destruct (static_rows s) as [rows|] eqn:Hs; cbn [bind]; [|discriminate].
      intros E. injection E as <- <- <-. cbn [currencies].
      pose proof (static_rows_shows s rows Hs) as Hf.
      split; [|split; [reflexivity|]].
      * clear -Hf. induction Hf as [|c r l1 l2 [Hc _] _ IH]; constructor; assumption.
      * intros _. clear -Hf.
        induction Hf as [|c r l1 l2 [_ Hc] _ IH]; constructor; assumption.
  - destruct (static_rows store) as [rows|] eqn:Hs; cbn [bind]; [|discriminate].
    intros E. injection E as <- <- <-. cbn [currencies].
    pose proof (static_rows_shows store rows Hs) as Hf.
    split; [|split; [reflexivity|]].
    + clear -Hf. induction Hf as [|c r l1 l2 [Hc _] _ IH]; constructor; assumption.
    + intros _. clear -Hf.
      induction Hf as [|c r l1 l2 [_ Hc] _ IH]; constructor; assumption.
Qed.

Lemma handler_raises_from_fallback store log store' e :
  _handle_currencies fetch now store = (log, store', Raise e) ->
  static_rows store' = Raise e.
Proof.
  unfold _handle_currencies.
  destruct (fetch (map char_code store)) as [l [api|e0]].
  - destruct (refresh_all api store) as [s [rows|e1]]; cbn [bind];
      [discriminate|].
    destruct (static_rows s) as [rows|e2] eqn:Hs; cbn [bind]; [discriminate|].
    intros E. injection E as <- <- <-. exact Hs.
  - destruct (static_rows store) as [rows|e2] eqn:Hs; cbn [bind]; [discriminate|].
    intros E. injection E as <- <- <-. exact Hs.
Qed.

(** X9. No exception of the feed client and no exception of the rate
    setter ever leaves the handler.  When the handler raises, the
    exception is the [OverflowError] or [ZeroDivisionError] of
    [get_value_per_unit] on one of the records, raised while the fallback
    table was built. *)
Theorem only_unit_rate_errors_escape store log store' e :
  _handle_currencies fetch now store = (log, store', Raise e) ->
  (exn_class e = OverflowError \/ exn_class e = ZeroDivisionError)
  /\ exists c, c ∈ store' /\ get_value_per_unit c = Raise e.
Proof.
  intros Hrun.
  pose proof (handler_raises_from_fallback store log store' e Hrun) as Hs.
  destruct (static_rows_raises store' e Hs) as (c & Hin & Hc).
  split.
  - exact (get_value_per_unit_raises c e Hc).
  - exists c. split; [exact Hin|exact Hc].
Qed.
End HandlerMore.

(** ** Refreshing twice *)

Lemma f_sub_diag x : is_finite x = true -> f_sub x x = f_zero.
Proof.
  destruct x as [s|s| |s m e]; cbn [is_finite]; try discriminate; intros _.
  - destruct s; reflexivity.
  - unfold f_sub, SFsub. rewrite Z.min_id, Z.sub_diag. reflexivity.
Qed.

Section RefreshTwice.
Variable fetch : list string -> logged (gmap string pyval).
Variable now : string.

Lemma set_value_again c v c' :
  set_value c v = Return c' ->
  set_value c' v = Return c' /\ char_code c' = char_code c.
Proof.
  unfold set_value. destruct (Setter.value v) as [x|]; [|discriminate].
  cbn [bind]. intros E. injection E as <-. split; reflexivity.
Qed.

Lemma make_row_change c change change' r :
  make_row c change = Return r ->
  exists r', make_row c change' = Return r'
             /\ same_but_change r r' /\ row_change r' = change'
             /\ row_value r' = value c.
Proof.
  unfold make_row. destruct (get_value_per_unit c) as [u|]; [|discriminate].
  cbn [bind]. intros E. injection E as <-.
  eexists. split; [reflexivity|]. repeat split.
Qed.

Lemma refresh_one_again api c c' r :
  refresh_one api c = (c', Return r) ->
  exists r', refresh_one api c' = (c', Return r')
             /\ same_but_change r r' /\ shows_no_change r'.
Proof.
  unfold refresh_one at 1.
  destruct (api !! char_code c) as [v|] eqn:Hv.
  - destruct (set_value c v) as [c1|] eqn:Hs; [|discriminate].
    intros E. injection E as <- Hr.
    destruct (set_value_again c v c1 Hs) as [Hs' Hcode].
    unfold refresh_one. rewrite Hcode, Hv, Hs'.
    destruct (make_row_change c1 _
                (if truthy (value c1)
                 then PFloat (f_sub (value c1) (value c1)) else PInt 0)
                r Hr) as (r' & Hr' & Hsame & Hch & Hval).
    exists r'. split; [rewrite Hr'; reflexivity|]. split; [exact Hsame|].
    unfold shows_no_change. rewrite Hch, Hval.
    destruct (truthy (value c1)); [right|left]; reflexivity.
  - intros E. injection E as <- Hr.
    unfold refresh_one. rewrite Hv.
    destruct (make_row_change c (PInt 0) (PInt 0) r Hr)
      as (r' & Hr' & Hsame & Hch & _).
    exists r'. split; [rewrite Hr'; reflexivity|]. split; [exact Hsame|].
    left. exact Hch.
Qed.

Lemma make_row_raises_any c change change' e :
  make_row c change = Raise e -> make_row c change' = Raise e.
Proof.
  unfold make_row. destruct (get_value_per_unit c); [discriminate|].
  cbn [bind]. intros E. exact E.
Qed.

Lemma refresh_one_again_raises api c c' e :
  refresh_one api c = (c', Raise e) -> refresh_one api c' = (c', Raise e).
Proof.
  unfold refresh_one at 1.
  destruct (api !! char_code c) as [v|] eqn:Hv.
  - destruct (set_value c v) as [c1|e1] eqn:Hs.
    + intros E. injection E as <- Hr.
      destruct (set_value_again c v c1 Hs) as [Hs' Hcode].
      unfold refresh_one. rewrite Hcode, Hv, Hs'.
      rewrite (make_row_raises_any c1 _ _ e Hr). reflexivity.
    + intros E. injection E as <- <-.
      unfold refresh_one. rewrite Hv, Hs. reflexivity.
  - intros E. injection E as <- Hr.
    unfold refresh_one. rewrite Hv, Hr. reflexivity.
Qed.

Lemma refresh_all_again api store store' rows :
  refresh_all api store = (store', Return rows) ->
  exists rows', refresh_all api store' = (store', Return rows')
                /\ Forall2 same_but_change rows rows'
                /\ Forall shows_no_change rows'.
Proof.
  revert store' rows.
  induction store as [|c rest IH]; intros store' rows; cbn [refresh_all].
  - intros E. injection E as <- <-. exists []. cbn [refresh_all].
    split; [reflexivity|]. split; constructor.
  - destruct (refresh_one api c) as [c' [r|e]] eqn:Hc; [|discriminate].
    destruct (refresh_all api rest) as [rest' [rs|e]] eqn:Hrest; cbn [bind];
      [|discriminate].
    intros E. injection E as <- <-.
    destruct (refresh_one_again api c c' r Hc) as (r' & Hr' & Hsame & Hno).
    destruct (IH rest' rs eq_refl) as (rs' & Hrs' & Hsames & Hnos).
    exists (r' :: rs'). cbn [refresh_all]. rewrite Hr', Hrs'. cbn [bind].
    split; [reflexivity|]. split; constructor; assumption.
Qed.

Lemma refresh_all_again_raises api store store' e :
  refresh_all api store = (store', Raise e) ->
  refresh_all api store' = (store', Raise e).
Proof.
  revert store'.
  induction store as [|c rest IH]; intros store'; cbn [refresh_all];
    [discriminate|].
  destruct (refresh_one api c) as [c' [r|e1]] eqn:Hc.
  - destruct (refresh_all api rest) as [rest' [rs|e2]] eqn:Hrest; cbn [bind];
      [discriminate|].
    intros E. injection E as <- <-.
    destruct (refresh_one_again api c c' r Hc) as (r' & Hr' & _).
    cbn [refresh_all]. rewrite Hr', (IH rest' eq_refl). reflexivity.
  - intros E. injection E as <- <-.
    cbn [refresh_all]. rewrite (refresh_one_again_raises api c c' e1 Hc).
    reflexivity.
Qed.

Lemma same_codes store store' :
  Forall2 same_identity store store' ->
  map char_code store' = map char_code store.
Proof.
  induction 1 as [|c c' l l' Hc _ IH]; [reflexivity|].
  cbn [map]. destruct Hc as (_ & _ & -> & _). rewrite IH. reflexivity.
Qed.

(** X10. Refreshing a second time, with the feed client answering as it
    did the first time, changes nothing: the records stay as the first
    call left them, the log and the timestamp line are the same, an
    exception that left the first call leaves the second one, and a table
    that was rendered is rendered again with the same rows, except that
    every row now reports no movement (0, or the difference of the rate
    with itself). *)
Theorem second_refresh_changes_nothing store log store' res :
  _handle_currencies fetch now store = (log, store', res) ->
  exists res',
    _handle_currencies fetch now store' = (log, store', res')
    /\ match res with
       | Raise e => res' = Raise e
       | Return ctx =>
           exists ctx',
             res' = Return ctx'
             /\ update_time ctx' = update_time ctx
             /\ Forall2 same_but_change (currencies ctx) (currencies ctx')
             /\ Forall shows_no_change (currencies ctx')
       end.
Proof.
  intros Hrun.
  pose proof (handler_keeps_identity fetch now store) as Hid.
  rewrite Hrun in Hid. unfold store_after in Hid. cbn [fst snd] in Hid.
  apply same_codes in Hid.
  revert Hrun. unfold _handle_currencies. rewrite Hid.
  assert (Hstatic : forall rows,
            static_rows store' = Return rows ->
            Forall2 same_but_change rows rows /\ Forall shows_no_change rows).
  { intros rows Hs. pose proof (static_rows_shows store' rows Hs) as Hf.
    clear -Hf. induction Hf as [|c r l1 l2 [_ Hc] _ [IH1 IH2]].
    - split; constructor.
    - split; constructor; try assumption; [repeat split|left; exact Hc]. }
  destruct (fetch (map char_code store)) as [l [api|e0]].
  - destruct (refresh_all api store) as [s [rows|e1]] eqn:Hall; cbn [bind].
    + intros E. injection E as <- <- <-.
      destruct (refresh_all_again api store s rows Hall)
        as (rows' & Hrows' & Hsame & Hno).
      rewrite Hrows'. cbn [bind]. eexists. split; [reflexivity|].
      eexists. split; [reflexivity|]. cbn [update_time currencies].
      split; [reflexivity|]. split; assumption.
    + intros E. injection E as <- <- <-.
      rewrite (refresh_all_again_raises api store s e1 Hall). cbn [bind].
      eexists. split; [reflexivity|].
      destruct (static_rows s) as [rows|e2] eqn:Hs; cbn [bind]; [|reflexivity].
      eexists. split; [reflexivity|]. cbn [update_time currencies].
      split; [reflexivity|]. exact (Hstatic rows eq_refl).
  - intros E. injection E as <- <- <-.
    eexists. split; [reflexivity|].
    destruct (static_rows store) as [rows|e2] eqn:Hs; cbn [bind]; [|reflexivity].
    eexists. split; [reflexivity|]. cbn [update_time currencies].
    split; [reflexivity|]. exact (Hstatic rows eq_refl).
Qed.
End RefreshTwice.

(* ===================================================================== *)
(** * The other model classes                                             *)
(* ===================================================================== *)

(** The two shapes of setter the four classes share: a positive [int],
    and a text that is stored stripped and must not be blank. *)
Lemma checked_int (check : pyval -> result Z) m1 m2 :
  (forall v, check v
             = match as_int v with
               | None => Raise (Exn TypeError m1)
               | Some z => if z <=? 0 then Raise (Exn ValueError m2)
                           else Return z
               end) ->
  (forall v z, check v = Return z -> 0 < z)
  /\ (forall z, 0 < z -> check (PInt z) = Return z).
Proof.
  intros Hc. split.
  - intros v z. rewrite Hc. destruct (as_int v) as [z'|]; [|discriminate].
    destruct (z' <=? 0) eqn:Hz; [discriminate|].
    intros E. injection E as <-. apply Z.leb_gt in Hz. exact Hz.
  - intros z Hz. rewrite Hc. cbn [as_int].
    destruct (z <=? 0) eqn:Hz'; [|reflexivity].
    apply Z.leb_le in Hz'. lia.
Qed.

Lemma checked_text (check : pyval -> result string) m1 m2 :
  (forall v, check v
             = match as_str v with
               | None => Raise (Exn TypeError m1)
               | Some s => if is_empty (strip s) then Raise (Exn ValueError m2)
                           else Return (strip s)
               end) ->
  (forall v t, check v = Return t -> tidy t)
  /\ (forall t, tidy t -> check (PStr t) = Return t).
Proof.
  intros Hc. split.
  - intros v t. rewrite Hc. destruct (as_str v) as [s|]; [|discriminate].
    destruct (is_empty (strip s)) eqn:He; [discriminate|].
    intros E. injection E as <-. split; [apply strip_idem|exact He].
  - intros t [Hs He]. rewrite Hc. cbn [as_str]. rewrite Hs, He. reflexivity.
Qed.

Lemma user_id_checked :
  (forall v z, User.Setter.id v = Return z -> 0 < z)
  /\ (forall z, 0 < z -> User.Setter.id (PInt z) = Return z).
Proof. exact (checked_int User.Setter.id _ _ (fun _ => eq_refl)). Qed.

Lemma user_name_checked :
  (forall v t, User.Setter.name v = Return t -> tidy t)
  /\ (forall t, tidy t -> User.Setter.name (PStr t) = Return t).
Proof. exact (checked_text User.Setter.name _ _ (fun _ => eq_refl)). Qed.

(** X11. The [User] objects that can be constructed are exactly those
    with a positive id and a name that is stripped and not empty: the
    constructor yields nothing else, every such object is rebuilt from its
    own attributes, and a setter that returns keeps the object in this
    class. *)
Theorem users_are_exactly_the_well_formed :
  (forall u, user_well_formed u <-> exists i n, User.init i n = Return u)
  /\ (forall u x u', user_well_formed u ->
        User.set_id u x = Return u' \/ User.set_name u x = Return u' ->
        user_well_formed u').
Proof.
  destruct user_id_checked as [Hi Hi'].
  destruct user_name_checked as [Hn Hn'].
  split.
  - intros u. split.
    + intros [Pi Pn]. exists (PInt (User.id u)), (PStr (User.name u)).
      unfold User.init. rewrite (Hi' _ Pi). cbn [bind].
      rewrite (Hn' _ Pn). cbn [bind]. destruct u; reflexivity.
    + intros (i & n & E). revert E. unfold User.init.
      destruct (User.Setter.id i) as [z|] eqn:Ez; [|discriminate]. cbn [bind].
      destruct (User.Setter.name n) as [t|] eqn:Et; [|discriminate]. cbn [bind].
      intros E. injection E as <-. split; cbn; eauto.
  - intros u x u' [Pi Pn] [E|E]; revert E; unfold User.set_id, User.set_name.
    + destruct (User.Setter.id x) as [z|] eqn:Ez; [|discriminate]. cbn [bind].
      intros E. injection E as <-. split; cbn; eauto.
    + destruct (User.Setter.name x) as [t|] eqn:Et; [|discriminate]. cbn [bind].
      intros E. injection E as <-. split; cbn; eauto.
Qed.

(** X12. The [UserCurrency] objects that can be constructed are exactly
    those whose three ids are positive, and a setter that returns keeps
    the object in this class. *)
Theorem links_are_exactly_the_well_formed :
  (forall l, link_well_formed l
             <-> exists i u c, UserCurrency.init i u c = Return l)
  /\ (forall l x l', link_well_formed l ->
        UserCurrency.set_id l x = Return l'
        \/ UserCurrency.set_user_id l x = Return l'
        \/ UserCurrency.set_currency_id l x = Return l' ->
        link_well_formed l').
Proof.
  destruct (checked_int UserCurrency.Setter.id _ _ (fun _ => eq_refl))
    as [Hi Hi'].
  destruct (checked_int UserCurrency.Setter.user_id _ _ (fun _ => eq_refl))
    as [Hu Hu'].
  destruct (checked_int UserCurrency.Setter.currency_id _ _ (fun _ => eq_refl))
    as [Hc Hc'].
  split.
  - intros l. split.
    + intros (Pi & Pu & Pc).
      exists (PInt (UserCurrency.id l)), (PInt (UserCurrency.user_id l)),
             (PInt (UserCurrency.currency_id l)).
      unfold UserCurrency.init.
      rewrite (Hi' _ Pi). cbn [bind]. rewrite (Hu' _ Pu). cbn [bind].
      rewrite (Hc' _ Pc). cbn [bind]. destruct l; reflexivity.
    + intros (i & u & c & E). revert E. unfold UserCurrency.init.
      destruct (UserCurrency.Setter.id i) as [zi|] eqn:Ei; [|discriminate].
      cbn [bind].
      destruct (UserCurrency.Setter.user_id u) as [zu|] eqn:Eu; [|discriminate].
      cbn [bind].
      destruct (UserCurrency.Setter.currency_id c) as [zc|] eqn:Ec;
        [|discriminate].
      cbn [bind]. intros E. injection E as <-. repeat split; cbn; eauto.
  - intros l x l' (Pi & Pu & Pc) [E|[E|E]]; revert E;
      unfold UserCurrency.set_id, UserCurrency.set_user_id,
        UserCurrency.set_currency_id.
    + destruct (UserCurrency.Setter.id x) as [z|] eqn:Ez; [|discriminate].
      cbn [bind]. intros E. injection E as <-. repeat split; cbn; eauto.
    + destruct (UserCurrency.Setter.user_id x) as [z|] eqn:Ez; [|discriminate].
      cbn [bind]. intros E. injection E as <-. repeat split; cbn; eauto.
    + destruct (UserCurrency.Setter.currency_id x) as [z|] eqn:Ez;
        [|discriminate].
      cbn [bind]. intros E. injection E as <-. repeat split; cbn; eauto.
Qed.

Lemma author_name_checked :
  (forall v t, Author.Setter.name v = Return t -> tidy t)
  /\ (forall t, tidy t -> Author.Setter.name (PStr t) = Return t).
Proof. exact (checked_text Author.Setter.name _ _ (fun _ => eq_refl)). Qed.

Lemma author_group_checked :
  (forall v t, Author.Setter.group v = Return t -> tidy t)
  /\ (forall t, tidy t -> Author.Setter.group (PStr t) = Return t).
Proof. exact (checked_text Author.Setter.group _ _ (fun _ => eq_refl)). Qed.

(** X13. The [Author] objects that can be constructed are exactly those
    whose name and group are stripped and not empty, and a setter that
    returns keeps the object in this class. *)
Theorem authors_are_exactly_the_well_formed :
  (forall a, author_well_formed a <-> exists n g, Author.init n g = Return a)
  /\ (forall a x a', author_well_formed a ->
        Author.set_name a x = Return a' \/ Author.set_group a x = Return a' ->
        author_well_formed a').
Proof.
  destruct author_name_checked as [Hn Hn'].
  destruct author_group_checked as [Hg Hg'].
  split.
  - intros a. split.
    + intros [Pn Pg]. exists (PStr (Author.name a)), (PStr (Author.group a)).
      unfold Author.init. rewrite (Hn' _ Pn). cbn [bind].
      rewrite (Hg' _ Pg). cbn [bind]. destruct a; reflexivity.
    + intros (n & g & E). revert E. unfold Author.init.
      destruct (Author.Setter.name n) as [t|] eqn:Et; [|discriminate].
      cbn [bind].
      destruct (Author.Setter.group g) as [t'|] eqn:Et'; [|discriminate].
      cbn [bind]. intros E. injection E as <-. split; cbn; eauto.
  - intros a x a' [Pn Pg] [E|E]; revert E;
      unfold Author.set_name, Author.set_group.
    + destruct (Author.Setter.name x) as [t|] eqn:Et; [|discriminate].
      cbn [bind]. intros E. injection E as <-. split; cbn; eauto.
    + destruct (Author.Setter.group x) as [t|] eqn:Et; [|discriminate].
      cbn [bind]. intros E. injection E as <-. split; cbn; eauto.
Qed.

(** X14. An [App] is never built around anything but an [Author] object:
    with any other value for [author] the constructor and the setter
    raise.  Built around a well-formed author it has a stripped, non-empty
    name and version and holds that very author; every such object is
    rebuilt from its own attributes, and a setter that returns keeps it
    well formed. *)
Theorem apps_hold_an_author :
  (forall n v x, returns (App.init n v (App.Value x)) = false)
  /\ (forall a x, returns (App.set_author a (App.Value x)) = false)
  /\ (forall n v au a, author_well_formed au ->
        App.init n v (App.Object au) = Return a ->
        app_well_formed a /\ App.author a = au)
  /\ (forall a, app_well_formed a ->
        App.init (PStr (App.name a)) (PStr (App.version a))
          (App.Object (App.author a)) = Return a)
  /\ (forall a x au a', app_well_formed a -> author_well_formed au ->
        App.set_name a x = Return a' \/ App.set_version a x = Return a'
        \/ App.set_author a (App.Object au) = Return a' ->
        app_well_formed a').
Proof.
  destruct (checked_text App.Setter.name _ _ (fun _ => eq_refl)) as [Hn Hn'].
  destruct (checked_text App.Setter.version _ _ (fun _ => eq_refl))
    as [Hv Hv'].
  repeat apply conj.
  - intros n v x. unfold App.init.
    destruct (App.Setter.name n); [|reflexivity]. cbn [bind].
    destruct (App.Setter.version v); reflexivity.
  - intros a x. reflexivity.
  - intros n v au a Pau. unfold App.init.
    destruct (App.Setter.name n) as [t|] eqn:Et; [|discriminate]. cbn [bind].
    destruct (App.Setter.version v) as [t'|] eqn:Et'; [|discriminate].
    cbn. intros E. injection E as <-.
    split; [|reflexivity]. split; [|split]; cbn; eauto.
  - intros a (Pn & Pv & _). unfold App.init.
    rewrite (Hn' _ Pn). cbn [bind]. rewrite (Hv' _ Pv). cbn.
    destruct a; reflexivity.
  - intros a x au a' (Pn & Pv & Pa) Pau [E|[E|E]]; revert E;
      unfold App.set_name, App.set_version, App.set_author.
    + destruct (App.Setter.name x) as [t|] eqn:Et; [|discriminate].
      cbn [bind]. intros E. injection E as <-.
      split; [|split]; cbn; eauto.
    + destruct (App.Setter.version x) as [t|] eqn:Et; [|discriminate].
      cbn [bind]. intros E. injection E as <-.
      split; [|split]; cbn; eauto.
    + cbn. intros E. injection E as <-. split; [|split]; cbn; eauto.
Qed.

(** ** The text of a currency *)

Lemma append_same_length_inv (a b c d : string) :
  a ++ b = c ++ d -> String.length b = String.length d -> a = c /\ b = d.
Proof.
  revert c. induction a as [|x a IH]; intros [|y c] E L.
  - split; [reflexivity|exact E].
  - apply (f_equal String.length) in E. rewrite !length_append in E.
    cbn [String.length] in E. lia.
  - apply (f_equal String.length) in E. rewrite !length_append in E.
    cbn [String.length] in E. lia.
  - change (String x (a ++ b) = String y (c ++ d)) in E.
    injection E as -> E. destruct (IH c E L) as [-> ->].
    split; reflexivity.
Qed.

Lemma characters_app (a b : string) :
  characters (a ++ b) = (characters a + characters b)%nat.
Proof.
  induction a as [|x a IH]; [reflexivity|].
  rewrite append_cons. cbn [characters]. rewrite IH. lia.
Qed.

(** Two ways of cutting one text: one of the first parts extends the
    other. *)
Lemma append_split (a b c d : string) :
  a ++ b = c ++ d ->
  (exists k, c = a ++ k /\ b = k ++ d) \/ (exists k, a = c ++ k /\ d = k ++ b).
Proof.
  revert c. induction a as [|x a IH]; intros c E.
  - left. exists c. split; [reflexivity|exact E].
  - destruct c as [|y c].
    + right. exists (String x a). split; [reflexivity|]. symmetry. exact E.
    + rewrite !append_cons in E. injection E as -> E.
      destruct (IH c E) as [(k & -> & ->)|(k & -> & ->)];
        [left|right]; exists k; split; reflexivity.
Qed.

(** A text without the start of a character is empty or ends in a
    continuation byte. *)
Lemma no_character_last k :
  characters k = 0%nat ->
  k = "" \/ exists k' x, k = k' ++ String x "" /\ is_continuation x = true.
Proof.
  induction k as [|a k IH]; [left; reflexivity|].
  cbn [characters]. destruct (is_continuation a) eqn:Ha; [|discriminate].
  intros Hk. right. destruct (IH Hk) as [->|(k' & x & -> & Hx)].
  - exists "", a. split; [reflexivity|exact Ha].
  - exists (String a k'), x. split; [reflexivity|exact Hx].
Qed.

(** After a text that ends in an opening parenthesis, a cut into the same
    number of characters is the same cut. *)
Lemma same_characters_same_cut (a b c d : string) :
  (a ++ "(") ++ b = (c ++ "(") ++ d ->
  characters b = characters d ->
  a = c /\ b = d.
Proof.
  intros E Hch.
  assert (Hk : forall p q k u w,
            p ++ "(" = (q ++ "(") ++ k -> u = k ++ w ->
            characters u = characters w -> k = "").
  { intros p q k u w Ep -> Hc. rewrite characters_app in Hc.
    destruct (no_character_last k) as [->|(k' & x & -> & Hx)];
      [lia|reflexivity|].
    exfalso. rewrite <- append_assoc in Ep.
    apply append_same_length_inv in Ep as [_ Ex]; [|reflexivity].
    injection Ex as <-. discriminate Hx. }
  destruct (append_split _ _ _ _ E) as [(k & Hc & Hb)|(k & Ha & Hd)].
  - pose proof (Hk c a k b d Hc Hb Hch) as ->.
    rewrite append_empty_r in Hc. rewrite append_nil in Hb.
    apply append_inj_r in Hc. split; [symmetry; exact Hc|exact Hb].
  - pose proof (Hk a c k d b Ha Hd (eq_sym Hch)) as ->.
    rewrite append_empty_r in Ha. rewrite append_nil in Hd.
    apply append_inj_r in Ha. split; [exact Ha|symmetry; exact Hd].
Qed.

(** X15. The text of a currency tells its name and its code: two
    well-formed currencies with the same text have the same name and the
    same code.  The three-character rule of the code is what makes the
    text unambiguous. *)
Theorem currency_text_identifies_name_and_code c1 c2 :
  well_formed c1 -> well_formed c2 ->
  __str__ c1 = __str__ c2 ->
  name c1 = name c2 /\ char_code c1 = char_code c2.
Proof.
  intros (_ & _ & _ & L1 & _) (_ & _ & _ & L2 & _) E.
  unfold __str__, len in *.
  assert (E' : ((name c1 ++ " ") ++ "(") ++ (char_code c1 ++ ")")
               = ((name c2 ++ " ") ++ "(") ++ (char_code c2 ++ ")")).
  { rewrite !append_assoc. exact E. }
  apply same_characters_same_cut in E' as [En Ec].
  - apply append_inj_r in En. apply append_inj_r in Ec. split; assumption.
  - rewrite !characters_app. lia.
Qed.

(* ===================================================================== *)
(** * The other routes                                                    *)
(* ===================================================================== *)

(** ** The list of users *)

Lemma subscription_count_acc links u acc :
  fold_left (fun acc uc =>
               if UserCurrency.user_id uc =? User.id u
               then acc + 1 else acc) links acc
  = acc + subscription_count links u.
Proof.
  unfold subscription_count. revert acc.
  induction links as [|l rest IH]; intros acc; cbn [fold_left]; [lia|].
  rewrite IH, (IH (if UserCurrency.user_id l =? User.id u then 0 + 1 else 0)).
  destruct (UserCurrency.user_id l =? User.id u); lia.
Qed.

Lemma subscription_count_cons l links u :
  subscription_count (l :: links) u
  = (if UserCurrency.user_id l =? User.id u then 1 else 0)
    + subscription_count links u.
Proof.
  unfold subscription_count at 1. cbn [fold_left].
  rewrite subscription_count_acc.
  destruct (UserCurrency.user_id l =? User.id u); lia.
Qed.

Lemma subscription_count_length links u :
  subscription_count links u
  = Z.of_nat (length (currency_ids_of links (User.id u))).
Proof.
  unfold currency_ids_of. rewrite length_map.
  induction links as [|l rest IH]; [reflexivity|].
  rewrite subscription_count_cons, IH. cbn [List.filter].
  destruct (UserCurrency.user_id l =? User.id u); cbn [length]; lia.
Qed.

Lemma total_map_add {A} (f g : A -> Z) l :
  total (map (fun x => f x + g x) l) = total (map f l) + total (map g l).
Proof.
  unfold total. induction l as [|x l IH]; cbn [map fold_right]; lia.
Qed.

Lemma total_map_zero {A} (f : A -> Z) l :
  (forall x, In x l -> f x = 0) -> total (map f l) = 0.
Proof.
  unfold total. induction l as [|x l IH]; intros Hf; cbn [map fold_right];
    [reflexivity|].
  rewrite (Hf x (or_introl eq_refl)), IH; [reflexivity|].
  intros y Hy. apply Hf. right. exact Hy.
Qed.

Lemma one_user_per_id us z :
  List.NoDup (map User.id us) ->
  total (map (fun u => if z =? User.id u then 1 else 0) us)
  = if existsb (Z.eqb z) (map User.id us) then 1 else 0.
Proof.
  induction us as [|u rest IH]; intros Hnd; [reflexivity|].
  cbn [map existsb] in *. inversion Hnd as [|? ? Hnotin Hnd']; subst.
  unfold total in *. cbn [map fold_right].
  destruct (z =? User.id u) eqn:Hz; cbn [orb].
  - apply Z.eqb_eq in Hz. subst z.
    fold (total (map (fun u0 => if User.id u =? User.id u0 then 1 else 0) rest)).
    rewrite total_map_zero; [reflexivity|].
    intros y Hy. destruct (User.id u =? User.id y) eqn:Hy'; [|reflexivity].
    apply Z.eqb_eq in Hy'. exfalso. apply Hnotin. rewrite Hy'.
    apply in_map. exact Hy.
  - rewrite (IH Hnd'). lia.
Qed.

Lemma total_subscription_count us links :
  List.NoDup (map User.id us) ->
  total (map (subscription_count links) us)
  = Z.of_nat (length (List.filter (of_listed_user (map User.id us)) links)).
Proof.
  intros Hnd. induction links as [|l rest IH].
  - cbn [List.filter length]. apply total_map_zero. reflexivity.
  - rewrite (map_ext _ (fun u => (if UserCurrency.user_id l =? User.id u
                                   then 1 else 0)
                                  + subscription_count rest u));
      [|intros u; apply subscription_count_cons].
    rewrite (total_map_add
               (fun u => if UserCurrency.user_id l =? User.id u then 1 else 0)
               (subscription_count rest) us).
    rewrite IH, (one_user_per_id us _ Hnd).
    cbn [List.filter]. unfold of_listed_user at 2.
    destruct (existsb (Z.eqb (UserCurrency.user_id l)) (map User.id us));
      cbn [length]; lia.
Qed.

(** X16. With pairwise different user ids, the list of users has one
    entry per user, in order, with the user's id and name, and the
    subscription counts shown add up to the number of subscriptions that
    belong to a listed user: none of them is lost and none is counted
    twice.  Each count lies between 0 and the number of subscriptions. *)
Theorem users_page_counts_each_subscription_once us links :
  List.NoDup (map User.id us) ->
  map entry_id (users (_handle_users us links)) = map User.id us
  /\ map entry_name (users (_handle_users us links)) = map User.name us
  /\ total (map subscriptions_count (users (_handle_users us links)))
     = Z.of_nat (length (List.filter (of_listed_user (map User.id us)) links))
  /\ Forall (fun e => 0 <= subscriptions_count e <= Z.of_nat (length links))
       (users (_handle_users us links)).
Proof.
  intros Hnd. unfold _handle_users. cbn [users].
  rewrite !map_map. cbn [entry_id entry_name subscriptions_count].
  split; [reflexivity|]. split; [reflexivity|]. split.
  - exact (total_subscription_count us links Hnd).
  - apply Forall_forall. intros e He.
    apply list_elem_of_In, in_map_iff in He. destruct He as (u & <- & _).
    cbn [subscriptions_count]. rewrite subscription_count_length.
    unfold currency_ids_of. rewrite length_map.
    pose proof (filter_length_le
                  (fun uc => UserCurrency.user_id uc =? User.id u) links).
    lia.
Qed.

(** ** The page of one user *)

Lemma with_value_per_unit_returns subs l :
  with_value_per_unit subs = Return l ->
  map fst l = subs
  /\ Forall (fun p => get_value_per_unit (fst p) = Return (snd p)) l.
Proof.
  revert l. induction subs as [|c rest IH]; intros l; cbn [with_value_per_unit].
  - intros E. injection E as <-. split; [reflexivity|constructor].
  - destruct (get_value_per_unit c) as [u|] eqn:Hu; [|discriminate].
    cbn [bind].
    destruct (with_value_per_unit rest) as [l'|]; [|discriminate]. cbn [bind].
    intros E. injection E as <-. destruct (IH l' eq_refl) as [Hm Hf].
    split; [cbn [map fst]; rewrite Hm; reflexivity|].
    constructor; [exact Hu|exact Hf].
Qed.

Lemma with_value_per_unit_raises subs e :
  with_value_per_unit subs = Raise e ->
  exists c, In c subs /\ get_value_per_unit c = Raise e.
Proof.
  induction subs as [|c rest IH]; cbn [with_value_per_unit]; [discriminate|].
  destruct (get_value_per_unit c) as [u|e'] eqn:Hu; cbn [bind].
  - destruct (with_value_per_unit rest) as [l'|e'']; cbn [bind]; [discriminate|].
    intros E. injection E as <-. destruct (IH eq_refl) as (c' & Hin & Hc').
    exists c'. split; [right; exact Hin|exact Hc'].
  - intros E. injection E as <-. exists c. split; [left; reflexivity|exact Hu].
Qed.

Lemma with_value_per_unit_quotable subs :
  (forall c, In c subs -> quotable c = true) ->
  exists l, with_value_per_unit subs = Return l.
Proof.
  intros Hq. destruct (with_value_per_unit subs) as [l|e] eqn:Hw; [eauto|].
  destruct (with_value_per_unit_raises subs e Hw) as (c & Hin & Hc).
  specialize (Hq c Hin). unfold quotable in Hq. rewrite Hc in Hq.
  discriminate Hq.
Qed.

Lemma in_currency_ids_of links uid i :
  In i (currency_ids_of links uid)
  <-> exists l, In l links /\ UserCurrency.user_id l = uid
                /\ UserCurrency.currency_id l = i.
Proof.
  unfold currency_ids_of. rewrite in_map_iff. split.
  - intros (l & Hi & Hl). apply filter_In in Hl as [Hl Hu].
    apply Z.eqb_eq in Hu. eauto.
  - intros (l & Hl & Hu & Hi). exists l. split; [exact Hi|].
    apply filter_In. split; [exact Hl|]. apply Z.eqb_eq. exact Hu.
Qed.

Lemma in_subscriptions_of cs links uid c :
  In c (subscriptions_of cs (currency_ids_of links uid))
  <-> In c cs /\ subscribed links uid c.
Proof.
  unfold subscriptions_of, subscribed. rewrite filter_In, existsb_exists.
  split.
  - intros (Hc & i & Hi & Hid). apply Z.eqb_eq in Hid. subst i.
    apply in_currency_ids_of in Hi as (l & Hl & Hu & Hcid).
    split; [exact Hc|]. exists l. rewrite list_elem_of_In. auto.
  - intros (Hc & l & Hl & Hu & Hcid). split; [exact Hc|].
    exists (id c). split; [|apply Z.eqb_refl].
    apply in_currency_ids_of. exists l. rewrite <- list_elem_of_In. auto.
Qed.

Lemma filter_sublist {A} (p : A -> bool) l : sublist (List.filter p l) l.
Proof.
  induction l as [|x l IH]; cbn [List.filter]; [constructor|].
  destruct (p x); [apply sublist_skip|apply sublist_cons]; exact IH.
Qed.

Lemma map_filter_NoDup {A B} (f : A -> B) (p : A -> bool) l :
  List.NoDup (map f l) -> List.NoDup (map f (List.filter p l)).
Proof.
  induction l as [|x l IH]; cbn [map List.filter]; [auto|].
  intros Hnd. inversion Hnd as [|? ? Hnotin Hnd']; subst.
  destruct (p x); [|auto]. cbn [map]. constructor; [|auto].
  intros Hin. apply Hnotin. apply in_map_iff in Hin as (y & Hy & Hin).
  apply filter_In in Hin as [Hin _]. rewrite <- Hy. apply in_map. exact Hin.
Qed.

Section RoutesFacts.
Context `{Formatting}.
Variable int : string -> option Z.
Variable str : Z -> string.

Lemma user_detail_page_inv uid_text us links cs tpl ctx :
  _handle_user_detail int str uid_text us links cs
  = Html tpl (UserDetailPage ctx) ->
  exists text uid u subs,
    uid_text = Some text /\ is_empty text = false
    /\ int text = Some uid
    /\ List.find (fun u => User.id u =? uid) us = Some u
    /\ with_value_per_unit
         (subscriptions_of cs (currency_ids_of links uid)) = Return subs
    /\ tpl = "user_detail.html"
    /\ ctx = mkDetailContext u subs (Z.of_nat (length cs)) "/users".
Proof.
  unfold _handle_user_detail, _send_error.
  destruct uid_text as [text|]; [|discriminate].
  destruct (is_empty text) eqn:He; [discriminate|].
  destruct (int text) as [uid|] eqn:Hi; cbn [bind]; [|discriminate].
  destruct (List.find (fun u => User.id u =? uid) us) as [u|] eqn:Hf;
    [|discriminate].
  destruct (with_value_per_unit
              (subscriptions_of cs (currency_ids_of links uid)))
    as [subs|e] eqn:Hw; cbn [bind].
  - intros E. injection E as <- <-. exists text, uid, u, subs.
    repeat split; auto.
  - destruct (is_ValueError (exn_class e)); discriminate.
Qed.

(** X17. When the page of a user is rendered, the text of the parameter
    [id] is an integer literal, the user shown is the first of the
    collection with that id, and the subscriptions shown are exactly the
    currencies of the collection that a subscription of this user points
    to: in the order of the collection, each with the per-unit rate of
    its present rate and nominal; a subscription that points to no
    currency of the collection shows nothing.  The count shown beside
    them is the size of the whole collection. *)
Theorem user_page_shows_exactly_the_subscriptions
    uid_text us links cs tpl ctx :
  _handle_user_detail int str uid_text us links cs
  = Html tpl (UserDetailPage ctx) ->
  exists text uid,
    uid_text = Some text /\ int text = Some uid
    /\ User.id (user ctx) = uid
    /\ (exists before after,
          us = (before ++ user ctx :: after)%list
          /\ Forall (fun u => User.id u <> uid) before)
    /\ (forall c, c ∈ map fst (subscriptions ctx)
                  <-> c ∈ cs /\ subscribed links uid c)
    /\ sublist (map fst (subscriptions ctx)) cs
    /\ Forall (fun p => get_value_per_unit (fst p) = Return (snd p))
         (subscriptions ctx)
    /\ currencies_count ctx = Z.of_nat (length cs).
Proof.
  intros Hrun.
  destruct (user_detail_page_inv _ _ _ _ _ _ Hrun)
    as (text & uid & u & subs & -> & _ & Hi & Hf & Hw & _ & ->).
  destruct (with_value_per_unit_returns _ _ Hw) as [Hm Hall].
  exists text, uid. cbn [user subscriptions currencies_count].
  split; [reflexivity|]. split; [exact Hi|].
  split; [apply find_some in Hf as [_ Hu]; apply Z.eqb_eq in Hu; exact Hu|].
  split.
  { clear -Hf. induction us as [|v rest IH]; [discriminate|].
    cbn [List.find] in Hf. destruct (User.id v =? uid) eqn:Hv.
    - injection Hf as ->. exists [], rest. split; [reflexivity|constructor].
    - destruct (IH Hf) as (b & a & -> & Hb). exists (v :: b), a.
      split; [reflexivity|]. constructor; [|exact Hb].
      apply Z.eqb_neq. exact Hv. }
  rewrite Hm. split.
  { intros c. rewrite !list_elem_of_In. apply in_subscriptions_of. }
  split; [apply filter_sublist|]. split; [exact Hall|reflexivity].
Qed.

Lemma user_detail_shape uid_text us links cs :
  (exists tpl ctx, _handle_user_detail int str uid_text us links cs
                   = Html tpl (UserDetailPage ctx))
  \/ (exists m, _handle_user_detail int str uid_text us links cs
                = ErrorPage 404 m).
Proof.
  unfold _handle_user_detail, _send_error.
  destruct uid_text as [text|]; [|right; eauto].
  destruct (is_empty text); [right; eauto|].
  destruct (int text) as [uid|]; cbn [bind]; [|right; eauto].
  destruct (List.find (fun u => User.id u =? uid) us) as [u|];
    [|right; eauto].
  destruct (with_value_per_unit _) as [subs|e]; cbn [bind]; [left; eauto|].
  destruct (is_ValueError (exn_class e)); right; eauto.
Qed.

(** X18. The route of one user answers 200 or 404 and nothing else.  It
    answers 200 exactly when the parameter [id] is present and not empty,
    its text is an integer literal, a user of the collection has that id,
    and the per-unit rate of every currency the user is subscribed to can
    be computed; one subscribed currency without a per-unit rate turns
    the page of an existing user into a 404. *)
Theorem user_page_is_found_or_not uid_text us links cs :
  (status (_handle_user_detail int str uid_text us links cs) = 200
   \/ status (_handle_user_detail int str uid_text us links cs) = 404)
  /\ (status (_handle_user_detail int str uid_text us links cs) = 200
      <-> exists text uid u,
            uid_text = Some text /\ text <> ""
            /\ int text = Some uid
            /\ u ∈ us /\ User.id u = uid
            /\ forall c, c ∈ cs -> subscribed links uid c ->
                         quotable c = true).
Proof.
  pose proof (user_detail_shape uid_text us links cs) as Hshape.
  split.
  - destruct Hshape as [(tpl & ctx & ->)|(m & ->)]; [left|right]; reflexivity.
  - split.
    + intros Hs. destruct Hshape as [(tpl & ctx & Hrun)|(m & Hm)];
        [|rewrite Hm in Hs; discriminate Hs].
      destruct (user_detail_page_inv _ _ _ _ _ _ Hrun)
        as (text & uid & u & subs & -> & He & Hi & Hf & Hw & _ & _).
      exists text, uid, u. split; [reflexivity|].
      split; [intros ->; discriminate He|]. split; [exact Hi|].
      apply find_some in Hf as [Hu Hid]. apply Z.eqb_eq in Hid.
      split; [apply list_elem_of_In; exact Hu|]. split; [exact Hid|].
      intros c Hc Hsub. unfold quotable.
      destruct (with_value_per_unit_returns _ _ Hw) as [Hm Hall].
      assert (Hin : In c (map fst subs)).
      { rewrite Hm. apply in_subscriptions_of.
        split; [apply list_elem_of_In; exact Hc|exact Hsub]. }
      apply in_map_iff in Hin as (p & <- & Hp).
      rewrite Forall_forall in Hall.
      rewrite (Hall p (proj2 (list_elem_of_In _ _) Hp)). reflexivity.
    + intros (text & uid & u & -> & Hne & Hi & Hu & Hid & Hq).
      unfold _handle_user_detail, _send_error.
      destruct (is_empty text) eqn:He;
        [destruct text; [contradiction|discriminate He]|].
      rewrite Hi. cbn [bind].
      destruct (List.find (fun u => User.id u =? uid) us) as [u'|] eqn:Hf.
      * destruct (with_value_per_unit_quotable
                    (subscriptions_of cs (currency_ids_of links uid)))
          as (l & ->); [|reflexivity].
        intros c Hc. apply in_subscriptions_of in Hc as [Hc Hsub].
        apply Hq; [apply list_elem_of_In; exact Hc|exact Hsub].
      * exfalso. apply list_elem_of_In in Hu.
        pose proof (find_none _ _ Hf u Hu) as Hno. cbn beta in Hno.
        apply Z.eqb_neq in Hno. contradiction.
Qed.

(** X19. With pairwise different currency ids, the page of a user never
    shows more subscriptions than the list of users counts for that user;
    it shows as many when the user's subscriptions point to pairwise
    different currencies that all belong to the collection. *)
Theorem user_page_agrees_with_the_count uid_text us links cs tpl ctx :
  List.NoDup (map id cs) ->
  _handle_user_detail int str uid_text us links cs
  = Html tpl (UserDetailPage ctx) ->
  exists e,
    e ∈ users (_handle_users us links)
    /\ entry_id e = User.id (user ctx)
    /\ entry_name e = User.name (user ctx)
    /\ Z.of_nat (length (subscriptions ctx)) <= subscriptions_count e
    /\ (List.NoDup (currency_ids_of links (User.id (user ctx))) ->
        (forall l, l ∈ links ->
                   UserCurrency.user_id l = User.id (user ctx) ->
                   exists c, c ∈ cs /\ id c = UserCurrency.currency_id l) ->
        Z.of_nat (length (subscriptions ctx)) = subscriptions_count e).
Proof.
  intros Hnd Hrun.
  destruct (user_detail_page_inv _ _ _ _ _ _ Hrun)
    as (text & uid & u & subs & -> & _ & Hi & Hf & Hw & _ & ->).
  destruct (with_value_per_unit_returns _ _ Hw) as [Hm _].
  apply find_some in Hf as [Hu Hid]. apply Z.eqb_eq in Hid.
  cbn [user subscriptions].
  exists (mkUserEntry (User.id u) (User.name u) (subscription_count links u)).
  cbn [entry_id entry_name subscriptions_count].
  split.
  { unfold _handle_users. cbn [users]. apply list_elem_of_In.
    apply in_map_iff. exists u. split; [reflexivity|exact Hu]. }
  split; [reflexivity|]. split; [reflexivity|].
  rewrite subscription_count_length, Hid.
  assert (Hlen : length subs
                 = length (map id (subscriptions_of cs
                                     (currency_ids_of links uid)))).
  { rewrite length_map, <- Hm, length_map. reflexivity. }
  assert (Hnd' : NoDup (map id (subscriptions_of cs
                                  (currency_ids_of links uid)))).
  { apply NoDup_ListNoDup. unfold subscriptions_of.
    apply map_filter_NoDup. exact Hnd. }
  split.
  - rewrite Hlen. apply inj_le. apply submseteq_length.
    apply NoDup_submseteq; [exact Hnd'|].
    intros i Hi'. apply list_elem_of_In in Hi'. apply list_elem_of_In.
    apply in_map_iff in Hi' as (c & <- & Hc).
    apply in_subscriptions_of in Hc as [_ (l & Hl & Hlu & Hlc)].
    apply in_currency_ids_of. exists l. rewrite <- list_elem_of_In. auto.
  - intros Hids Hall. rewrite Hlen. f_equal.
    apply Nat.le_antisymm.
    + apply submseteq_length. apply NoDup_submseteq; [exact Hnd'|].
      intros i Hi'. apply list_elem_of_In in Hi'. apply list_elem_of_In.
      apply in_map_iff in Hi' as (c & <- & Hc).
      apply in_subscriptions_of in Hc as [_ (l & Hl & Hlu & Hlc)].
      apply in_currency_ids_of. exists l. rewrite <- list_elem_of_In. auto.
    + apply submseteq_length.
      apply NoDup_submseteq; [apply NoDup_ListNoDup; exact Hids|].
      intros i Hi'. apply list_elem_of_In in Hi'. apply list_elem_of_In.
      apply in_currency_ids_of in Hi' as (l & Hl & Hlu & Hlc).
      destruct (Hall l (proj2 (list_elem_of_In _ _) Hl) Hlu)
        as (c & Hc & Hcid).
      apply in_map_iff. exists c. split; [congruence|].
      apply in_subscriptions_of. split; [apply list_elem_of_In; exact Hc|].
      exists l. rewrite list_elem_of_In. repeat split; congruence.
Qed.
End RoutesFacts.

(** ** Static files *)

Lemma startswith_app p s : startswith p (p ++ s) = true.
Proof.
  induction p as [|a p IH]; [reflexivity|].
  rewrite append_cons. cbn [startswith].
  rewrite Ascii.eqb_refl, IH. reflexivity.
Qed.

Lemma startswith_inv p s : startswith p s = true -> exists t, s = p ++ t.
Proof.
  revert s. induction p as [|a p IH]; intros s; cbn [startswith].
  - intros _. exists s. reflexivity.
  - destruct s as [|b s]; [discriminate|].
    intros Hs. apply andb_true_iff in Hs as [Hab Hs].
    apply Ascii.eqb_eq in Hab. subst b.
    destruct (IH s Hs) as (t & ->). exists t. reflexivity.
Qed.

Lemma str_contains_spec sub s :
  str_contains sub s = true <-> exists x y, s = x ++ sub ++ y.
Proof.
  induction s as [|a s IH]; cbn [str_contains].
  - rewrite orb_false_r. split.
    + intros Hs. apply startswith_inv in Hs as (t & Ht).
      exists "", t. exact Ht.
    + intros (x & y & E). destruct x as [|b x]; [|discriminate E].
      rewrite append_nil in E. destruct sub; [reflexivity|discriminate E].
  - rewrite orb_true_iff, IH. split.
    + intros [Hs|(x & y & ->)].
      * apply startswith_inv in Hs as (t & Ht). exists "", t. exact Ht.
      * exists (String a x), y. reflexivity.
    + intros (x & y & E). destruct x as [|b x].
      * left. rewrite append_nil in E. rewrite E. apply startswith_app.
      * right. rewrite append_cons in E. injection E as _ ->. eauto.
Qed.

Lemma endswith_spec suf s :
  endswith suf s = true <-> exists p, s = p ++ suf.
Proof.
  induction s as [|a s IH]; cbn [endswith].
  - rewrite orb_false_r, String.eqb_eq. split.
    + intros <-. exists "". reflexivity.
    + intros (p & E). destruct p as [|b p]; [exact E|discriminate E].
  - rewrite orb_true_iff, String.eqb_eq, IH. split.
    + intros [<-|(p & ->)]; [exists ""|exists (String a p)]; reflexivity.
    + intros (p & E). destruct p as [|b p].
      * left. exact E.
      * right. rewrite append_cons in E. injection E as _ ->. eauto.
Qed.

Lemma reversed_app a b : reversed (a ++ b) = reversed b ++ reversed a.
Proof.
  induction a as [|x a IH].
  - rewrite append_nil. cbn [reversed]. rewrite append_empty_r. reflexivity.
  - rewrite append_cons. cbn [reversed]. rewrite IH, append_assoc.
    reflexivity.
Qed.

Lemma reversed_involutive s : reversed (reversed s) = s.
Proof.
  induction s as [|x s IH]; cbn [reversed]; [reflexivity|].
  rewrite reversed_app, IH. reflexivity.
Qed.

Lemma endswith_reversed suf s :
  endswith suf s = startswith (reversed suf) (reversed s).
Proof.
  apply eq_true_iff_eq. rewrite endswith_spec. split.
  - intros (p & ->). rewrite reversed_app. apply startswith_app.
  - intros Hs. apply startswith_inv in Hs as (t & Ht).
    exists (reversed t).
    rewrite <- (reversed_involutive s), Ht, reversed_app, reversed_involutive.
    reflexivity.
Qed.

Ltac decide_suffix :=
  rewrite ?endswith_reversed, ?reversed_app; cbn [reversed];
  rewrite ?append_nil, ?append_cons; cbn; try reflexivity.

Ltac other_type :=
  repeat match goal with
         | |- context [endswith ?x ?q] => destruct (endswith x q) eqn:?
         end;
  cbn [orb]; try discriminate.

(** X20. The content type of a static file is decided by the end of its
    path and by nothing else: a path is served as [text/css] exactly when
    it ends in [.css], and likewise for [.js], [.png], [.jpg] or [.jpeg],
    [.gif], [.ico] and [.svg]; every other path is served as
    [application/octet-stream]. *)
Theorem extension_decides_the_content_type q :
  (mime_type_of q = "text/css" <-> exists p, q = p ++ ".css")
  /\ (mime_type_of q = "application/javascript" <-> exists p, q = p ++ ".js")
  /\ (mime_type_of q = "image/png" <-> exists p, q = p ++ ".png")
  /\ (mime_type_of q = "image/jpeg"
      <-> exists p, q = p ++ ".jpg" \/ q = p ++ ".jpeg")
  /\ (mime_type_of q = "image/gif" <-> exists p, q = p ++ ".gif")
  /\ (mime_type_of q = "image/x-icon" <-> exists p, q = p ++ ".ico")
  /\ (mime_type_of q = "image/svg+xml" <-> exists p, q = p ++ ".svg")
  /\ (mime_type_of q = "application/octet-stream"
      <-> forall p, q <> p ++ ".css" /\ q <> p ++ ".js" /\ q <> p ++ ".png"
                    /\ q <> p ++ ".jpg" /\ q <> p ++ ".jpeg"
                    /\ q <> p ++ ".gif" /\ q <> p ++ ".ico"
                    /\ q <> p ++ ".svg").
Proof.
  split; [|split; [|split; [|split; [|split; [|split; [|split]]]]]].
  - split.
    + unfold mime_type_of. intros Hm. apply endswith_spec.
      revert Hm. other_type. reflexivity.
    + intros (p & ->). unfold mime_type_of. decide_suffix.
  - split.
    + unfold mime_type_of. intros Hm. apply endswith_spec.
      revert Hm. other_type. reflexivity.
    + intros (p & ->). unfold mime_type_of. decide_suffix.
  - split.
    + unfold mime_type_of. intros Hm. apply endswith_spec.
      revert Hm. other_type. reflexivity.
    + intros (p & ->). unfold mime_type_of. decide_suffix.
  - split.
    + unfold mime_type_of. intros Hm.
      destruct (endswith ".jpg" q) eqn:Hj.
      * apply endswith_spec in Hj as (p & ->). exists p. left. reflexivity.
      * destruct (endswith ".jpeg" q) eqn:Hj'.
        -- apply endswith_spec in Hj' as (p & ->). exists p. right.
           reflexivity.
        -- revert Hm. other_type.
    + intros (p & [-> | ->]); unfold mime_type_of; decide_suffix.
  - split.
    + unfold mime_type_of. intros Hm. apply endswith_spec.
      revert Hm. other_type. reflexivity.
    + intros (p & ->). unfold mime_type_of. decide_suffix.
  - split.
    + unfold mime_type_of. intros Hm. apply endswith_spec.
      revert Hm. other_type. reflexivity.
    + intros (p & ->). unfold mime_type_of. decide_suffix.
  - split.
    + unfold mime_type_of. intros Hm. apply endswith_spec.
      revert Hm. other_type. reflexivity.
    + intros (p & ->). unfold mime_type_of. decide_suffix.
  - split.
    + unfold mime_type_of. intros Hm p.
      repeat apply conj; intros ->; revert Hm; decide_suffix; discriminate.
    + intros Hno. unfold mime_type_of.
      assert (Hf : forall suf, (forall p, q <> p ++ suf) ->
                               endswith suf q = false).
      { intros suf Hs. destruct (endswith suf q) eqn:He; [|reflexivity].
        apply endswith_spec in He as (p & Hp). destruct (Hs p Hp). }
      rewrite !Hf; [reflexivity|..]; intros p; apply (Hno p).
Qed.

Section StaticFacts.
Context `{Formatting}.
Variable path_exists : string -> bool.
Variable read_bytes : string -> result string.

(** X21. The route of static files reaches the file system only below
    [static/]: every path it tests or opens is [static/] followed by the
    request target without its first eight characters, and that rest
    holds no [..] and does not begin with [/].  A target whose rest holds
    [..] or begins with [/] is answered 403 without any call to the file
    system.  A file is sent only when it exists and could be read, with
    the content read and the content type of its path; a 500 is answered
    only after reading raised. *)
Theorem static_route_stays_in_its_folder path trace r :
  _handle_static_file path_exists read_bytes path = (trace, r) ->
  (forall a, a ∈ trace ->
     accessed a = "static/" ++ slice_from 8 path
     /\ (forall x y, slice_from 8 path <> x ++ ".." ++ y)
     /\ (forall y, slice_from 8 path <> "/" ++ y))
  /\ ((exists x y, slice_from 8 path = x ++ ".." ++ y)
      \/ (exists y, slice_from 8 path = "/" ++ y) ->
      trace = [] /\ r = ErrorPage 403 "Доступ запрещен")
  /\ (status r = 200 ->
      exists content,
        path_exists ("static/" ++ slice_from 8 path) = true
        /\ read_bytes ("static/" ++ slice_from 8 path) = Return content
        /\ r = File (mime_type_of ("static/" ++ slice_from 8 path)) content)
  /\ (status r = 500 ->
      exists e,
        read_bytes ("static/" ++ slice_from 8 path) = Raise e
        /\ r = ErrorPage 500 ("Ошибка при чтении файла: " ++ str_exn e)).
Proof.
  unfold _handle_static_file, _send_error.
  destruct (str_contains ".." (slice_from 8 path)
            || startswith "/" (slice_from 8 path)) eqn:Hbad.
  - intros E. injection E as <- <-.
    split; [intros a Ha; apply elem_of_nil in Ha; contradiction|].
    split; [auto|]. split; discriminate.
  - apply orb_false_iff in Hbad as [Hdots Hslash].
    assert (Hsafe : (forall x y, slice_from 8 path <> x ++ ".." ++ y)
                    /\ (forall y, slice_from 8 path <> "/" ++ y)).
    { split.
      - intros x y E.
        assert (Ht : str_contains ".." (slice_from 8 path) = true)
          by (apply str_contains_spec; eauto).
        rewrite Ht in Hdots. discriminate Hdots.
      - intros y E. rewrite E in Hslash.
        rewrite startswith_app in Hslash. discriminate Hslash. }
    assert (Hnot403 : (exists x y, slice_from 8 path = x ++ ".." ++ y)
                      \/ (exists y, slice_from 8 path = "/" ++ y) -> False).
    { intros [(x & y & E)|(y & E)];
        [exact (proj1 Hsafe x y E)|exact (proj2 Hsafe y E)]. }
    destruct (path_exists ("static/" ++ slice_from 8 path)) eqn:Hex;
      cbn [negb].
    + destruct (read_bytes ("static/" ++ slice_from 8 path)) as [content|e]
        eqn:Hread; intros E; injection E as <- <-.
      * split.
        { intros a Ha. apply elem_of_cons in Ha as [->|Ha];
            [split; [reflexivity|exact Hsafe]|].
          apply elem_of_cons in Ha as [->|Ha];
            [split; [reflexivity|exact Hsafe]|].
          apply elem_of_nil in Ha. contradiction. }
        split; [intros Hb; destruct (Hnot403 Hb)|].
        split; [intros _; exists content; auto|discriminate].
      * split.
        { intros a Ha. apply elem_of_cons in Ha as [->|Ha];
            [split; [reflexivity|exact Hsafe]|].
          apply elem_of_cons in Ha as [->|Ha];
            [split; [reflexivity|exact Hsafe]|].
          apply elem_of_nil in Ha. contradiction. }
        split; [intros Hb; destruct (Hnot403 Hb)|].
        split; [discriminate|intros _; exists e; auto].
    + intros E. injection E as <- <-.
      split.
      { intros a Ha. apply elem_of_cons in Ha as [->|Ha];
          [split; [reflexivity|exact Hsafe]|].
        apply elem_of_nil in Ha. contradiction. }
      split; [intros Hb; destruct (Hnot403 Hb)|]. split; discriminate.
Qed.
End StaticFacts.

(** ** Routing *)

Lemma _handle_index_returns :
  _handle_index
  = Return (mkIndexContext "Currency Tracker" "1.0.0"
              "Синельников Никита" "P3122" "/").
Proof. vm_compute. reflexivity. Qed.

Section Routing.
Context `{Formatting}.
Variable int : string -> option Z.
Variable str : Z -> string.
Variable path_exists : string -> bool.
Variable read_bytes : string -> result string.
Variable urlparse_path : string -> result string.
Variable query_id : string -> option string.
Variable fetch : list string -> logged (gmap string pyval).
Variable now : string.
Variable us : list User.t.
Variable links : list UserCurrency.t.

(** X22. A request is answered 500 for one of two reasons only: the
    target is routed to the static files and reading the file raised, or
    it is routed to the table of rates and the per-unit rate of one of
    the records, as they are after the call, cannot be computed
    ([OverflowError] or [ZeroDivisionError]).  No failure of the feed, of
    a setter or of the user lookup is answered 500. *)
Theorem server_errors_have_two_causes self_path store log store' trace r :
  do_GET int str path_exists read_bytes urlparse_path query_id fetch now
    us links self_path store
  = (log, store', trace, Return r) ->
  status r = 500 ->
  (exists path e,
     urlparse_path self_path = Return path
     /\ startswith "/static/" path = true
     /\ read_bytes ("static/" ++ slice_from 8 self_path) = Raise e
     /\ r = ErrorPage 500 ("Ошибка при чтении файла: " ++ str_exn e))
  \/ (exists c e,
        urlparse_path self_path = Return "/currencies"
        /\ c ∈ store' /\ get_value_per_unit c = Raise e
        /\ (exn_class e = OverflowError \/ exn_class e = ZeroDivisionError)
        /\ r = ErrorPage 500 ("Внутренняя ошибка сервера: " ++ str_exn e)).
Proof.
  unfold do_GET.
  destruct (urlparse_path self_path) as [path|e0]; [|discriminate].
  destruct (startswith "/static/" path) eqn:Hstatic.
  { unfold _handle_static_file, _send_error.
    destruct (str_contains ".." (slice_from 8 self_path)
              || startswith "/" (slice_from 8 self_path)).
    - intros E. injection E as <- <- <- <-. discriminate.
    - destruct (path_exists ("static/" ++ slice_from 8 self_path));
        cbn [negb].
      + destruct (read_bytes ("static/" ++ slice_from 8 self_path))
          as [content|e] eqn:Hread;
          intros E; injection E as <- <- <- <-; [discriminate|].
        intros _. left. exists path, e. auto.
      + intros E. injection E as <- <- <- <-. discriminate. }
  destruct (String.eqb path "/").
  { rewrite _handle_index_returns. cbn [bind].
    intros E. injection E as <- <- <- <-. discriminate. }
  destruct (String.eqb path "/users").
  { intros E. injection E as <- <- <- <-. discriminate. }
  destruct (String.eqb path "/user").
  { intros E. injection E as <- <- <- <-.
    destruct (user_detail_shape int str (query_id self_path) us links store)
      as [(tpl & ctx & ->)|(m & ->)]; discriminate. }
  destruct (String.eqb path "/currencies") eqn:Hcur.
  { apply String.eqb_eq in Hcur. subst path.
    destruct (_handle_currencies fetch now store) as [[l s] [ctx|e]] eqn:Hrun;
      cbn [bind]; intros E; injection E as <- <- <- <-; [discriminate|].
    intros _. right.
    pose proof (handler_raises_from_fallback fetch now store l s e Hrun)
      as Hs.
    destruct (static_rows_raises s e Hs) as (c & Hc & Hraise).
    pose proof (get_value_per_unit_raises c e Hraise) as Hclass.
    exists c, e. unfold _send_error. auto 6. }
  destruct (String.eqb path "/author");
    intros E; injection E as <- <- <- <-; discriminate.
Qed.

(** X23. Each route keeps to its own resources.  Only an exception of
    [urlparse] leaves [do_GET], before anything is done.  The log is
    written and the validated attributes of the records are touched on
    the route [/currencies] alone, and the file system is reached on the
    static route alone.  A target
    that belongs to no route is answered 404.  Whatever the route, every
    record keeps its id, codes, name and nominal. *)
Theorem routes_keep_to_their_own_resources
    self_path store log store' trace res :
  do_GET int str path_exists read_bytes urlparse_path query_id fetch now
    us links self_path store
  = (log, store', trace, res) ->
  (forall e, res = Raise e ->
     urlparse_path self_path = Raise e
     /\ log = [] /\ store' = store /\ trace = [])
  /\ (urlparse_path self_path <> Return "/currencies" ->
      log = [] /\ store' = store)
  /\ ((forall path, urlparse_path self_path = Return path ->
                    startswith "/static/" path = false) ->
      trace = [])
  /\ (forall path,
        urlparse_path self_path = Return path ->
        startswith "/static/" path = false ->
        path <> "/" -> path <> "/users" -> path <> "/user" ->
        path <> "/currencies" -> path <> "/author" ->
        res = Return (ErrorPage 404 "Страница не найдена"))
  /\ Forall2 same_identity store store'.
Proof.
  assert (Hsame : forall s : list Currency, Forall2 same_identity s s).
  { induction s; constructor; [repeat split|assumption]. }
  unfold do_GET.
  destruct (urlparse_path self_path) as [path|e0] eqn:Hurl.
  2:{ intros E. injection E as <- <- <- <-.
      split; [intros e E; injection E as <-; auto|].
      split; [auto|]. split; [auto|]. split; [discriminate|apply Hsame]. }
  destruct (startswith "/static/" path) eqn:Hstatic.
  { destruct (_handle_static_file path_exists read_bytes self_path)
      as [t r]. intros E. injection E as <- <- <- <-.
    split; [discriminate|]. split; [auto|].
    split; [intros Hno; rewrite (Hno path eq_refl) in Hstatic;
            discriminate Hstatic|].
    split; [|apply Hsame].
    intros p Hp Hs. injection Hp as <-. rewrite Hs in Hstatic.
    discriminate Hstatic. }
  destruct (String.eqb path "/") eqn:H1.
  { rewrite _handle_index_returns. cbn [bind].
    intros E. injection E as <- <- <- <-.
    apply String.eqb_eq in H1.
    split; [discriminate|]. split; [auto|]. split; [auto|].
    split; [|apply Hsame].
    intros p Hp. injection Hp as <-. intros _ Hne. contradiction. }
  destruct (String.eqb path "/users") eqn:H2.
  { intros E. injection E as <- <- <- <-.
    apply String.eqb_eq in H2.
    split; [discriminate|]. split; [auto|]. split; [auto|].
    split; [|apply Hsame].
    intros p Hp. injection Hp as <-. intros _ _ Hne. contradiction. }
  destruct (String.eqb path "/user") eqn:H3.
  { intros E. injection E as <- <- <- <-.
    apply String.eqb_eq in H3.
    split; [discriminate|]. split; [auto|]. split; [auto|].
    split; [|apply Hsame].
    intros p Hp. injection Hp as <-. intros _ _ _ Hne. contradiction. }
  destruct (String.eqb path "/currencies") eqn:H4.
  { apply String.eqb_eq in H4.
    pose proof (handler_keeps_identity fetch now store) as Hid.
    unfold store_after in Hid.
    destruct (_handle_currencies fetch now store) as [[l s] [ctx|e]];
      cbn [bind fst snd] in *; intros E; injection E as <- <- <- <-.
    - split; [discriminate|].
      split; [intros Hne; subst path; contradiction|]. split; [auto|].
      split; [|exact Hid].
      intros p Hp. injection Hp as <-. intros _ _ _ _ Hne. contradiction.
    - split; [discriminate|].
      split; [intros Hne; subst path; contradiction|]. split; [auto|].
      split; [|exact Hid].
      intros p Hp. injection Hp as <-. intros _ _ _ _ Hne. contradiction. }
  destruct (String.eqb path "/author") eqn:H5.
  { intros E. injection E as <- <- <- <-.
    apply String.eqb_eq in H5.
    split; [discriminate|]. split; [auto|]. split; [auto|].
    split; [|apply Hsame].
    intros p Hp. injection Hp as <-. intros _ _ _ _ _ Hne. contradiction. }
  intros E. injection E as <- <- <- <-.
  split; [discriminate|]. split; [auto|]. split; [auto|].
  split; [|apply Hsame].
  intros p Hp. injection Hp as <-. reflexivity.
Qed.
End Routing.

(* ===================================================================== *)
(** * The further properties on concrete inputs                           *)
(* ===================================================================== *)

Example class_attributes_constructed :
  construct_users = Return _users /\ length _users = 4%nat
  /\ construct_user_currencies = Return _user_currencies
  /\ length _user_currencies = 8%nat.
Proof. vm_compute. repeat split; reflexivity. Qed.

Example plain_int_and_str :
  plain_int "42" = Some 42 /\ plain_int "4x" = None /\ plain_int "" = None
  /\ plain_str 42 = "42" /\ plain_str 0 = "0" /\ plain_str (-7) = "-7".
Proof. vm_compute. repeat split; reflexivity. Qed.

(** The setters on texts outside ASCII.  A code of three Cyrillic letters
    is accepted and stored in upper case; a NO-BREAK SPACE (U+00A0) around
    a code is stripped, and a name that is nothing else is blank; a code of
    two characters is refused however many bytes it has.  The upper case
    of three characters can have four: such a code is stored by the
    constructor and refused when it is assigned again. *)
Example setters_on_texts_outside_ascii :
  Setter.char_code (PStr "руб") = Return "РУБ"
  /\ Setter.char_code (PStr ("USD" ++ encode 160)) = Return "USD"
  /\ Setter.char_code (PStr "éa")
     = Raise (Exn ValueError "Символьный код должен состоять из 3 символов")
  /\ Setter.name (PStr (encode 160))
     = Raise (Exn ValueError "Название не может быть пустым")
  /\ User.init (PInt 1) (PStr (encode 160))
     = Raise (Exn ValueError "Имя не может быть пустым")
  /\ init (PInt 1) (PInt 840) (PStr "aßb") (PStr "Dollar") (PInt 90) (PInt 1)
     = Return (mkCurrency 1 840 "ASSB" "Dollar" (f_of_Z 90) 1)
  /\ set_char_code (mkCurrency 1 840 "ASSB" "Dollar" (f_of_Z 90) 1)
       (PStr "ASSB")
     = Raise (Exn ValueError "Символьный код должен состоять из 3 символов").
Proof. vm_compute. repeat split. Qed.

Lemma currency_stays_well_formed_witness :
  well_formed (mkCurrency 1 840 "USD" "Dollar" (f_of_Z 90) 1).
Proof.
  destruct currency_stays_well_formed as (_ & _ & Hascii & _).
  apply (Hascii (PInt 1) (PInt 840) " usd " (PStr " Dollar ")
           (PInt 90) (PInt 1)).
  - reflexivity.
  - vm_compute. reflexivity.
Defined.

Lemma currency_setters_accept_stored_values_witness :
  let c := mkCurrency 1 840 "USD" "Dollar" (f_of_Z 90) 1 in
  set_char_code c (PStr "USD") = Return c
  /\ set_value c (PFloat (f_of_Z 90)) = Return c.
Proof.
  intros c.
  destruct (currency_setters_accept_stored_values
              (PInt 1) (PInt 840) (PStr " usd ") (PStr " Dollar ")
              (PInt 90) (PInt 1) c)
    as (_ & _ & _ & Hvalue & _ & Hcode).
  - vm_compute. reflexivity.
  - split; [exact (Hcode " usd " eq_refl eq_refl)|exact Hvalue].
Defined.


Lemma fetch_is_monotone_in_the_request_witness :
  let response := Return (feed_document [("USD", PInt 92); ("EUR", PInt 99)]) in
  exists m m',
    result_of (imported_get_currencies response ["USD"; "EUR"]) = Return m
    /\ result_of (imported_get_currencies response ["EUR"; "EUR"]) = Return m'
    /\ m' !! "EUR" = m !! "EUR"
    /\ m' !! "USD" = None.
Proof.
  intros response.
  destruct (result_of (imported_get_currencies response ["USD"; "EUR"]))
    as [m|e] eqn:Hm; [|vm_compute in Hm; discriminate Hm].
  destruct (@fetch_is_monotone_in_the_request plain_formatting
              response ["USD"; "EUR"] ["EUR"; "EUR"] m Hm)
    as (m' & Hm' & Hagree).
  - intros k Hk. apply elem_of_cons in Hk as [->|Hk].
    + apply list_elem_of_further, list_elem_of_here.
    + apply elem_of_cons in Hk as [->|Hk].
      * apply list_elem_of_further, list_elem_of_here.
      * apply elem_of_nil in Hk. contradiction.
  - exists m, m'. split; [reflexivity|]. split; [exact Hm'|].
    split; rewrite Hagree; reflexivity.
Defined.

Lemma fetch_passes_network_failures_through_witness :
  let e := Exn Timeout "timed out" in
  result_of (imported_get_currencies (Raise e) ["USD"; "EUR"]) = Raise e
  /\ length (log_of (imported_get_currencies (Raise e) ["USD"; "EUR"]))
     = 4%nat.
Proof.
  intros e. unfold imported_get_currencies.
  rewrite (@fetch_passes_network_failures_through plain_formatting
             (Raise e) e ["USD"; "EUR"] eq_refl).
  split; reflexivity.
Defined.

Lemma logger_without_info_or_write_never_calls_witness :
  exists e,
    exn_class e = AttributeError
    /\ forall func : unit -> logged Z,
         @inner plain_formatting unit Z "f" (fun _ => "()") (fun _ => "7")
           func (Some (mkHandle false true false)) tt
         = ([Error (@error_msg plain_formatting e)], Raise e).
Proof.
  exact (@logger_without_info_or_write_never_calls plain_formatting unit Z
           "f" (fun _ => "()") (fun _ => "7")
           (mkHandle false true false) tt eq_refl eq_refl).
Defined.

Lemma table_shows_the_records_as_they_are_witness :
  let usd := mkCurrency 1 840 "USD" "Dollar" (f_dec 9050 2) 1 in
  let api : gmap string pyval := {[ "USD" := PFloat (f_dec 9210 2) ]} in
  let fetch := fun _ : list string => (@nil call, Return api) in
  exists ctx,
    _handle_currencies fetch "now" [usd]
    = ([], [with_rate usd (f_dec 9210 2)], Return ctx)
    /\ Forall2 shows [with_rate usd (f_dec 9210 2)] (currencies ctx).
Proof.
  intros usd api fetch.
  assert (Hrun : exists ctx,
            _handle_currencies fetch "now" [usd]
            = ([], [with_rate usd (f_dec 9210 2)], Return ctx))
    by (vm_compute; eexists; reflexivity).
  destruct Hrun as (ctx & Hrun). exists ctx. split; [exact Hrun|].
  exact (proj1 (table_shows_the_records_as_they_are fetch "now" [usd] []
                  [with_rate usd (f_dec 9210 2)] ctx Hrun)).
Defined.

Lemma only_unit_rate_errors_escape_witness :
  let big := mkCurrency 1 840 "USD" "Dollar" (f_of_Z 90) (2 ^ 1024) in
  let fetch := fun _ : list string =>
                 (@nil call, @Raise (gmap string pyval)
                               (Exn Timeout "timed out")) in
  exists e,
    _handle_currencies fetch "now" [big] = ([], [big], Raise e)
    /\ (exn_class e = OverflowError \/ exn_class e = ZeroDivisionError).
Proof.
  intros big fetch.
  assert (Hrun : exists e,
            _handle_currencies fetch "now" [big] = ([], [big], Raise e))
    by (vm_compute; eexists; reflexivity).
  destruct Hrun as (e & Hrun). exists e. split; [exact Hrun|].
  exact (proj1 (only_unit_rate_errors_escape fetch "now" [big] [] [big] e
                  Hrun)).
Defined.

Lemma second_refresh_changes_nothing_witness :
  let usd := mkCurrency 1 840 "USD" "Dollar" (f_dec 9050 2) 1 in
  let api : gmap string pyval := {[ "USD" := PFloat (f_dec 9210 2) ]} in
  let fetch := fun _ : list string => (@nil call, Return api) in
  exists ctx ctx',
    _handle_currencies fetch "now" [usd]
    = ([], [with_rate usd (f_dec 9210 2)], Return ctx)
    /\ _handle_currencies fetch "now" [with_rate usd (f_dec 9210 2)]
       = ([], [with_rate usd (f_dec 9210 2)], Return ctx')
    /\ update_time ctx' = update_time ctx
    /\ Forall shows_no_change (currencies ctx').
Proof.
  intros usd api fetch.
  assert (Hrun : exists ctx,
            _handle_currencies fetch "now" [usd]
            = ([], [with_rate usd (f_dec 9210 2)], Return ctx))
    by (vm_compute; eexists; reflexivity).
  destruct Hrun as (ctx & Hrun).
  destruct (second_refresh_changes_nothing fetch "now" [usd] []
              [with_rate usd (f_dec 9210 2)] (Return ctx) Hrun)
    as (res' & Hrun' & ctx' & -> & Htime & _ & Hno).
  exists ctx, ctx'. auto.
Defined.

Lemma users_are_exactly_the_well_formed_witness :
  user_well_formed (User.mk 1 "Ann").
Proof.
  apply (proj1 users_are_exactly_the_well_formed).
  exists (PInt 1), (PStr " Ann "). vm_compute. reflexivity.
Defined.

Lemma links_are_exactly_the_well_formed_witness :
  link_well_formed (UserCurrency.mk 1 1 2).
Proof.
  apply (proj1 links_are_exactly_the_well_formed).
  exists (PInt 1), (PBool true), (PInt 2). vm_compute. reflexivity.
Defined.

Lemma authors_are_exactly_the_well_formed_witness :
  author_well_formed (Author.mk "Ann" "P3122").
Proof.
  apply (proj1 authors_are_exactly_the_well_formed).
  exists (PStr "Ann "), (PStr " P3122"). vm_compute. reflexivity.
Defined.

Lemma apps_hold_an_author_witness :
  let ann := Author.mk "Ann" "P3122" in
  app_well_formed (App.mk "Currency Tracker" "1.0.0" ann).
Proof.
  intros ann.
  destruct apps_hold_an_author as (_ & _ & Hinit & _).
  apply (Hinit (PStr "Currency Tracker ") (PStr "1.0.0") ann).
  - split; split; reflexivity.
  - vm_compute. reflexivity.
Defined.

Lemma users_page_counts_each_subscription_once_witness :
  map subscriptions_count (users (_handle_users _users _user_currencies))
  = [2; 2; 1; 3]
  /\ total (map subscriptions_count
              (users (_handle_users _users _user_currencies)))
     = Z.of_nat (length _user_currencies).
Proof.
  split; [vm_compute; reflexivity|].
  destruct (users_page_counts_each_subscription_once _users _user_currencies)
    as (_ & _ & Htotal & _).
  - vm_compute. repeat (constructor; [cbv; intuition discriminate|]).
    constructor.
  - rewrite Htotal. vm_compute. reflexivity.
Defined.

Lemma user_page_shows_exactly_the_subscriptions_witness :
  exists tpl ctx,
    @_handle_user_detail plain_formatting plain_int plain_str (Some "4")
      _users _user_currencies _currencies
    = Html tpl (UserDetailPage ctx)
    /\ User.id (user ctx) = 4
    /\ map (fun p => char_code (fst p)) (subscriptions ctx)
       = ["USD"; "EUR"; "CHF"]
    /\ sublist (map fst (subscriptions ctx)) _currencies.
Proof.
  assert (Hrun : exists tpl ctx,
            @_handle_user_detail plain_formatting plain_int plain_str
              (Some "4") _users _user_currencies _currencies
            = Html tpl (UserDetailPage ctx)
            /\ map (fun p => char_code (fst p)) (subscriptions ctx)
               = ["USD"; "EUR"; "CHF"])
    by (vm_compute; eexists; eexists; split; reflexivity).
  destruct Hrun as (tpl & ctx & Hrun & Hcodes).
  destruct (@user_page_shows_exactly_the_subscriptions plain_formatting
              plain_int plain_str (Some "4") _users _user_currencies
              _currencies tpl ctx Hrun)
    as (text & uid & Htext & Hint & Hid & _ & _ & Hsub & _).
  injection Htext as <-. vm_compute in Hint. injection Hint as <-.
  exists tpl, ctx. auto.
Defined.

Lemma user_page_agrees_with_the_count_witness :
  exists tpl ctx e,
    @_handle_user_detail plain_formatting plain_int plain_str (Some "4")
      _users _user_currencies _currencies
    = Html tpl (UserDetailPage ctx)
    /\ e ∈ users (_handle_users _users _user_currencies)
    /\ entry_id e = User.id (user ctx)
    /\ Z.of_nat (length (subscriptions ctx)) <= subscriptions_count e.
Proof.
  assert (Hrun : exists tpl ctx,
            @_handle_user_detail plain_formatting plain_int plain_str
              (Some "4") _users _user_currencies _currencies
            = Html tpl (UserDetailPage ctx))
    by (vm_compute; eexists; eexists; reflexivity).
  destruct Hrun as (tpl & ctx & Hrun).
  destruct (@user_page_agrees_with_the_count plain_formatting
              plain_int plain_str (Some "4") _users _user_currencies
              _currencies tpl ctx)
    as (e & Hin & Hid & _ & Hle & _).
  - vm_compute. repeat (constructor; [cbv; intuition discriminate|]).
    constructor.
  - exact Hrun.
  - exists tpl, ctx, e. auto.
Defined.

Lemma static_route_stays_in_its_folder_witness :
  let path_exists := fun _ : string => true in
  let read_bytes := fun _ : string => Return "secret" in
  @_handle_static_file plain_formatting path_exists read_bytes
    "/static/css/../../myapp.py"
  = ([], ErrorPage 403 "Доступ запрещен").
Proof.
  intros path_exists read_bytes.
  destruct (@_handle_static_file plain_formatting path_exists read_bytes
              "/static/css/../../myapp.py") as [trace r] eqn:Hrun.
  destruct (@static_route_stays_in_its_folder plain_formatting path_exists
              read_bytes "/static/css/../../myapp.py" trace r Hrun)
    as (_ & Hforbidden & _).
  destruct Hforbidden as [-> ->]; [|reflexivity].
  left. exists "css/", "/../myapp.py". reflexivity.
Defined.

Lemma server_errors_have_two_causes_witness :
  let big := mkCurrency 1 840 "USD" "Dollar" (f_of_Z 90) (2 ^ 1024) in
  let fetch := fun _ : list string =>
                 (@nil call, @Raise (gmap string pyval)
                               (Exn Timeout "timed out")) in
  let serve :=
    @do_GET plain_formatting plain_int plain_str
      (fun _ => false) (fun _ => Return "") (fun p => Return p)
      (fun _ => None) fetch "now" _users _user_currencies in
  exists r,
    serve "/currencies" [big] = ([], [big], [], Return r)
    /\ status r = 500
    /\ exists c e,
         c ∈ [big] /\ get_value_per_unit c = Raise e
         /\ r = ErrorPage 500 ("Внутренняя ошибка сервера: " ++ exn_arg e).
Proof.
  intros big fetch serve.
  assert (Hrun : exists r,
            serve "/currencies" [big] = ([], [big], [], Return r)
            /\ status r = 500)
    by (vm_compute; eexists; split; reflexivity).
  destruct Hrun as (r & Hrun & Hstatus).
  exists r. split; [exact Hrun|]. split; [exact Hstatus|].
  destruct (@server_errors_have_two_causes plain_formatting plain_int
              plain_str (fun _ => false) (fun _ => Return "")
              (fun p => Return p) (fun _ => None) fetch "now" _users
              _user_currencies "/currencies" [big] [] [big] [] r Hrun Hstatus)
    as [(path & e & Hpath & Hstatic & _)|(c & e & _ & Hc & He & _ & Hr)].
  - injection Hpath as <-. discriminate Hstatic.
  - exists c, e. auto.
Defined.

Lemma routes_keep_to_their_own_resources_witness :
  let fetch := fun _ : list string =>
                 (@nil call, @Raise (gmap string pyval)
                               (Exn Timeout "timed out")) in
  let serve :=
    @do_GET plain_formatting plain_int plain_str
      (fun _ => false) (fun _ => Return "") (fun p => Return p)
      (fun _ => None) fetch "now" _users _user_currencies in
  exists log store' trace,
    serve "/rates" _currencies
    = (log, store', trace, Return (ErrorPage 404 "Страница не найдена"))
    /\ log = [] /\ store' = _currencies /\ trace = [].
Proof.
  intros fetch serve.
  destruct (serve "/rates" _currencies) as [[[log store'] trace] res] eqn:Hrun.
  destruct (@routes_keep_to_their_own_resources plain_formatting plain_int
              plain_str (fun _ => false) (fun _ => Return "")
              (fun p => Return p) (fun _ => None) fetch "now" _users
              _user_currencies "/rates" _currencies log store' trace res Hrun)
    as (_ & Hframe & Htrace & Hunknown & _).
  destruct Hframe as [-> ->]; [discriminate|].
  rewrite Htrace by (intros path Hp; injection Hp as <-; reflexivity).
  rewrite (Hunknown "/rates" eq_refl eq_refl) by discriminate.
  exists [], _currencies, []. auto.
Defined.

Lemma currency_text_identifies_name_and_code_witness :
  let usd := mkCurrency 1 840 "USD" "Dollar" (f_of_Z 90) 1 in
  let usd' := mkCurrency 7 840 "USD" "Dollar" (f_of_Z 95) 10 in
  __str__ usd = "Dollar (USD)"
  /\ name usd = name usd' /\ char_code usd = char_code usd'.
Proof.
  intros usd usd'. split; [reflexivity|].
  apply (currency_text_identifies_name_and_code usd usd').
  - repeat split.
  - repeat split.
  - reflexivity.
Defined.
